(** * WMS order reconciliation: a shallow embedding of [src/server.js]

    The development follows the source file top to bottom: the JavaScript
    values that PapaParse hands to the loaders, the column resolver
    [findColumnValue], the three loaders, the SKU normaliser and combo
    expander, the status gate, the batch processor, the reconciler, the
    reset and the [/process-orders] handler.  The process-wide [masterData]
    object is an explicit [State]; inventory items are objects on a heap, so
    that the in-place write [inventoryItem.currentStock = newStock] and the
    copies made by [{ ...inventoryData }] are told apart.

    Modelling scope.  Strings are ASCII strings; [trim] and [toLowerCase]
    act on ASCII white space and ASCII letters.  A number in a cell is an
    integer, or a number with a fraction or an exponent, held by the digits
    [toString] prints.  A number the code computes is [NaN] or an integer:
    every one is a result of [parseInt] or of [+], [-] and [Math.max] on
    such results.  These integers are exact and unbounded, which is what
    JavaScript computes while they stay below 2^53 in magnitude. *)

From Stdlib Require Import ZArith Lia List String Ascii Bool DecimalString DecimalPos.
From Stdlib Require Import Sorting.Sorted Permutation.
From stdpp Require Import base tactics option list strings.
Import ListNotations.

Local Open Scope string_scope.
Local Open Scope list_scope.
Local Open Scope Z_scope.

(* ================================================================== *)
(** ** JavaScript numbers and values *)

Module Js.

(** A number as the code computes with it: [NaN] or an integer. *)
Inductive JsNum : Type :=
| NaN
| Num (z : Z).

(** A finite number that is not an integer below 10^21 in magnitude: a
    number with a fraction, such as 2.5, or one that [toString] prints with
    an exponent, such as 1e21 or 5e-7.  It is held by what
    [Number::toString] of ECMA-262 takes from it: the sign, the decimal
    digits of [s], most significant first and without trailing zero, and
    [n], for the magnitude [s * 10^(n - k)] with [k] the number of digits.
    2.5 has the digits 25 and [n = 1], 0.5 the digit 5 and [n = 0], 1e21 the
    digit 1 and [n = 22], 5e-7 the digit 5 and [n = -6]. *)
Module JsDec.
Record t : Type := mk { negative : bool; digits : Decimal.uint; n : Z }.

Definition eqb (a b : t) : bool :=
  Bool.eqb (negative a) (negative b)
  && Decimal.uint_beq (digits a) (digits b)
  && (n a =? n b).
End JsDec.

(** [a + b], [a - b], [a * b]: any [NaN] operand gives [NaN]. *)
Definition add (a b : JsNum) : JsNum :=
  match a, b with Num x, Num y => Num (x + y) | _, _ => NaN end.
Definition sub (a b : JsNum) : JsNum :=
  match a, b with Num x, Num y => Num (x - y) | _, _ => NaN end.
Definition mul (a b : JsNum) : JsNum :=
  match a, b with Num x, Num y => Num (x * y) | _, _ => NaN end.

(** [Math.max(a, b)]: [NaN] as soon as one argument is [NaN]. *)
Definition max (a b : JsNum) : JsNum :=
  match a, b with Num x, Num y => Num (Z.max x y) | _, _ => NaN end.

(** [a > b] and [a === b] on numbers: false when an operand is [NaN]. *)
Definition gt (a b : JsNum) : bool :=
  match a, b with Num x, Num y => y <? x | _, _ => false end.
Definition num_eq (a b : JsNum) : bool :=
  match a, b with Num x, Num y => x =? y | _, _ => false end.

(** The values a parsed cell or a resolved column can take.  A number is
    [VNum] when it is [NaN] or an integer below 10^21 in magnitude, and
    [VDec] otherwise. *)
Inductive JsVal : Type :=
| VUndefined
| VNull
| VBool (b : bool)
| VNum (n : JsNum)
| VStr (s : string)
| VDec (d : JsDec.t).

(** ToBoolean. *)
Definition truthy (v : JsVal) : bool :=
  match v with
  | VUndefined | VNull => false
  | VBool b => b
  | VNum NaN => false
  | VNum (Num z) => negb (z =? 0)
  | VStr s => negb (String.eqb s "")
  | VDec _ => true
  end.

(** [a || b]. *)
Definition or (a b : JsVal) : JsVal := if truthy a then a else b.

(** [a === b]. *)
Definition strict_eq (a b : JsVal) : bool :=
  match a, b with
  | VUndefined, VUndefined => true
  | VNull, VNull => true
  | VBool x, VBool y => Bool.eqb x y
  | VNum x, VNum y => num_eq x y
  | VStr x, VStr y => String.eqb x y
  | VDec x, VDec y => JsDec.eqb x y
  | _, _ => false
  end.

(** White space removed by [trim] and skipped by [parseInt]:
    TAB, LF, VT, FF, CR and SPACE. *)
Definition is_ws (a : ascii) : bool :=
  let n := N_of_ascii a in
  ((9 <=? n) && (n <=? 13) || (n =? 32))%N.

Fixpoint trimStart (s : string) : string :=
  match s with
  | String a s' => if is_ws a then trimStart s' else s
  | EmptyString => EmptyString
  end.

Fixpoint trimEnd (s : string) : string :=
  match s with
  | String a s' =>
      match trimEnd s' with
      | EmptyString => if is_ws a then EmptyString else String a EmptyString
      | t => String a t
      end
  | EmptyString => EmptyString
  end.

(** [s.trim()]. *)
Definition trim (s : string) : string := trimEnd (trimStart s).

Definition lower_ascii (a : ascii) : ascii :=
  let n := N_of_ascii a in
  if ((65 <=? n) && (n <=? 90))%N then ascii_of_N (n + 32) else a.

(** [s.toLowerCase()]. *)
Fixpoint toLowerCase (s : string) : string :=
  match s with
  | String a s' => String (lower_ascii a) (toLowerCase s')
  | EmptyString => EmptyString
  end.

Fixpoint startsWith (s p : string) {struct p} : bool :=
  match p, s with
  | EmptyString, _ => true
  | String b p', String a s' => Ascii.eqb a b && startsWith s' p'
  | String _ _, EmptyString => false
  end.

(** [s.includes(p)]. *)
Fixpoint includes (s p : string) : bool :=
  startsWith s p ||
  match s with
  | String _ s' => includes s' p
  | EmptyString => false
  end.

(** Decimal form of an integer, as [Number.prototype.toString] prints it. *)
Definition string_of_Z (z : Z) : string := NilZero.string_of_int (Z.to_int z).

(** The first [m] digits, and the digits after them. *)
Fixpoint uint_take (m : nat) (d : Decimal.uint) : Decimal.uint :=
  match m with
  | O => Decimal.Nil
  | S m' =>
      match d with
      | Decimal.Nil => Decimal.Nil
      | Decimal.D0 d' => Decimal.D0 (uint_take m' d')
      | Decimal.D1 d' => Decimal.D1 (uint_take m' d')
      | Decimal.D2 d' => Decimal.D2 (uint_take m' d')
      | Decimal.D3 d' => Decimal.D3 (uint_take m' d')
      | Decimal.D4 d' => Decimal.D4 (uint_take m' d')
      | Decimal.D5 d' => Decimal.D5 (uint_take m' d')
      | Decimal.D6 d' => Decimal.D6 (uint_take m' d')
      | Decimal.D7 d' => Decimal.D7 (uint_take m' d')
      | Decimal.D8 d' => Decimal.D8 (uint_take m' d')
      | Decimal.D9 d' => Decimal.D9 (uint_take m' d')
      end
  end.

Fixpoint uint_drop (m : nat) (d : Decimal.uint) : Decimal.uint :=
  match m with
  | O => d
  | S m' =>
      match d with
      | Decimal.Nil => Decimal.Nil
      | Decimal.D0 d' | Decimal.D1 d' | Decimal.D2 d' | Decimal.D3 d'
      | Decimal.D4 d' | Decimal.D5 d' | Decimal.D6 d' | Decimal.D7 d'
      | Decimal.D8 d' | Decimal.D9 d' => uint_drop m' d'
      end
  end.

(** [m] times the character 0. *)
Fixpoint zeros (m : nat) : string :=
  match m with
  | O => EmptyString
  | S m' => String "0" (zeros m')
  end.

(** [Number::toString] on the digits and [n] of a number, steps 6 to 10 of
    the specification: with [n] from -5 to 21 the digits are written out,
    followed by zeros, or split by the decimal point, or preceded by [0.]
    and zeros; otherwise the form is the first digit, the other digits as
    its fraction, and the exponent [n - 1] with its sign. *)
Definition text_of_digits (d : Decimal.uint) (n : Z) : string :=
  let k := Z.of_nat (Decimal.nb_digits d) in
  let text := NilEmpty.string_of_uint in
  if (-6 <? n) && (n <=? 21) then
    if k <=? n then text d +:+ zeros (Z.to_nat (n - k))
    else if 0 <? n then
      text (uint_take (Z.to_nat n) d) +:+ "." +:+ text (uint_drop (Z.to_nat n) d)
    else "0." +:+ zeros (Z.to_nat (- n)) +:+ text d
  else
    let e := n - 1 in
    text (uint_take 1 d)
      +:+ (if k =? 1 then "" else "." +:+ text (uint_drop 1 d))
      +:+ "e" +:+ (if e <? 0 then "-" else "+") +:+ string_of_Z (Z.abs e).

(** [String(v)]; on the truthy values the source calls [v.toString()] on,
    it is that method.  An integer prints as its digits: that is exact below
    2^53; from there to 10^21 JavaScript prints the shortest digits that
    read back as the same number, followed by zeros, so that [parseInt]
    still returns the number. *)
Definition ToString (v : JsVal) : string :=
  match v with
  | VUndefined => "undefined"
  | VNull => "null"
  | VBool true => "true"
  | VBool false => "false"
  | VNum NaN => "NaN"
  | VNum (Num z) => string_of_Z z
  | VStr s => s
  | VDec d =>
      (if JsDec.negative d then "-" else "")
        +:+ text_of_digits (JsDec.digits d) (JsDec.n d)
  end.

(** Value of a character as a digit in the given radix. *)
Definition digit_of (radix : Z) (a : ascii) : option Z :=
  let n := Z.of_N (N_of_ascii a) in
  let d := if (48 <=? n) && (n <=? 57) then Some (n - 48)
           else if (97 <=? n) && (n <=? 122) then Some (n - 87)
           else if (65 <=? n) && (n <=? 90) then Some (n - 55)
           else None in
  match d with
  | Some v => if v <? radix then Some v else None
  | None => None
  end.

(** Longest prefix of digits; [None] while no digit has been read. *)
Fixpoint parse_digits (radix : Z) (s : string) (acc : option Z) : option Z :=
  match s with
  | EmptyString => acc
  | String a s' =>
      match digit_of radix a with
      | Some d =>
          parse_digits radix s'
            (Some (match acc with Some v => v * radix + d | None => d end))
      | None => acc
      end
  end.

(** [parseInt(s)] on a string, no radix argument: leading white space is
    skipped, a sign is read, [0x]/[0X] selects radix 16, and the longest
    prefix of digits is the value; no digit at all gives [NaN].  The value
    is the exact integer of the digits; JavaScript returns the nearest
    double, which is that integer below 2^53. *)
Definition parseInt_str (s : string) : JsNum :=
  let s1 := trimStart s in
  let '(sign, s2) :=
    match s1 with
    | String "-" r => (-1, r)
    | String "+" r => (1, r)
    | _ => (1, s1)
    end in
  let '(radix, s3) :=
    match s2 with
    | String "0" (String "x" r) => (16, r)
    | String "0" (String "X" r) => (16, r)
    | _ => (10, s2)
    end in
  match parse_digits radix s3 None with
  | Some v => Num (sign * v)
  | None => NaN
  end.

(** [parseInt(v)]: the argument is first converted with [String]. *)
Definition parseInt (v : JsVal) : JsNum := parseInt_str (ToString v).

End Js.

Import Js.

(* ================================================================== *)
(** ** Parsed rows and the column resolver *)

(** A row object of PapaParse: header label to cell, in column order. *)
Definition Row : Type := list (string * JsVal).

(** [row[name]]: [undefined] when the row has no such property. *)
Fixpoint row_get (row : Row) (name : string) : JsVal :=
  match row with
  | [] => VUndefined
  | (k, v) :: rest => if String.eqb k name then v else row_get rest name
  end.

(** [findColumnValue(row, possibleNames)]. *)
Fixpoint findColumnValue (row : Row) (possibleNames : list string) : JsVal :=
  match possibleNames with
  | [] => VNull
  | name :: rest =>
      let v := row_get row name in
      if negb (strict_eq v VUndefined) && negb (strict_eq v VNull)
         && negb (strict_eq v (VStr ""))
      then v
      else findColumnValue row rest
  end.

(* ================================================================== *)
(** ** Status gate *)

Definition validStatuses : list string :=
  [ "delivered"; "shipped"; "ready_to_ship"; "dispatched";
    "completed"; "fulfilled"; "out_for_delivery"; "success";
    "confirmed"; "processing"; "packed"; "in_transit" ].

Definition invalidStatuses : list string :=
  [ "cancelled"; "returned"; "refunded"; "rejected"; "failed" ].

(** [shouldProcessOrder(status, marketplace)]. *)
Definition shouldProcessOrder (status : JsVal) (marketplace : string) : bool :=
  if negb (truthy status) then false
  else
    let statusLower := toLowerCase (ToString status) in
    let hasValidStatus :=
      existsb (fun validStatus => includes statusLower validStatus) validStatuses in
    let hasInvalidStatus :=
      existsb (fun invalidStatus => includes statusLower invalidStatus) invalidStatuses in
    hasValidStatus && negb hasInvalidStatus.

(* ================================================================== *)
(** ** [Map] objects, records and the process-wide state *)

(** A JavaScript [Map] with string keys: entries in insertion order, one
    entry per key. *)
Module JsMap.

Definition t (V : Type) : Type := list (string * V).

Definition empty {V : Type} : t V := [].

(** [m.get(key)]; [None] stands for [undefined]. *)
Fixpoint get {V : Type} (key : string) (m : t V) : option V :=
  match m with
  | [] => None
  | (k, v) :: rest => if String.eqb k key then Some v else get key rest
  end.

(** [m.has(key)]. *)
Definition has {V : Type} (key : string) (m : t V) : bool :=
  match get key m with Some _ => true | None => false end.

(** [m.set(key, value)]: an existing key keeps its position, a new key
    goes last. *)
Fixpoint set {V : Type} (key : string) (value : V) (m : t V) : t V :=
  match m with
  | [] => [(key, value)]
  | (k, v) :: rest =>
      if String.eqb k key then (k, value) :: rest
      else (k, v) :: set key value rest
  end.

Definition keys {V : Type} (m : t V) : list string := map fst m.
Definition values {V : Type} (m : t V) : list V := map snd m.
Definition size {V : Type} (m : t V) : nat := length m.

End JsMap.

(** A combo component [{ msku, quantity }]; both places that build one
    write the literal [quantity: 1]. *)
Module Component.
Record t : Type := mk { msku : string; quantity : Z }.
End Component.

(** The object stored per MSKU in the ledger and in its backup.  The
    nested [warehouseBreakdown] object is shared by the copies of an item
    and never written after the load, so it is kept as a value. *)
Module InventoryItem.
Record t : Type := mk {
  msku : string;
  productName : string;
  panel : string;
  status : string;
  currentStock : JsNum;
  originalStock : JsNum;
  openingStock : JsNum;
  bufferStock : JsNum;
  warehouseStock : JsNum;
  warehouseBreakdown : list (string * JsNum)
}.

(** [inventoryItem.currentStock = newStock]. *)
Definition set_currentStock (newStock : JsNum) (i : t) : t :=
  mk (msku i) (productName i) (panel i) (status i) newStock
     (originalStock i) (openingStock i) (bufferStock i)
     (warehouseStock i) (warehouseBreakdown i).
End InventoryItem.

(** References to inventory objects, and the heap they live on. *)
Abbreviation Ref := nat.
Abbreviation Heap := (list InventoryItem.t).

(** A new object: [inventoryData = {...}] or a copy [{ ...obj }]. *)
Definition alloc (h : Heap) (o : InventoryItem.t) : Heap * Ref :=
  (h ++ [o], length h).

(** [masterData], with the heap of the inventory objects both inventory
    maps point into. *)
Record State : Type := mkState {
  skuToMsku : JsMap.t string;
  comboSkus : JsMap.t (list Component.t);
  currentInventory : JsMap.t Ref;
  originalInventory : JsMap.t Ref;
  heap : Heap
}.

Definition masterData0 : State :=
  mkState JsMap.empty JsMap.empty JsMap.empty JsMap.empty [].

(** The ledger and the backup as values: the object a key points to. *)
Definition ledger_get (st : State) (msku : string) : option InventoryItem.t :=
  match JsMap.get msku (currentInventory st) with
  | Some r => heap st !! r
  | None => None
  end.

Definition snapshot_get (st : State) (msku : string) : option InventoryItem.t :=
  match JsMap.get msku (originalInventory st) with
  | Some r => heap st !! r
  | None => None
  end.

(** The working ledger as the [/inventory] route lists it. *)
Definition ledger_view (st : State) : list (string * option InventoryItem.t) :=
  map (fun '(k, r) => (k, heap st !! r)) (currentInventory st).

(* ================================================================== *)
(** ** Loaders *)

(** One iteration of the [forEach] of [loadMasterData]. *)
Definition loadMasterData_row (st : State) (row : Row) : State :=
  let sku := findColumnValue row ["sku"; "SKU"; "Sku"] in
  let msku := findColumnValue row ["msku"; "MSKU"; "Msku"] in
  if truthy sku && truthy msku && negb (strict_eq sku msku)
  then mkState
         (JsMap.set (trim (ToString sku)) (trim (ToString msku)) (skuToMsku st))
         (comboSkus st) (currentInventory st) (originalInventory st) (heap st)
  else st.

(** [loadMasterData], after parsing. *)
Definition loadMasterData (data : list Row) (st : State) : State :=
  fold_left loadMasterData_row data st.

(** The slots [1 .. 14] of a combo row. *)
Definition comboSlots : list Z := map Z.of_nat (seq 1 14).

(** The inner [for] loop of [loadComboData]. *)
Definition comboComponents (row : Row) : list Component.t :=
  fold_left
    (fun components i =>
       let component :=
         findColumnValue row ["SKU" +:+ string_of_Z i; "sku" +:+ string_of_Z i] in
       if truthy component
          && negb (String.eqb (trim (ToString component)) "")
       then components ++ [Component.mk (trim (ToString component)) 1]
       else components)
    comboSlots [].

(** One iteration of the [forEach] of [loadComboData]. *)
Definition loadComboData_row (st : State) (row : Row) : State :=
  let comboSku := findColumnValue row ["Combo "; "Combo"; "combo"] in
  let status := findColumnValue row ["Status"; "status"; "STATUS"] in
  if truthy comboSku
     && (negb (truthy status)
         || String.eqb (toLowerCase (ToString status)) "combo"
         || String.eqb (toLowerCase (ToString status)) "active")
  then
    let combo := trim (ToString comboSku) in
    let components := comboComponents row in
    if (0 <? length components)%nat
    then mkState (skuToMsku st) (JsMap.set combo components (comboSkus st))
           (currentInventory st) (originalInventory st) (heap st)
    else st
  else st.

Definition loadComboData (data : list Row) (st : State) : State :=
  fold_left loadComboData_row data st.

Definition warehouseColumns : list string :=
  [ "TLCQ"; "BLR7"; "BLR8"; "BOM5"; "BOM7"; "CCU1"; "CCX1"; "DEL4";
    "DEL5"; "DEX3"; "PNQ2"; "PNQ3"; "SDED"; "SDEE"; "XHJ9" ].

(** The [warehouseColumns.forEach] of [loadCurrentInventory]:
    [(warehouseStock, warehouseBreakdown)]. *)
Definition warehouseTotals (row : Row) : JsNum * list (string * JsNum) :=
  fold_left
    (fun '(warehouseStock, warehouseBreakdown) col =>
       let stock := parseInt (Js.or (findColumnValue row [col]) (VNum (Num 0))) in
       if Js.gt stock (Num 0)
       then (Js.add warehouseStock stock, warehouseBreakdown ++ [(col, stock)])
       else (warehouseStock, warehouseBreakdown))
    warehouseColumns (Num 0, []).

(** [keys.join(', ')]. *)
Fixpoint join (sep : string) (l : list string) : string :=
  match l with
  | [] => ""
  | [x] => x
  | x :: rest => x +:+ sep +:+ join sep rest
  end.

(** [openingStock], [bufferStock] and [totalStock] of one inventory row. *)
Definition openingStockOf (row : Row) : JsNum :=
  parseInt (Js.or (findColumnValue row ["Opening Stock"; "opening_stock"; "Opening"])
                  (VNum (Num 0))).

Definition bufferStockOf (row : Row) : JsNum :=
  parseInt (Js.or (findColumnValue row ["Buffer Stock"; "buffer_stock"; "Buffer"])
                  (VNum (Num 0))).

Definition totalStockOf (row : Row) : JsNum :=
  let openingStock := openingStockOf row in
  let warehouseStock := fst (warehouseTotals row) in
  if Js.num_eq openingStock (Num 0) && Js.gt warehouseStock (Num 0)
  then warehouseStock
  else openingStock.

(** The object literal [inventoryData] built for a row whose msku
    resolves, under the trimmed key. *)
Definition inventoryDataOf (row : Row) (msquKey : string) : InventoryItem.t :=
  let productName := findColumnValue row ["Product Name"; "product_name"; "Product"] in
  let '(warehouseStock, warehouseBreakdown) := warehouseTotals row in
  let totalStock := totalStockOf row in
  InventoryItem.mk
    msquKey
    (if truthy productName then trim (ToString productName) else "Unknown Product")
    (if (0 <? length warehouseBreakdown)%nat
     then "Warehouses: " +:+ join ", " (map fst warehouseBreakdown)
     else "Unknown")
    (if Js.gt totalStock (Num 0) then "In Stock" else "Out of Stock")
    totalStock
    totalStock
    (openingStockOf row)
    (bufferStockOf row)
    warehouseStock
    warehouseBreakdown.

(** The storing part of one iteration of [loadCurrentInventory]: the new
    object goes into the ledger, a copy of it into the backup. *)
Definition loadCurrentInventory_row (st : State) (row : Row) : State :=
  let msku := findColumnValue row ["msku"; "MSKU"; "Msku"] in
  if truthy msku && negb (String.eqb (trim (ToString msku)) "")
  then
    let msquKey := trim (ToString msku) in
    let inventoryData := inventoryDataOf row msquKey in
    let '(h1, r1) := alloc (heap st) inventoryData in
    let '(h2, r2) := alloc h1 inventoryData in
    mkState (skuToMsku st) (comboSkus st)
      (JsMap.set msquKey r1 (currentInventory st))
      (JsMap.set msquKey r2 (originalInventory st))
      h2
  else st.

(** The debug log of the first three rows evaluates
    [productName ? productName.substring(0, 30) + '...' : null]; a truthy
    product name that is not a string has no [substring] method, and the
    call raises a TypeError. *)
Definition debugLogThrows (index : nat) (row : Row) : bool :=
  let productName := findColumnValue row ["Product Name"; "product_name"; "Product"] in
  (index <? 3)%nat && truthy productName
  && match productName with VStr _ => false | _ => true end.

(** [loadCurrentInventory], after parsing, from row [index] on.  The
    boolean tells whether the [forEach] was left by the TypeError above;
    the rows stored before it stay stored. *)
Fixpoint loadCurrentInventory_from (index : nat) (data : list Row) (st : State)
  : State * bool :=
  match data with
  | [] => (st, false)
  | row :: rest =>
      let st' := loadCurrentInventory_row st row in
      if debugLogThrows index row then (st', true)
      else loadCurrentInventory_from (S index) rest st'
  end.

Definition loadCurrentInventory (data : list Row) (st : State) : State * bool :=
  loadCurrentInventory_from 0 data st.

(** [loadMasterFilesOnStartup], with the parsed content of each of the
    three files when it exists.  A rejection of the inventory load is
    caught and logged. *)
Definition loadMasterFilesOnStartup
  (masterSkuFile comboFile inventoryFile : option (list Row)) : State :=
  let st1 := match masterSkuFile with
             | Some data => loadMasterData data masterData0
             | None => masterData0
             end in
  let st2 := match comboFile with
             | Some data => loadComboData data st1
             | None => st1
             end in
  match inventoryFile with
  | Some data => fst (loadCurrentInventory data st2)
  | None => st2
  end.

(* ================================================================== *)
(** ** Marketplace detection, SKU normaliser and combo expander *)

(** [detectMarketplace(orderData)]. *)
Definition detectMarketplace (orderData : list Row) : string :=
  match orderData with
  | [] => "unknown"
  | firstRow :: _ =>
      let columns := map (fun '(k, _) => toLowerCase k) firstRow in
      if existsb (fun col => includes col "msku") columns then "meesho"
      else if existsb (fun col => includes col "asin" || includes col "amazon") columns
      then "amazon"
      else if existsb (fun col => includes col "flipkart" || includes col "fsn") columns
      then "flipkart"
      else if existsb (fun col => includes col "sku") columns then "generic"
      else "unknown"
  end.

(** [mapSkuToMsku(sku, marketplace)]. *)
Definition mapSkuToMsku (st : State) (sku : JsVal) (marketplace : string) : string :=
  let cleanSku := if truthy sku then trim (ToString sku) else "" in
  if String.eqb marketplace "meesho" then cleanSku
  else
    match JsMap.get cleanSku (skuToMsku st) with
    | Some msku => msku
    | None => cleanSku
    end.

(** [comboSkus.get(sku)] for a key that is any value: the keys of the
    table are strings, so only a string can hit. *)
Definition comboSkus_get (st : State) (key : JsVal) : option (list Component.t) :=
  match key with
  | VStr s => JsMap.get s (comboSkus st)
  | _ => None
  end.

(** [expandComboSku(sku, marketplace)]. *)
Definition expandComboSku (st : State) (sku : JsVal) (marketplace : string)
  : list Component.t :=
  let mappedMsku := mapSkuToMsku st sku marketplace in
  match JsMap.get mappedMsku (comboSkus st) with
  | Some components => components
  | None =>
      match comboSkus_get st sku with
      | Some components => components
      | None => [Component.mk mappedMsku 1]
      end
  end.

(* ================================================================== *)
(** ** Order extraction and the batch processor *)

Module OrderInfo.
Record t : Type := mk {
  sku : JsVal;
  quantity : JsNum;
  status : JsVal;
  orderDate : JsVal;
  customerLocation : JsVal;
  productName : JsVal
}.
End OrderInfo.

(** [parseInt(findColumnValue(order, names) || 1)]. *)
Definition quantityOf (order : Row) (names : list string) : JsNum :=
  parseInt (Js.or (findColumnValue order names) (VNum (Num 1))).

(** [extractOrderInfo(order, marketplace)]. *)
Definition extractOrderInfo (order : Row) (marketplace : string) : OrderInfo.t :=
  if String.eqb marketplace "amazon" then
    OrderInfo.mk
      (findColumnValue order ["SKU"; "sku"; "ASIN"; "asin"])
      (quantityOf order ["Quantity"; "quantity"; "Qty"; "qty"])
      (findColumnValue order ["Order Status"; "order-status"; "Status"; "status"])
      (findColumnValue order ["Order Date"; "order-date"; "Purchase Date"; "Date"])
      (findColumnValue order ["Ship City"; "ship-city"; "Customer State"; "Location"])
      (findColumnValue order ["Product Name"; "product-name"; "Title"; "Item"])
  else if String.eqb marketplace "flipkart" then
    OrderInfo.mk
      (findColumnValue order ["SKU"; "sku"; "FSN"; "fsn"])
      (quantityOf order ["Quantity"; "quantity"; "Qty"; "qty"])
      (findColumnValue order ["Order Status"; "order-status"; "Status"; "status"])
      (findColumnValue order ["Order Date"; "order-date"; "Date"])
      (findColumnValue order ["Customer State"; "customer-state"; "Location"])
      (findColumnValue order ["Product Name"; "product-name"; "Item"])
  else if String.eqb marketplace "meesho" then
    OrderInfo.mk
      (findColumnValue order ["MSKU"; "msku"; "SKU"; "sku"])
      (quantityOf order ["Quantity"; "quantity"; "Qty"; "qty"])
      (findColumnValue order ["Status"; "status"; "Order Status"])
      (findColumnValue order ["Order Date"; "order-date"; "Date"])
      (findColumnValue order ["Customer Location"; "customer-location"; "Location"])
      (findColumnValue order ["Product Name"; "product-name"; "Item"])
  else
    OrderInfo.mk
      (findColumnValue order ["SKU"; "sku"; "MSKU"; "msku"; "Product Code"; "Item Code"])
      (quantityOf order ["Quantity"; "quantity"; "Qty"; "qty"; "Count"; "Amount"])
      (findColumnValue order
         ["Status"; "status"; "Order Status"; "Reason for Credit Entry"; "State"])
      (findColumnValue order ["Order Date"; "order-date"; "Date"; "Created Date"])
      (findColumnValue order
         ["Customer State"; "Customer Location"; "Location"; "State"; "City"])
      (findColumnValue order
         ["Product Name"; "product-name"; "Title"; "Item Name"; "Description"]).

Module ProcessedOrder.
Record t : Type := mk {
  marketplace : string;
  originalSku : JsVal;
  mappedMsku : string;
  quantity : Z;
  status : JsVal;
  orderDate : JsVal;
  customerLocation : JsVal;
  productName : JsVal;
  isComboComponent : bool
}.
End ProcessedOrder.

#[global] Instance JsNum_eq_dec : EqDecision JsNum.
Proof. solve_decision. Defined.

#[global] Instance uint_eq_dec : EqDecision Decimal.uint := Decimal.uint_eq_dec.

#[global] Instance JsDec_eq_dec : EqDecision JsDec.t.
Proof. solve_decision. Defined.

#[global] Instance JsVal_eq_dec : EqDecision JsVal.
Proof. solve_decision. Defined.

(** [set.add(v)] on a [Set], kept in insertion order. *)
Definition jsSet_add (v : JsVal) (l : list JsVal) : list JsVal :=
  if bool_decide (v ∈ l) then l else l ++ [v].

(** What [processOrderData] returns.  The quantities in
    [msquQuantityMap] are integers: a quantity only reaches the map after
    the test [quantity > 0], which [NaN] fails. *)
Module BatchResult.
Record t : Type := mk {
  processedOrders : list ProcessedOrder.t;
  msquQuantityMap : JsMap.t Z;
  unmappedSkus : list JsVal
}.
End BatchResult.

(** The body of [expandedItems.forEach] for an order of integer quantity. *)
Definition processOrderData_item (marketplace : string) (info : OrderInfo.t)
  (quantity : Z) (isCombo : bool) (acc : BatchResult.t) (item : Component.t)
  : BatchResult.t :=
  let msku := Component.msku item in
  let itemQuantity := Component.quantity item * quantity in
  if negb (String.eqb msku "") then
    let currentQty :=
      match JsMap.get msku (BatchResult.msquQuantityMap acc) with
      | Some q => q
      | None => 0
      end in
    BatchResult.mk
      (BatchResult.processedOrders acc ++
         [ProcessedOrder.mk marketplace (OrderInfo.sku info) msku itemQuantity
            (OrderInfo.status info) (OrderInfo.orderDate info)
            (OrderInfo.customerLocation info) (OrderInfo.productName info)
            isCombo])
      (JsMap.set msku (currentQty + itemQuantity) (BatchResult.msquQuantityMap acc))
      (BatchResult.unmappedSkus acc)
  else
    BatchResult.mk (BatchResult.processedOrders acc)
      (BatchResult.msquQuantityMap acc)
      (jsSet_add (OrderInfo.sku info) (BatchResult.unmappedSkus acc)).

(** The body of [orderData.forEach]. *)
Definition processOrderData_order (st : State) (marketplace : string)
  (acc : BatchResult.t) (order : Row) : BatchResult.t :=
  let info := extractOrderInfo order marketplace in
  if shouldProcessOrder (OrderInfo.status info) marketplace then
    if truthy (OrderInfo.sku info) && Js.gt (OrderInfo.quantity info) (Num 0) then
      match OrderInfo.quantity info with
      | Num quantity =>
          let expandedItems := expandComboSku st (OrderInfo.sku info) marketplace in
          fold_left
            (processOrderData_item marketplace info quantity
               (1 <? length expandedItems)%nat)
            expandedItems acc
      | NaN => acc
      end
    else acc
  else acc.

(** [processOrderData(orderData, marketplace)]. *)
Definition processOrderData (st : State) (orderData : list Row) (marketplace : string)
  : BatchResult.t :=
  fold_left (processOrderData_order st marketplace) orderData
    (BatchResult.mk [] JsMap.empty []).

(* ================================================================== *)
(** ** Reconciliation and reset *)

(** An element of [inventoryUpdates]; [notInInventory] is [false] where
    the source leaves the property out. *)
Module InventoryUpdate.
Record t : Type := mk {
  msku : string;
  originalStock : JsNum;
  soldQuantity : Z;
  newStock : JsNum;
  stockReduced : JsNum;
  panel : string;
  status : string;
  isOutOfStock : bool;
  notInInventory : bool
}.
End InventoryUpdate.

(** The update pushed for an MSKU that the ledger does not have. *)
Definition notFoundUpdate (msku : string) (soldQuantity : Z) : InventoryUpdate.t :=
  InventoryUpdate.mk msku (Num 0) soldQuantity (Num 0) (Num 0)
    "Not Found" "Unknown" true true.

(** The body of [msquQuantityMap.forEach] in [updateInventoryWithSales]. *)
Definition updateInventoryWithSales_entry
  (acc : list InventoryUpdate.t * State) (entry : string * Z)
  : list InventoryUpdate.t * State :=
  let '(inventoryUpdates, st) := acc in
  let '(msku, soldQuantity) := entry in
  match JsMap.get msku (currentInventory st) with
  | Some r =>
      match heap st !! r with
      | Some inventoryItem =>
          (* [if (inventoryItem)]: an object is truthy *)
          let newStock :=
            Js.max (Num 0)
              (Js.sub (InventoryItem.currentStock inventoryItem) (Num soldQuantity)) in
          let stockDifference :=
            Js.sub (InventoryItem.currentStock inventoryItem) newStock in
          let st' :=
            mkState (skuToMsku st) (comboSkus st)
              (JsMap.set msku r (currentInventory st))
              (originalInventory st)
              (<[r := InventoryItem.set_currentStock newStock inventoryItem]> (heap st)) in
          (inventoryUpdates ++
             [InventoryUpdate.mk msku
                (InventoryItem.originalStock inventoryItem)
                soldQuantity newStock stockDifference
                (InventoryItem.panel inventoryItem)
                (InventoryItem.status inventoryItem)
                (Js.num_eq newStock (Num 0))
                false],
           st')
      | None => (inventoryUpdates ++ [notFoundUpdate msku soldQuantity], st)
      end
  | None => (inventoryUpdates ++ [notFoundUpdate msku soldQuantity], st)
  end.

(** [(a, b) => b.soldQuantity - a.soldQuantity]. *)
Definition bySoldDesc (a b : InventoryUpdate.t) : Z :=
  InventoryUpdate.soldQuantity b - InventoryUpdate.soldQuantity a.

(** [Array.prototype.sort(compare)] is a stable sort; with a consistent
    comparator every stable sort returns the same array, computed here
    by insertion from the right.  [compare x y > 0] puts [x] after [y]. *)
Fixpoint sort_insert {A : Type} (compare : A -> A -> Z) (x : A) (l : list A) : list A :=
  match l with
  | [] => [x]
  | y :: rest =>
      if 0 <? compare x y then y :: sort_insert compare x rest
      else x :: y :: rest
  end.

Definition array_sort {A : Type} (compare : A -> A -> Z) (l : list A) : list A :=
  fold_right (sort_insert compare) [] l.

(** The updates in the order of the map, before the final sort. *)
Definition inventoryUpdatesUnsorted (msquQuantityMap : JsMap.t Z) (st : State)
  : list InventoryUpdate.t * State :=
  fold_left updateInventoryWithSales_entry msquQuantityMap ([], st).

(** [updateInventoryWithSales(msquQuantityMap)]: the returned array and
    the state it leaves. *)
Definition updateInventoryWithSales (msquQuantityMap : JsMap.t Z) (st : State)
  : list InventoryUpdate.t * State :=
  let '(inventoryUpdates, st') := inventoryUpdatesUnsorted msquQuantityMap st in
  (array_sort bySoldDesc inventoryUpdates, st').

(** The body of [originalInventory.forEach] in [resetInventory]: a copy
    of the backup object replaces the ledger entry. *)
Definition resetInventory_entry (st : State) (entry : string * Ref) : State :=
  let '(msku, r) := entry in
  match heap st !! r with
  | Some originalData =>
      let '(h, r') := alloc (heap st) originalData in
      mkState (skuToMsku st) (comboSkus st)
        (JsMap.set msku r' (currentInventory st))
        (originalInventory st) h
  | None => st
  end.

(** [resetInventory()]. *)
Definition resetInventory (st : State) : State :=
  fold_left resetInventory_entry (originalInventory st) st.

(* ================================================================== *)
(** ** The [/process-orders] and [/reset-inventory] routes *)

(** [req.files] as [upload.fields] leaves it for a multipart request, after
    parsing: [masterFile] when one was sent, and the [orderFiles] when at
    least one was sent. *)
Module Files.
Record t : Type := mk {
  masterFile : option (list Row);
  orderFiles : option (list (list Row))
}.
End Files.

(** A request as the handler receives it.  multer sets [req.files] for a
    request with a multipart body only: for any other request the
    middleware passes it on untouched and [req.files] is [undefined].  A
    request that multer rejects does not reach the handler.  Failures of
    the file system and of the parser, which also end a request
    in the [catch] branch, are outside this model. *)
Record Request : Type := mkRequest {
  files : option Files.t
}.

(** A multipart request with these files. *)
Definition multipart (masterFile : option (list Row))
  (orderFiles : option (list (list Row))) : Request :=
  mkRequest (Some (Files.mk masterFile orderFiles)).

Module MarketplaceSummary.
Record t : Type := mk {
  ordersProcessed : nat;
  uniqueMskus : nat;
  totalQuantity : Z;
  unmappedSkus : nat
}.
End MarketplaceSummary.

Module Summary.
Record t : Type := mk {
  totalOrdersProcessed : nat;
  uniqueMskusAffected : nat;
  totalQuantitySold : Z;
  unmappedSkusCount : nat;
  outOfStockItems : nat;
  marketplaceSummary : JsMap.t MarketplaceSummary.t
}.
End Summary.

(** The answers of [/process-orders].  The 500 answer of the [catch]
    branch also carries the message of the error as [details]. *)
Inductive Response : Type :=
| Status500 (error : string)
| Status400 (error : string)
| Status200 (summary : Summary.t) (inventoryUpdates : list InventoryUpdate.t)
    (processedOrders : list ProcessedOrder.t) (unmappedSkus : list JsVal).

(** [Array.from(map.values()).reduce((sum, qty) => sum + qty, 0)]. *)
Definition sumQuantities (m : JsMap.t Z) : Z :=
  fold_left (fun sum qty => sum + qty) (JsMap.values m) 0.

(** [result.msquQuantityMap.forEach] of the route: one batch is added
    into the combined map. *)
Definition combineMsquMap (combinedMsquMap : JsMap.t Z) (batch : JsMap.t Z) : JsMap.t Z :=
  fold_left
    (fun combined '(msku, qty) =>
       let currentQty := match JsMap.get msku combined with
                         | Some q => q
                         | None => 0
                         end in
       JsMap.set msku (currentQty + qty) combined)
    batch combinedMsquMap.

(** The accumulators of the loop over the order files. *)
Module Batches.
Record t : Type := mk {
  allProcessedOrders : list ProcessedOrder.t;
  combinedMsquMap : JsMap.t Z;
  allUnmappedSkus : list JsVal;
  marketplaceSummary : JsMap.t MarketplaceSummary.t
}.
End Batches.

(** The body of [for (const file of req.files.orderFiles)]. *)
Definition processOrderFile (st : State) (acc : Batches.t) (orderData : list Row)
  : Batches.t :=
  let marketplace := detectMarketplace orderData in
  let result := processOrderData st orderData marketplace in
  Batches.mk
    (Batches.allProcessedOrders acc ++ BatchResult.processedOrders result)
    (combineMsquMap (Batches.combinedMsquMap acc) (BatchResult.msquQuantityMap result))
    (fold_left (fun set sku => jsSet_add sku set)
       (BatchResult.unmappedSkus result) (Batches.allUnmappedSkus acc))
    (JsMap.set marketplace
       (MarketplaceSummary.mk
          (length (BatchResult.processedOrders result))
          (JsMap.size (BatchResult.msquQuantityMap result))
          (sumQuantities (BatchResult.msquQuantityMap result))
          (length (BatchResult.unmappedSkus result)))
       (Batches.marketplaceSummary acc)).

(** All order files of a request, against the tables of [st]. *)
Definition processOrderFiles (st : State) (files : option (list (list Row)))
  : Batches.t :=
  match files with
  | Some fs => fold_left (processOrderFile st) fs (Batches.mk [] JsMap.empty [] JsMap.empty)
  | None => Batches.mk [] JsMap.empty [] JsMap.empty
  end.

(** The first part of the route, once [req.files] is there: the master
    file is loaded when sent; without one and with an empty mapping table
    the request is answered 400, before the reset. *)
Definition masterDataGuard (files : Files.t) (st : State) : option State :=
  match Files.masterFile files with
  | Some data => Some (loadMasterData data st)
  | None => if (JsMap.size (skuToMsku st) =? 0)%nat then None else Some st
  end.

(** [app.post('/process-orders', ...)].  The first statement of the [try]
    block reads [req.files.masterFile]: with [req.files] undefined that is
    a TypeError, and the [catch] branch answers 500 with nothing done. *)
Definition process_orders (req : Request) (st : State) : Response * State :=
  match files req with
  | None => (Status500 "Failed to process files", st)
  | Some files =>
      match masterDataGuard files st with
      | None =>
          (Status400 "No master data available. Either upload masterFile or place master-skus.csv in data/ directory",
           st)
      | Some st1 =>
          let st2 := resetInventory st1 in
          let batches := processOrderFiles st2 (Files.orderFiles files) in
          let '(inventoryUpdates, st3) :=
            updateInventoryWithSales (Batches.combinedMsquMap batches) st2 in
          let summary :=
            Summary.mk
              (length (Batches.allProcessedOrders batches))
              (JsMap.size (Batches.combinedMsquMap batches))
              (sumQuantities (Batches.combinedMsquMap batches))
              (length (Batches.allUnmappedSkus batches))
              (length (filter (fun item => InventoryUpdate.isOutOfStock item = true)
                         inventoryUpdates))
              (Batches.marketplaceSummary batches) in
          (Status200 summary inventoryUpdates
             (take 100 (Batches.allProcessedOrders batches))
             (Batches.allUnmappedSkus batches),
           st3)
      end
  end.

(** [app.post('/reset-inventory', ...)]. *)
Definition reset_inventory (st : State) : State := resetInventory st.

(** One reconciliation pass, and a sequence of passes: the state left. *)
Definition reconcile (st : State) (msquQuantityMap : JsMap.t Z) : State :=
  snd (updateInventoryWithSales msquQuantityMap st).

Definition reconciliations (ms : list (JsMap.t Z)) (st : State) : State :=
  fold_left reconcile ms st.

(** What can happen to the state after start-up: requests to the two
    mutating routes, and reconciliation passes. *)
Inductive Op : Type :=
| ProcessOrders (req : Request)
| ResetInventory
| Reconcile (msquQuantityMap : JsMap.t Z).

Definition op (st : State) (o : Op) : State :=
  match o with
  | ProcessOrders req => snd (process_orders req st)
  | ResetInventory => reset_inventory st
  | Reconcile m => reconcile st m
  end.

Definition run (ops : list Op) (st : State) : State := fold_left op ops st.

(** [currentStock] of the ledger entry of a key. *)
Definition currentStockOf (st : State) (msku : string) : option JsNum :=
  InventoryItem.currentStock <$> ledger_get st msku.

(* ================================================================== *)
(** ** The read-only routes *)

(** [app.get('/mappings', ...)]: the count of all mappings and the first
    hundred of them. *)
Module MappingsResponse.
Record t : Type := mk {
  totalMappings : nat;
  mappings : list (string * string)
}.
End MappingsResponse.

Definition get_mappings (st : State) : MappingsResponse.t :=
  MappingsResponse.mk (length (skuToMsku st)) (take 100 (skuToMsku st)).

(** [app.get('/combos', ...)]: all combo definitions. *)
Module CombosResponse.
Record t : Type := mk {
  totalCombos : nat;
  combos : list (string * list Component.t)
}.
End CombosResponse.

Definition get_combos (st : State) : CombosResponse.t :=
  CombosResponse.mk (length (comboSkus st)) (comboSkus st).

(** [app.get('/inventory', ...)]: the count of all ledger items and the
    first hundred of them. *)
Module InventoryResponse.
Record t : Type := mk {
  totalItems : nat;
  inventory : list (string * option InventoryItem.t)
}.
End InventoryResponse.

Definition get_inventory (st : State) : InventoryResponse.t :=
  InventoryResponse.mk (length (ledger_view st)) (take 100 (ledger_view st)).

(** [app.get('/health', ...)]. *)
Module Health.
Record t : Type := mk {
  mappingsLoaded : nat;
  combosLoaded : nat;
  inventoryItems : nat
}.
End Health.

Definition get_health (st : State) : Health.t :=
  Health.mk (JsMap.size (skuToMsku st)) (JsMap.size (comboSkus st))
    (JsMap.size (currentInventory st)).

(** An element of the [changes] array of [/inventory-changes]. *)
Module Change.
Record t : Type := mk {
  msku : string;
  originalStock : JsNum;
  currentStock : JsNum;
  difference : JsNum;
  panel : string;
  status : string
}.
End Change.

(** The body of [currentInventory.forEach] in [/inventory-changes]: an
    item is reported when the backup has it and the two stocks are not
    [===]. *)
Definition inventoryChanges_entry (st : State) (changes : list Change.t)
  (entry : string * Ref) : list Change.t :=
  let '(msku, r) := entry in
  match heap st !! r with
  | Some currentData =>
      match snapshot_get st msku with
      | Some originalData =>
          if negb (Js.num_eq (InventoryItem.currentStock currentData)
                             (InventoryItem.currentStock originalData))
          then changes ++
                 [Change.mk msku
                    (InventoryItem.currentStock originalData)
                    (InventoryItem.currentStock currentData)
                    (Js.sub (InventoryItem.currentStock originalData)
                            (InventoryItem.currentStock currentData))
                    (InventoryItem.panel currentData)
                    (InventoryItem.status currentData)]
          else changes
      | None => changes
      end
  | None => changes
  end.

(** The [changes] array of [/inventory-changes] as the loop leaves it, in
    ledger order.  The route answers with its length as [totalChanges] and
    with the array sorted by [difference]; that last sort is not modelled. *)
Definition inventoryChanges (st : State) : list Change.t :=
  fold_left (inventoryChanges_entry st) (currentInventory st) [].

(* ================================================================== *)
(** ** The scenario of the specification *)

Module Scenario.

Definition masterRows : list Row := [ [("sku", VStr "A1"); ("msku", VStr "M1")] ].

Definition comboRows : list Row :=
  [ [("Combo", VStr "C1"); ("SKU1", VStr "M1"); ("SKU2", VStr "M2")] ].

Definition inventoryRows : list Row :=
  [ [("msku", VStr "M1"); ("Opening Stock", VNum (Num 10))];
    [("msku", VStr "M2"); ("Opening Stock", VNum (Num 5))] ].

Definition st0 : State :=
  loadMasterFilesOnStartup (Some masterRows) (Some comboRows) (Some inventoryRows).

Definition orderRow : Row :=
  [("sku", VStr "C1"); ("quantity", VNum (Num 2)); ("status", VStr "Delivered")].

Definition batch : BatchResult.t := processOrderData st0 [orderRow] "amazon".

Definition line (msku : string) : ProcessedOrder.t :=
  ProcessedOrder.mk "amazon" (VStr "C1") msku 2 (VStr "Delivered")
    VNull VNull VNull true.

End Scenario.

(* ================================================================== *)
(** ** Vocabulary of the properties *)

(** [p] occurs in [s]. *)
Definition contains (s p : string) : Prop :=
  exists pre post, s = pre +:+ p +:+ post.

(** White space at the start, at the end of a string. *)
Definition startsWithWs (s : string) : bool :=
  match s with
  | String a _ => is_ws a
  | EmptyString => false
  end.

Fixpoint endsWithWs (s : string) : bool :=
  match s with
  | EmptyString => false
  | String a EmptyString => is_ws a
  | String _ s' => endsWithWs s'
  end.

(** The text the status gate searches. *)
Definition statusText (status : JsVal) : string := toLowerCase (ToString status).

(** A stock figure below zero; [NaN] is not below anything. *)
Definition below0 (n : JsNum) : Prop :=
  match n with
  | Num z => z < 0
  | NaN => False
  end.

(** The stock left after a sale: [Math.max(0, stock - sold)]. *)
Definition afterSale (soldQuantity : Z) (stock : JsNum) : JsNum :=
  Js.max (Num 0) (Js.sub stock (Num soldQuantity)).

(** The item after the reconciler's write. *)
Definition sell (soldQuantity : Z) (i : InventoryItem.t) : InventoryItem.t :=
  InventoryItem.set_currentStock
    (afterSale soldQuantity (InventoryItem.currentStock i)) i.

(** The aggregated sold quantities of a request, against the tables of
    the state that passed the master-data guard. *)
Definition soldOf (st1 : State) (files : Files.t) : JsMap.t Z :=
  Batches.combinedMsquMap
    (processOrderFiles (resetInventory st1) (Files.orderFiles files)).

(** The heap discipline of the two inventory maps: every reference is
    allocated, no object is shared between two ledger entries or between
    the ledger and the backup, and both maps have the same keys in the same
    order. *)
Record wf (st : State) : Prop := mk_wf {
  wf_cur_alloc : forall k r,
    JsMap.get k (currentInventory st) = Some r -> (r < length (heap st))%nat;
  wf_orig_alloc : forall k r,
    JsMap.get k (originalInventory st) = Some r -> (r < length (heap st))%nat;
  wf_cur_inj : forall k k' r,
    JsMap.get k (currentInventory st) = Some r ->
    JsMap.get k' (currentInventory st) = Some r -> k = k';
  wf_sep : forall k k' r,
    JsMap.get k (currentInventory st) = Some r ->
    JsMap.get k' (originalInventory st) = Some r -> False;
  wf_keys : JsMap.keys (currentInventory st) = JsMap.keys (originalInventory st);
  wf_orig_nodup : NoDup (JsMap.keys (originalInventory st))
}.

(** The ledger and the backup hold the same values, as after a load. *)
Definition pristine (st : State) : Prop :=
  forall k, snapshot_get st k = ledger_get st k.

(** The ledger entry of [k] after the quantities of a map were sold, in
    the order of the map. *)
Definition soldFrom (k : string) (m : JsMap.t Z) (o : option InventoryItem.t)
  : option InventoryItem.t :=
  fold_left
    (fun o '(msku, soldQuantity) =>
       if bool_decide (k = msku) then sell soldQuantity <$> o else o)
    m o.

(** How far a request gets: the files and the state that passed the
    master-data guard, or nothing when the request is answered 500 or 400. *)
Definition passesGuard (req : Request) (st : State) : option (Files.t * State) :=
  match files req with
  | Some files =>
      match masterDataGuard files st with
      | Some st1 => Some (files, st1)
      | None => None
      end
  | None => None
  end.

(** The aggregated sold quantities of any request: none when the request
    is answered 500 or 400. *)
Definition requestSold (st : State) (req : Request) : JsMap.t Z :=
  match passesGuard req st with
  | Some (files, st1) => soldOf st1 files
  | None => JsMap.empty
  end.

(** Non-negativity as the specification states it: after a pass, over
    any sold-quantity map and any ledger state the program can be in, no
    item of the ledger is below zero. *)
Definition non_negative_after_every_pass : Prop :=
  forall (masterSkuFile comboFile inventoryFile : option (list Row))
         (ops : list Op) (m : JsMap.t Z) (k : string) (item : InventoryItem.t),
    let st := run ops (loadMasterFilesOnStartup masterSkuFile comboFile inventoryFile) in
    ledger_get (reconcile st m) k = Some item ->
    ~ below0 (InventoryItem.currentStock item).

(** The per-request reset as stated: after every request, the stock of
    each item is the load-time stock less what that request sold. *)
Definition every_request_resets : Prop :=
  forall (masterSkuFile comboFile inventoryFile : option (list Row))
         (ops : list Op) (req : Request) (k : string),
    let st0 := loadMasterFilesOnStartup masterSkuFile comboFile inventoryFile in
    let st := run ops st0 in
    currentStockOf (snd (process_orders req st)) k =
      match JsMap.get k (requestSold st req) with
      | Some sold => afterSale sold <$> currentStockOf st0 k
      | None => currentStockOf st0 k
      end.

(** The order of the returned updates: sold quantities never increase. *)
Definition soldDescending (a b : InventoryUpdate.t) : Prop :=
  InventoryUpdate.soldQuantity b <= InventoryUpdate.soldQuantity a.

(** The first row has a column whose lower-cased name contains [p]. *)
Definition hasColumn (row : Row) (p : string) : Prop :=
  exists k v, In (k, v) row /\ contains (toLowerCase k) p.

(** An update agrees with a state: the ledger holds the reported new
    stock, or has no entry when the update is flagged as not found. *)
Definition agrees (st : State) (u : InventoryUpdate.t) : Prop :=
  if InventoryUpdate.notInInventory u
  then JsMap.get (InventoryUpdate.msku u) (currentInventory st) = None
  else currentStockOf st (InventoryUpdate.msku u) = Some (InventoryUpdate.newStock u).

(** All order lines of a request, before the response keeps the first
    hundred. *)
Definition requestLines (st : State) (req : Request) : list ProcessedOrder.t :=
  match passesGuard req st with
  | Some (files, st1) =>
      Batches.allProcessedOrders
        (processOrderFiles (resetInventory st1) (Files.orderFiles files))
  | None => []
  end.

(** The updates a response carries. *)
Definition responseUpdates (r : Response) : list InventoryUpdate.t :=
  match r with
  | Status200 _ inventoryUpdates _ _ => inventoryUpdates
  | Status400 _ | Status500 _ => []
  end.

(** The change [/inventory-changes] reports for a key, if any. *)
Definition changeOf (st : State) (msku : string) : option Change.t :=
  match ledger_get st msku, snapshot_get st msku with
  | Some currentData, Some originalData =>
      if negb (Js.num_eq (InventoryItem.currentStock currentData)
                         (InventoryItem.currentStock originalData))
      then Some (Change.mk msku
                   (InventoryItem.currentStock originalData)
                   (InventoryItem.currentStock currentData)
                   (Js.sub (InventoryItem.currentStock originalData)
                           (InventoryItem.currentStock currentData))
                   (InventoryItem.panel currentData)
                   (InventoryItem.status currentData))
      else None
  | _, _ => None
  end.

(** What the loader guarantees of the item it stores under a key. *)
Definition loadedItem (k : string) (item : InventoryItem.t) : Prop :=
  InventoryItem.msku item = k /\
  InventoryItem.originalStock item = InventoryItem.currentStock item /\
  (InventoryItem.status item = "In Stock" \/ InventoryItem.status item = "Out of Stock") /\
  (InventoryItem.status item = "In Stock" <->
   Js.gt (InventoryItem.currentStock item) (Num 0) = true) /\
  InventoryItem.currentStock item =
    (if Js.num_eq (InventoryItem.openingStock item) (Num 0)
        && Js.gt (InventoryItem.warehouseStock item) (Num 0)
     then InventoryItem.warehouseStock item
     else InventoryItem.openingStock item) /\
  (exists w, InventoryItem.warehouseStock item = Num w /\ 0 <= w).

(** A row whose sku and msku cells are both text without white space at
    either end, or which lacks one of the two. *)
Definition tidyRow (row : Row) : Prop :=
  findColumnValue row ["sku"; "SKU"; "Sku"] = VNull \/
  findColumnValue row ["msku"; "MSKU"; "Msku"] = VNull \/
  exists s1 s2,
    findColumnValue row ["sku"; "SKU"; "Sku"] = VStr s1 /\
    findColumnValue row ["msku"; "MSKU"; "Msku"] = VStr s2 /\
    trim s1 = s1 /\ trim s2 = s2.

(** Only [currentStock] separates a ledger item from its backup. *)
Definition onlyStockDiffers (st : State) : Prop :=
  forall k item, ledger_get st k = Some item ->
    exists original,
      snapshot_get st k = Some original /\
      item = InventoryItem.set_currentStock (InventoryItem.currentStock item) original.

(** The integer that a run of decimal digits spells, and the same with the
    digits read onto an integer already read. *)
Definition digitsValue (d : Decimal.uint) : Z := Z.of_N (Pos.of_uint d).

Fixpoint digitsOnto (acc : Z) (d : Decimal.uint) : Z :=
  match d with
  | Decimal.Nil => acc
  | Decimal.D0 d' => digitsOnto (acc * 10 + 0) d'
  | Decimal.D1 d' => digitsOnto (acc * 10 + 1) d'
  | Decimal.D2 d' => digitsOnto (acc * 10 + 2) d'
  | Decimal.D3 d' => digitsOnto (acc * 10 + 3) d'
  | Decimal.D4 d' => digitsOnto (acc * 10 + 4) d'
  | Decimal.D5 d' => digitsOnto (acc * 10 + 5) d'
  | Decimal.D6 d' => digitsOnto (acc * 10 + 6) d'
  | Decimal.D7 d' => digitsOnto (acc * 10 + 7) d'
  | Decimal.D8 d' => digitsOnto (acc * 10 + 8) d'
  | Decimal.D9 d' => digitsOnto (acc * 10 + 9) d'
  end.

(** The integer before the decimal point in the text of a number with a
    fraction or an exponent: for a number that [toString] writes out ([n]
    from -5 to 21) the integer part of its magnitude [s * 10^(n - k)], for a
    number printed with an exponent its first digit; with the sign. *)
Definition integerRead (d : JsDec.t) : Z :=
  let s := digitsValue (JsDec.digits d) in
  let k := Z.of_nat (Decimal.nb_digits (JsDec.digits d)) in
  let n := JsDec.n d in
  let magnitude :=
    if (-6 <? n) && (n <=? 21)
    then (if k <=? n then s * 10 ^ (n - k) else s / 10 ^ (k - n))
    else s / 10 ^ (k - 1) in
  if JsDec.negative d then - magnitude else magnitude.

(** What may follow the digits that [parseInt] reads in the text of a
    number: nothing, the decimal point, the exponent mark or zeros. *)
Definition tail_ok (tail : string) : Prop :=
  match tail with
  | EmptyString => True
  | String c _ => c = "."%char \/ c = "e"%char \/ c = "0"%char
  end.

(** What the inventory loader reads from one warehouse column of a row:
    [parseInt(findColumnValue(row, [col]) || 0)]. *)
Definition warehouseCell (row : Row) (col : string) : JsNum :=
  parseInt (Js.or (findColumnValue row [col]) (VNum (Num 0))).

(** What a reading adds to a total that counts positive readings only. *)
Definition positivePart (n : JsNum) : Z :=
  match n with
  | Num z => Z.max 0 z
  | NaN => 0
  end.

(** A cell the column resolver accepts. *)
Definition usable (v : JsVal) : bool :=
  negb (strict_eq v VUndefined) && negb (strict_eq v VNull)
  && negb (strict_eq v (VStr "")).

(** The quantity a map holds for a key, 0 when it has none. *)
Definition quantityFor (k : string) (m : JsMap.t Z) : Z :=
  match JsMap.get k m with
  | Some q => q
  | None => 0
  end.

(** Sum of a list of quantities. *)
Definition total (l : list Z) : Z := fold_right Z.add 0 l.

(** The quantities of the order lines that went to one MSKU. *)
Definition lineQuantitiesFor (k : string) (lines : list ProcessedOrder.t) : list Z :=
  map ProcessedOrder.quantity
    (filter (fun l => ProcessedOrder.mappedMsku l = k) lines).

(** A combo definition as the combo loader stores it. *)
Definition comboOk (components : list Component.t) : Prop :=
  components <> [] /\ (length components <= 14)%nat /\
  Forall (fun c => Component.quantity c = 1 /\ Component.msku c <> "") components.

(** A row that the batch processor turns into order lines. *)
Definition rowCounts (marketplace : string) (order : Row) : bool :=
  let info := extractOrderInfo order marketplace in
  shouldProcessOrder (OrderInfo.status info) marketplace
  && truthy (OrderInfo.sku info)
  && Js.gt (OrderInfo.quantity info) (Num 0).

(* ================================================================== *)
(** * Properties *)

(** ** Strings *)

Lemma startsWith_spec (p s : string) :
  startsWith s p = true <-> exists post, s = p +:+ post.
Proof.
  revert s. induction p as [|b p IH]; intros s; simpl.
  - split; [intros _; by exists s | done].
  - destruct s as [|a s]; simpl.
    + split; [done | intros [post H]; discriminate H].
    + rewrite andb_true_iff, IH. split.
      * intros [Hab [post ->]]. apply Ascii.eqb_eq in Hab as ->. by exists post.
      * intros [post H]. injection H as -> ->. split; [apply Ascii.eqb_refl | by exists post].
Qed.

Lemma includes_spec (s p : string) : includes s p = true <-> contains s p.
Proof.
  unfold contains. induction s as [|a s IH].
  - simpl. rewrite orb_false_r, startsWith_spec. split.
    + intros [post H]. by exists "", post.
    + intros [pre [post H]]. destruct pre; [by exists post | discriminate H].
  - cbn [includes]. rewrite orb_true_iff, startsWith_spec, IH. split.
    + intros [[post H] | [pre [post H]]].
      * by exists "", post.
      * exists (String a pre), post. simpl. by rewrite H.
    + intros [pre [post H]]. destruct pre as [|b pre].
      * left. by exists post.
      * right. simpl in H. injection H as -> ->. by exists pre, post.
Qed.

Lemma existsb_includes (s : string) (l : list string) :
  existsb (fun p => includes s p) l = true <-> exists p, In p l /\ contains s p.
Proof.
  rewrite existsb_exists. by setoid_rewrite includes_spec.
Qed.

(** ** [parseInt] reads back the decimal form of an integer *)

Ltac eval_digit :=
  match goal with
  | |- context [digit_of 10 ?c] =>
      let v := eval vm_compute in (digit_of 10 c) in
      change (digit_of 10 c) with v; cbv iota beta
  end.

Lemma parse_digits_uint_pos (d : Decimal.uint) (acc : positive) :
  parse_digits 10 (NilEmpty.string_of_uint d) (Some (Z.pos acc)) =
  Some (Z.pos (Pos.of_uint_acc d acc)).
Proof.
  revert acc. induction d as [|d IH|d IH|d IH|d IH|d IH|d IH|d IH|d IH|d IH|d IH];
    intros acc; [done | ..];
    cbn [NilEmpty.string_of_uint parse_digits Pos.of_uint_acc]; eval_digit;
    rewrite <- IH; do 2 f_equal; lia.
Qed.

Lemma parse_digits_uint_zero (d : Decimal.uint) :
  parse_digits 10 (NilEmpty.string_of_uint d) (Some 0) = Some (Z.of_N (Pos.of_uint d)).
Proof.
  induction d as [|d IH|d IH|d IH|d IH|d IH|d IH|d IH|d IH|d IH|d IH];
    [done | ..];
    cbn [NilEmpty.string_of_uint parse_digits Pos.of_uint]; eval_digit;
    [exact IH | apply parse_digits_uint_pos ..].
Qed.

Lemma parse_digits_uint (d : Decimal.uint) :
  d <> Decimal.Nil ->
  parse_digits 10 (NilEmpty.string_of_uint d) None = Some (Z.of_N (Pos.of_uint d)).
Proof.
  destruct d; [done | intros _ ..];
    cbn [NilEmpty.string_of_uint parse_digits Pos.of_uint]; eval_digit;
    [apply parse_digits_uint_zero | apply parse_digits_uint_pos ..].
Qed.

Lemma parseInt_str_uint (d : Decimal.uint) :
  d <> Decimal.Nil ->
  parseInt_str (NilEmpty.string_of_uint d) = Num (Z.of_N (Pos.of_uint d)) /\
  parseInt_str (String "-" (NilEmpty.string_of_uint d)) = Num (- Z.of_N (Pos.of_uint d)).
Proof.
  intros Hd. pose proof (parse_digits_uint d Hd) as Hp.
  assert (H : parseInt_str (NilEmpty.string_of_uint d) =
              match parse_digits 10 (NilEmpty.string_of_uint d) None with
              | Some v => Num (1 * v) | None => NaN end /\
              parseInt_str (String "-" (NilEmpty.string_of_uint d)) =
              match parse_digits 10 (NilEmpty.string_of_uint d) None with
              | Some v => Num (-1 * v) | None => NaN end).
  { destruct d as [|d|d|d|d|d|d|d|d|d|d]; [done | | split; reflexivity ..].
    destruct d; split; reflexivity. }
  destruct H as [-> ->]. rewrite Hp. split; f_equal; lia.
Qed.

(** [parseInt] of an integer number is that integer. *)
Lemma parseInt_integer (z : Z) : parseInt (VNum (Num z)) = Num z.
Proof.
  unfold parseInt, ToString, string_of_Z. destruct z as [|p|p]; [reflexivity | |].
  - cbn [Z.to_int NilZero.string_of_int].
    pose proof (Unsigned.to_uint_nonnil p) as Hn.
    replace (NilZero.string_of_uint (Pos.to_uint p))
      with (NilEmpty.string_of_uint (Pos.to_uint p)) by (by destruct (Pos.to_uint p)).
    destruct (parseInt_str_uint _ Hn) as [-> _]. by rewrite Unsigned.of_to.
  - cbn [Z.to_int NilZero.string_of_int].
    pose proof (Unsigned.to_uint_nonnil p) as Hn.
    replace (NilZero.string_of_uint (Pos.to_uint p))
      with (NilEmpty.string_of_uint (Pos.to_uint p)) by (by destruct (Pos.to_uint p)).
    destruct (parseInt_str_uint _ Hn) as [_ ->]. by rewrite Unsigned.of_to.
Qed.

(** ** [parseInt] of a number with a fraction or an exponent *)

Lemma append_cons (c : ascii) (s t : string) : String c s +:+ t = String c (s +:+ t).
Proof. reflexivity. Qed.

Lemma append_empty_l (t : string) : "" +:+ t = t.
Proof. reflexivity. Qed.

Lemma append_empty_r (s : string) : s +:+ "" = s.
Proof. induction s as [|x s IH]; [done |]. by rewrite append_cons, IH. Qed.

Lemma parse_digits_text (d : Decimal.uint) (tail : string) (a : Z) :
  parse_digits 10 (NilEmpty.string_of_uint d +:+ tail) (Some a) =
  parse_digits 10 tail (Some (digitsOnto a d)).
Proof.
  revert a. induction d as [|d IH|d IH|d IH|d IH|d IH|d IH|d IH|d IH|d IH|d IH];
    intros a; [done | ..];
    cbn [NilEmpty.string_of_uint digitsOnto]; rewrite append_cons;
    cbn [parse_digits]; eval_digit; apply IH.
Qed.

Lemma parse_digits_text_first (d : Decimal.uint) (tail : string) :
  d <> Decimal.Nil ->
  parse_digits 10 (NilEmpty.string_of_uint d +:+ tail) None =
  parse_digits 10 tail (Some (digitsOnto 0 d)).
Proof.
  destruct d; [done | intros _ ..];
    cbn [NilEmpty.string_of_uint digitsOnto]; rewrite append_cons;
    cbn [parse_digits]; eval_digit; apply parse_digits_text.
Qed.

Lemma parse_digits_zeros (m : nat) (tail : string) (a : Z) :
  parse_digits 10 (zeros m +:+ tail) (Some a) =
  parse_digits 10 tail (Some (a * 10 ^ Z.of_nat m)).
Proof.
  revert a. induction m as [|m IH]; intros a.
  - cbn [zeros]. rewrite append_empty_l. do 2 f_equal. simpl. lia.
  - cbn [zeros]. rewrite append_cons. cbn [parse_digits]. eval_digit. rewrite IH.
    do 2 f_equal.
    rewrite Nat2Z.inj_succ, Z.pow_succ_r by lia. lia.
Qed.

Lemma digitsOnto_split (d : Decimal.uint) (a : Z) :
  digitsOnto a d = a * 10 ^ Z.of_nat (Decimal.nb_digits d) + digitsOnto 0 d /\
  0 <= digitsOnto 0 d < 10 ^ Z.of_nat (Decimal.nb_digits d).
Proof.
  revert a. induction d as [|d IH|d IH|d IH|d IH|d IH|d IH|d IH|d IH|d IH|d IH];
    intros a; [simpl; lia | ..];
    cbn [digitsOnto Decimal.nb_digits];
    rewrite Nat2Z.inj_succ, Z.pow_succ_r by lia;
    destruct (IH (a * 10 + 0)) as [E0 B]; destruct (IH (a * 10 + 1)) as [E1 _];
    destruct (IH (a * 10 + 2)) as [E2 _]; destruct (IH (a * 10 + 3)) as [E3 _];
    destruct (IH (a * 10 + 4)) as [E4 _]; destruct (IH (a * 10 + 5)) as [E5 _];
    destruct (IH (a * 10 + 6)) as [E6 _]; destruct (IH (a * 10 + 7)) as [E7 _];
    destruct (IH (a * 10 + 8)) as [E8 _]; destruct (IH (a * 10 + 9)) as [E9 _];
    destruct (IH (0 * 10 + 0)) as [F0 _]; destruct (IH (0 * 10 + 1)) as [F1 _];
    destruct (IH (0 * 10 + 2)) as [F2 _]; destruct (IH (0 * 10 + 3)) as [F3 _];
    destruct (IH (0 * 10 + 4)) as [F4 _]; destruct (IH (0 * 10 + 5)) as [F5 _];
    destruct (IH (0 * 10 + 6)) as [F6 _]; destruct (IH (0 * 10 + 7)) as [F7 _];
    destruct (IH (0 * 10 + 8)) as [F8 _]; destruct (IH (0 * 10 + 9)) as [F9 _];
    nia.
Qed.

Lemma digitsOnto_take_drop (m : nat) (d : Decimal.uint) (a : Z) :
  digitsOnto a d = digitsOnto (digitsOnto a (uint_take m d)) (uint_drop m d).
Proof.
  revert d a. induction m as [|m IH]; intros d a; [done |].
  destruct d; [done | ..]; cbn [uint_take uint_drop digitsOnto]; apply IH.
Qed.

Lemma nb_digits_drop (m : nat) (d : Decimal.uint) :
  Decimal.nb_digits (uint_drop m d) = (Decimal.nb_digits d - m)%nat.
Proof.
  revert d. induction m as [|m IH]; intros d; [simpl; lia |].
  destruct d; [done | ..]; cbn [uint_drop Decimal.nb_digits]; apply IH.
Qed.

Lemma uint_take_nonnil (m : nat) (d : Decimal.uint) :
  d <> Decimal.Nil -> (0 < m)%nat -> uint_take m d <> Decimal.Nil.
Proof. destruct m; [lia |]. by destruct d. Qed.

Lemma digitsValue_onto (d : Decimal.uint) : digitsValue d = digitsOnto 0 d.
Proof.
  pose proof (parse_digits_uint_zero d) as H1.
  pose proof (parse_digits_text d "" 0) as H2.
  rewrite append_empty_r in H2. cbn [parse_digits] in H2. rewrite H1 in H2. by injection H2.
Qed.

(** The value of the first [m] digits is the value of all digits divided by
    the power of ten of the digits left out. *)
Lemma digitsOnto_take (m : nat) (d : Decimal.uint) :
  (m <= Decimal.nb_digits d)%nat ->
  digitsOnto 0 (uint_take m d) =
  digitsOnto 0 d / 10 ^ (Z.of_nat (Decimal.nb_digits d) - Z.of_nat m).
Proof.
  intros Hm.
  replace (digitsOnto 0 d)
    with (digitsOnto (digitsOnto 0 (uint_take m d)) (uint_drop m d))
    by (symmetry; apply digitsOnto_take_drop).
  destruct (digitsOnto_split (uint_drop m d) (digitsOnto 0 (uint_take m d))) as [-> B].
  rewrite nb_digits_drop in *.
  replace (Z.of_nat (Decimal.nb_digits d - m))
    with (Z.of_nat (Decimal.nb_digits d) - Z.of_nat m) in * by lia.
  set (p := 10 ^ (Z.of_nat (Decimal.nb_digits d) - Z.of_nat m)) in *.
  assert (0 < p) by (apply Z.pow_pos_nonneg; lia).
  rewrite Z.div_add_l by lia. rewrite Z.div_small by lia. lia.
Qed.

Lemma parseInt_str_digits (neg : bool) (d : Decimal.uint) (tail : string) :
  d <> Decimal.Nil -> tail_ok tail ->
  parseInt_str ((if neg then "-" else "") +:+ (NilEmpty.string_of_uint d +:+ tail)) =
  match parse_digits 10 tail (Some (digitsOnto 0 d)) with
  | Some v => Num (if neg then - v else v)
  | None => NaN
  end.
Proof.
  intros Hd Ht. rewrite <- (parse_digits_text_first d tail Hd).
  set (body := NilEmpty.string_of_uint d +:+ tail).
  assert (H : parseInt_str ((if neg then "-" else "") +:+ body) =
              match parse_digits 10 body None with
              | Some v => Num ((if neg then -1 else 1) * v)
              | None => NaN
              end).
  { subst body. destruct neg.
    - destruct d as [|d|d|d|d|d|d|d|d|d|d]; [done | | reflexivity ..].
      destruct d; [| reflexivity ..].
      destruct tail as [|c r]; [reflexivity |].
      destruct Ht as [-> | [-> | ->]]; reflexivity.
    - destruct d as [|d|d|d|d|d|d|d|d|d|d]; [done | | reflexivity ..].
      destruct d; [| reflexivity ..].
      destruct tail as [|c r]; [reflexivity |].
      destruct Ht as [-> | [-> | ->]]; reflexivity. }
  rewrite H. destruct (parse_digits 10 body None); [| done].
  destruct neg; f_equal; lia.
Qed.

Lemma parse_digits_stop (c : ascii) (r : string) (acc : option Z) :
  digit_of 10 c = None -> parse_digits 10 (String c r) acc = acc.
Proof. intros H. cbn [parse_digits]. by rewrite H. Qed.

(** [parseInt] of a number with a fraction or an exponent reads the digits
    before the decimal point of its text. *)
Lemma parseInt_decimal (d : JsDec.t) :
  JsDec.digits d <> Decimal.Nil -> parseInt (VDec d) = Num (integerRead d).
Proof.
  destruct d as [neg ds n]. cbn [JsDec.digits]. intros Hd.
  unfold parseInt, ToString, integerRead, text_of_digits.
  cbn [JsDec.negative JsDec.digits JsDec.n].
  rewrite digitsValue_onto.
  set (k := Z.of_nat (Decimal.nb_digits ds)).
  assert (Hk : 1 <= k) by (subst k; destruct ds; [done | cbn [Decimal.nb_digits]; lia ..]).
  destruct ((-6 <? n) && (n <=? 21)) eqn:Hplain.
  - destruct (Z.leb_spec k n) as [Hkn | Hkn].
    + rewrite parseInt_str_digits; [| done |].
      * rewrite <- (append_empty_r (zeros _)), parse_digits_zeros.
        cbn [parse_digits]. rewrite Z2Nat.id by lia. done.
      * destruct (Z.to_nat (n - k)); simpl; auto.
    + destruct (Z.ltb_spec 0 n) as [Hn | Hn].
      * rewrite parseInt_str_digits; [| apply uint_take_nonnil; [done | lia] | simpl; auto].
        rewrite append_cons, parse_digits_stop by reflexivity.
        rewrite digitsOnto_take by (subst k; lia).
        fold k. rewrite Z2Nat.id by lia. done.
      * replace (digitsOnto 0 ds / 10 ^ (k - n)) with 0.
        { by destruct neg. }
        symmetry. apply Z.div_small.
        destruct (digitsOnto_split ds 0) as [_ B]. fold k in B.
        split; [lia |]. eapply Z.lt_le_trans; [apply B |].
        apply Z.pow_le_mono_r; lia.
  - rewrite parseInt_str_digits; [| apply uint_take_nonnil; [done | lia] |].
    + assert (Hstop : forall tail,
                parse_digits 10
                  ((if k =? 1 then "" else "." +:+ NilEmpty.string_of_uint (uint_drop 1 ds))
                     +:+ "e" +:+ tail)
                  (Some (digitsOnto 0 (uint_take 1 ds))) =
                Some (digitsOnto 0 (uint_take 1 ds))).
      { intros tail. destruct (k =? 1); reflexivity. }
      rewrite Hstop. rewrite digitsOnto_take by (subst k; lia). fold k. done.
    + destruct (k =? 1); simpl; auto.
Qed.

(** ** [Map] objects *)

Section JsMapFacts.
Context {V : Type}.
Implicit Types (m : JsMap.t V) (k : string) (v : V).

Lemma get_set_eq m k v : JsMap.get k (JsMap.set k v m) = Some v.
Proof.
  induction m as [|[k0 v0] m IH]; simpl.
  - by rewrite String.eqb_refl.
  - destruct (String.eqb_spec k0 k) as [-> | Hne]; simpl.
    + by rewrite String.eqb_refl.
    + by destruct (String.eqb_spec k0 k).
Qed.

Lemma get_set_ne m k k' v :
  k <> k' -> JsMap.get k' (JsMap.set k v m) = JsMap.get k' m.
Proof.
  intros Hne. induction m as [|[k0 v0] m IH]; simpl.
  - by destruct (String.eqb_spec k k').
  - destruct (String.eqb_spec k0 k) as [-> | Hne0]; simpl.
    + by destruct (String.eqb_spec k k').
    + by rewrite IH.
Qed.

Lemma get_set m k k' v :
  JsMap.get k' (JsMap.set k v m) = if bool_decide (k' = k) then Some v else JsMap.get k' m.
Proof.
  case_bool_decide as Hk.
  - subst. apply get_set_eq.
  - by apply get_set_ne.
Qed.

Lemma has_set m k k' v :
  JsMap.has k' (JsMap.set k v m) = bool_decide (k' = k) || JsMap.has k' m.
Proof. unfold JsMap.has. rewrite get_set. by case_bool_decide. Qed.

(** Writing back the value a key already has changes nothing. *)
Lemma set_get_id m k v : JsMap.get k m = Some v -> JsMap.set k v m = m.
Proof.
  induction m as [|[k0 v0] m IH]; simpl; [done |].
  destruct (String.eqb_spec k0 k) as [-> | Hne].
  - by intros [= ->].
  - intros H. by rewrite IH.
Qed.

Lemma get_None_keys m k : JsMap.get k m = None <-> k ∉ JsMap.keys m.
Proof.
  induction m as [|[k0 v0] m IH]; simpl.
  - split; [intros _; apply not_elem_of_nil | done].
  - rewrite not_elem_of_cons. destruct (String.eqb_spec k0 k) as [-> | Hne].
    + split; [done | by intros [? _]].
    + rewrite IH. split; [intros H; split; [congruence | done] | by intros [_ ?]].
Qed.

Lemma get_Some_elem m k v : JsMap.get k m = Some v -> (k, v) ∈ m.
Proof.
  induction m as [|[k0 v0] m IH]; simpl; [done |].
  destruct (String.eqb_spec k0 k) as [-> | Hne].
  - intros [= ->]. apply list_elem_of_here.
  - intros H. apply list_elem_of_further. auto.
Qed.

Lemma elem_get m k v : NoDup (JsMap.keys m) -> (k, v) ∈ m -> JsMap.get k m = Some v.
Proof.
  induction m as [|[k0 v0] m IH]; simpl; intros Hnd Hin.
  - by apply elem_of_nil in Hin.
  - apply NoDup_cons in Hnd as [Hk0 Hnd].
    apply elem_of_cons in Hin as [[= -> ->] | Hin].
    + by rewrite String.eqb_refl.
    + destruct (String.eqb_spec k0 k) as [-> | Hne]; [| by apply IH].
      exfalso. apply Hk0. apply list_elem_of_fmap. by exists (k, v).
Qed.

Lemma keys_set m k v :
  JsMap.keys (JsMap.set k v m) =
    if JsMap.has k m then JsMap.keys m else JsMap.keys m ++ [k].
Proof.
  unfold JsMap.has. induction m as [|[k0 v0] m IH]; simpl; [done |].
  destruct (String.eqb_spec k0 k) as [-> | Hne]; simpl; [done |].
  rewrite IH. by destruct (JsMap.get k m).
Qed.

Lemma NoDup_keys_set m k v : NoDup (JsMap.keys m) -> NoDup (JsMap.keys (JsMap.set k v m)).
Proof.
  intros Hnd. rewrite keys_set. unfold JsMap.has.
  destruct (JsMap.get k m) eqn:Hg; [done |].
  apply NoDup_app. split; [done |]. split; [| apply NoDup_singleton].
  intros x Hx ->%list_elem_of_singleton. by apply get_None_keys in Hg.
Qed.

Lemma has_true_keys m k : JsMap.has k m = true <-> k ∈ JsMap.keys m.
Proof.
  unfold JsMap.has. destruct (JsMap.get k m) eqn:Hg.
  - split; [intros _ | done]. destruct (decide (k ∈ JsMap.keys m)) as [|Hn]; [done |].
    apply get_None_keys in Hn. congruence.
  - split; [done |]. intros Hin. by apply get_None_keys in Hg.
Qed.
End JsMapFacts.

(** ** The column resolver *)

(** The resolver never returns the empty string: it returns [null] or a
    cell that passed its three tests. *)
Lemma findColumnValue_not_empty (row : Row) (names : list string) :
  findColumnValue row names <> VStr "".
Proof.
  induction names as [|name names IH]; simpl; [done |].
  destruct (negb (strict_eq (row_get row name) VUndefined)
            && negb (strict_eq (row_get row name) VNull)
            && negb (strict_eq (row_get row name) (VStr ""))) eqn:Hc; [| done].
  apply andb_true_iff in Hc as [_ Hc]. intros Heq. rewrite Heq in Hc. done.
Qed.

Lemma findColumnValue_string_truthy (row : Row) (names : list string) (s : string) :
  findColumnValue row names = VStr s -> truthy (VStr s) = true.
Proof.
  intros H. simpl. apply negb_true_iff, String.eqb_neq. intros ->.
  by apply (findColumnValue_not_empty row names).
Qed.

(** A text cell is parsed as it stands: the default of [cell || d] is
    not used. *)
Lemma parseInt_or_string (row : Row) (names : list string) (s : string) (d : JsVal) :
  findColumnValue row names = VStr s ->
  parseInt (Js.or (findColumnValue row names) d) = parseInt_str s.
Proof.
  intros H. pose proof (findColumnValue_string_truthy _ _ _ H) as Ht.
  rewrite H. unfold Js.or. by rewrite Ht.
Qed.

(** An integer cell reads as itself under [parseInt(cell || 0)]. *)
Lemma parseInt_or_integer (n : Z) :
  parseInt (Js.or (VNum (Num n)) (VNum (Num 0))) = Num n.
Proof.
  unfold Js.or. simpl. destruct (Z.eqb_spec n 0) as [-> | Hne]; simpl; [done |].
  apply parseInt_integer.
Qed.

(** ** The status gate *)

Lemma falsy_statusText (status : JsVal) :
  truthy status = false ->
  existsb (fun p => includes (statusText status) p) validStatuses = false.
Proof.
  destruct status as [| |[]|[|z]|s|d]; simpl; try done.
  - rewrite negb_false_iff, Z.eqb_eq. by intros ->.
  - rewrite negb_false_iff, String.eqb_eq. by intros ->.
Qed.

Lemma shouldProcessOrder_eq (status : JsVal) (marketplace : string) :
  shouldProcessOrder status marketplace =
  existsb (fun p => includes (statusText status) p) validStatuses
  && negb (existsb (fun p => includes (statusText status) p) invalidStatuses).
Proof.
  unfold shouldProcessOrder. destruct (truthy status) eqn:Ht.
  - reflexivity.
  - rewrite (falsy_statusText _ Ht). reflexivity.
Qed.

(** C5. The status gate answers false for an absent status; for every
    status it answers true exactly when the lower-cased status text contains
    a keyword of the positive set and no keyword of the negative set; so a
    negative keyword always vetoes, as in "cancelled - delivered". *)
Theorem shouldProcessOrder_gate (status : JsVal) (marketplace : string) :
  shouldProcessOrder VNull marketplace = false /\
  shouldProcessOrder VUndefined marketplace = false /\
  (shouldProcessOrder status marketplace = true <->
     (exists p, In p validStatuses /\ contains (statusText status) p) /\
     (forall n, In n invalidStatuses -> ~ contains (statusText status) n)) /\
  ((exists n, In n invalidStatuses /\ contains (statusText status) n) ->
     shouldProcessOrder status marketplace = false) /\
  shouldProcessOrder (VStr "cancelled - delivered") marketplace = false.
Proof.
  split; [done |]. split; [done |].
  assert (Hiff : shouldProcessOrder status marketplace = true <->
     (exists p, In p validStatuses /\ contains (statusText status) p) /\
     (forall n, In n invalidStatuses -> ~ contains (statusText status) n)).
  { rewrite shouldProcessOrder_eq, andb_true_iff, negb_true_iff.
    rewrite existsb_includes, <- not_true_iff_false, existsb_includes.
    split; intros [Hp Hn]; (split; [done |]).
    - intros n Hin Hc. apply Hn. by exists n.
    - intros [n [Hin Hc]]. by apply (Hn n). }
  split; [exact Hiff |]. split; [| done].
  intros [n [Hin Hc]]. apply not_true_iff_false. intros Ht.
  apply Hiff in Ht as [_ Hn]. by apply (Hn n).
Qed.

(** ** The SKU normaliser *)

(** C4, as the specification states it, fails: for [meesho] the result is
    the trimmed SKU, so a SKU with a leading blank does not come back
    unchanged. *)
Lemma mapSkuToMsku_meesho_not_identity :
  mapSkuToMsku masterData0 (VStr " M1") "meesho" = "M1" /\
  ~ (forall (st : State) (sku : JsVal), VStr (mapSkuToMsku st sku "meesho") = sku).
Proof.
  split; [reflexivity |].
  intros H. specialize (H masterData0 (VStr " M1")). discriminate H.
Qed.

Lemma trimStart_length (s : string) : (String.length (trimStart s) <= String.length s)%nat.
Proof.
  induction s as [|a s IH]; simpl; [done |]. destruct (is_ws a); simpl; lia.
Qed.

Lemma trimEnd_length (s : string) : (String.length (trimEnd s) <= String.length s)%nat.
Proof.
  induction s as [|a s IH]; simpl; [done |].
  destruct (trimEnd s); [destruct (is_ws a) |]; simpl in *; lia.
Qed.

Lemma trimEnd_endsWithWs (s : string) : endsWithWs (trimEnd s) = false.
Proof.
  induction s as [|a s IH]; simpl; [done |].
  destruct (trimEnd s) as [|b t] eqn:Ht.
  - destruct (is_ws a) eqn:Ha; simpl; done.
  - exact IH.
Qed.

Lemma trimEnd_cons (a : ascii) (s : string) :
  trimEnd (String a s) =
    match trimEnd s with
    | EmptyString => if is_ws a then EmptyString else String a EmptyString
    | t => String a t
    end.
Proof. reflexivity. Qed.

Lemma trimEnd_id (s : string) : endsWithWs s = false -> trimEnd s = s.
Proof.
  induction s as [|a s IH]; [done |]. destruct s as [|b s].
  - simpl. by intros ->.
  - intros H. change (endsWithWs (String b s) = false) in H.
    rewrite trimEnd_cons, (IH H). done.
Qed.

(** [trim] leaves a string alone exactly when it has no white space at
    either end. *)
Lemma trim_id_iff (s : string) :
  trim s = s <-> startsWithWs s = false /\ endsWithWs s = false.
Proof.
  unfold trim. split.
  - intros H. assert (Hs : startsWithWs s = false).
    { destruct s as [|a s]; [done |]. simpl in *. destruct (is_ws a) eqn:Ha; [| done].
      exfalso. pose proof (trimEnd_length (trimStart s)) as H1.
      pose proof (trimStart_length s) as H2. rewrite H in H1. simpl in H1. lia. }
    split; [done |].
    destruct s as [|a s]; [done |]. simpl in Hs. simpl in H. rewrite Hs in H.
    rewrite <- H. apply trimEnd_endsWithWs.
  - intros [Hs He]. destruct s as [|a s]; [done |]. simpl in Hs. simpl. rewrite Hs.
    by apply trimEnd_id.
Qed.

(** C4, amended.  For [meesho] the result is the trimmed string form of
    the SKU (the empty string for a falsy SKU), whatever the mapping table
    holds; a string SKU comes back unchanged exactly when it has no white
    space at either end. *)
Theorem mapSkuToMsku_meesho (st : State) (sku : JsVal) :
  mapSkuToMsku st sku "meesho" = (if truthy sku then trim (ToString sku) else "") /\
  (forall st' : State, mapSkuToMsku st' sku "meesho" = mapSkuToMsku st sku "meesho") /\
  (forall s : string,
     mapSkuToMsku st (VStr s) "meesho" = s <->
     startsWithWs s = false /\ endsWithWs s = false).
Proof.
  split; [reflexivity |]. split; [reflexivity |].
  intros s. rewrite <- trim_id_iff. unfold mapSkuToMsku. simpl.
  destruct (String.eqb_spec s "") as [-> | Hne]; simpl; done.
Qed.

(** ** The mapping loader *)

(** C3, at the failing input.  The loader compares the cells before
    trimming and stores them after trimming: two text cells that differ are
    stored under their trimmed forms, so the row ["A ", "A"] passes the
    test [sku !== msku] and is stored as the identity mapping ["A" -> "A"]. *)
Theorem loadMasterData_stores_identity :
  (forall (st : State) (row : Row) (s1 s2 : string),
     findColumnValue row ["sku"; "SKU"; "Sku"] = VStr s1 ->
     findColumnValue row ["msku"; "MSKU"; "Msku"] = VStr s2 ->
     s1 <> s2 ->
     JsMap.get (trim s1) (skuToMsku (loadMasterData_row st row)) = Some (trim s2)) /\
  (let row : Row := [("sku", VStr "A "); ("msku", VStr "A")] in
   strict_eq (findColumnValue row ["sku"; "SKU"; "Sku"])
             (findColumnValue row ["msku"; "MSKU"; "Msku"]) = false /\
   skuToMsku (loadMasterData [row] masterData0) = [("A", "A")]).
Proof.
  split; [| split; reflexivity].
  intros st row s1 s2 H1 H2 Hne. unfold loadMasterData_row.
  pose proof (findColumnValue_string_truthy _ _ _ H1) as Ht1.
  pose proof (findColumnValue_string_truthy _ _ _ H2) as Ht2.
  rewrite H1, H2, Ht1, Ht2. cbn [strict_eq andb].
  apply String.eqb_neq in Hne as ->. cbn [negb skuToMsku ToString].
  apply get_set_eq.
Qed.

(** ** The inventory loader *)

(** What every stored inventory object satisfies: a missing stock cell
    reads as 0, the current stock is the opening stock unless that is 0 and
    the warehouses hold something, and the status follows the current
    stock. *)
Lemma inventory_stock_rule (row : Row) (msquKey : string) :
  let item := inventoryDataOf row msquKey in
  let warehouseStock := fst (warehouseTotals row) in
  InventoryItem.openingStock item = openingStockOf row /\
  InventoryItem.bufferStock item = bufferStockOf row /\
  (findColumnValue row ["Opening Stock"; "opening_stock"; "Opening"] = VNull ->
     openingStockOf row = Num 0) /\
  (findColumnValue row ["Buffer Stock"; "buffer_stock"; "Buffer"] = VNull ->
     bufferStockOf row = Num 0) /\
  (forall n, findColumnValue row ["Opening Stock"; "opening_stock"; "Opening"] = VNum (Num n) ->
     openingStockOf row = Num n) /\
  (forall n, findColumnValue row ["Buffer Stock"; "buffer_stock"; "Buffer"] = VNum (Num n) ->
     bufferStockOf row = Num n) /\
  InventoryItem.currentStock item =
    (if Js.num_eq (openingStockOf row) (Num 0) && Js.gt warehouseStock (Num 0)
     then warehouseStock else openingStockOf row) /\
  (forall z, openingStockOf row = Num z -> z <> 0 ->
     InventoryItem.currentStock item = Num z) /\
  (InventoryItem.status item = "In Stock" <->
     Js.gt (InventoryItem.currentStock item) (Num 0) = true).
Proof.
  unfold inventoryDataOf. destruct (warehouseTotals row) as [ws wb] eqn:Hw.
  cbn [InventoryItem.openingStock InventoryItem.bufferStock
       InventoryItem.currentStock InventoryItem.status].
  assert (Hfst : fst (warehouseTotals row) = ws) by (by rewrite Hw).
  repeat split.
  - unfold openingStockOf. by intros ->.
  - unfold bufferStockOf. by intros ->.
  - unfold openingStockOf. intros n ->. apply parseInt_or_integer.
  - unfold bufferStockOf. intros n ->. apply parseInt_or_integer.
  - unfold totalStockOf. by rewrite Hfst.
  - intros z Hz Hne. unfold totalStockOf. rewrite Hz. simpl.
    destruct (Z.eqb_spec z 0); [done | reflexivity].
  - destruct (Js.gt (totalStockOf row) (Num 0)); [done | discriminate].
  - destruct (Js.gt (totalStockOf row) (Num 0)); [done | discriminate].
Qed.

(** C7, at the failing input.  A stock cell that holds text is truthy,
    so [|| 0] keeps it and [parseInt] reads the text: text with no leading
    digits gives [NaN].  In the row below the opening and buffer stock are
    [NaN], not 0, and [NaN] is stored as the current stock of the item. *)
Theorem loadCurrentInventory_unparseable_stock :
  (forall (row : Row) (s : string),
     findColumnValue row ["Opening Stock"; "opening_stock"; "Opening"] = VStr s ->
     openingStockOf row = parseInt_str s) /\
  (forall (row : Row) (s : string),
     findColumnValue row ["Buffer Stock"; "buffer_stock"; "Buffer"] = VStr s ->
     bufferStockOf row = parseInt_str s) /\
  (let row : Row :=
     [("msku", VStr "M1"); ("Opening Stock", VStr "abc"); ("Buffer Stock", VStr "n/a")] in
   openingStockOf row = NaN /\
   bufferStockOf row = NaN /\
   ledger_get (fst (loadCurrentInventory [row] masterData0)) "M1" =
     Some (InventoryItem.mk "M1" "Unknown Product" "Unknown" "Out of Stock"
             NaN NaN NaN NaN (Num 0) [])).
Proof.
  split; [| split].
  - intros row s H. by apply parseInt_or_string.
  - intros row s H. by apply parseInt_or_string.
  - repeat split.
Qed.

(** ** The order extractor *)

(** An absent quantity cell reads as 1, under every marketplace tag. *)
Lemma quantityOf_absent (order : Row) (names : list string) :
  findColumnValue order names = VNull -> quantityOf order names = Num 1.
Proof. unfold quantityOf. by intros ->. Qed.

(** An integer quantity cell other than 0 reads as itself. *)
Lemma quantityOf_integer (order : Row) (names : list string) (n : Z) :
  findColumnValue order names = VNum (Num n) -> n <> 0 -> quantityOf order names = Num n.
Proof.
  unfold quantityOf, Js.or. intros -> Hne. simpl.
  destruct (Z.eqb_spec n 0); [done |]. apply parseInt_integer.
Qed.

(** C8, at the failing input.  A quantity cell that holds text is
    truthy, so [|| 1] keeps it and [parseInt] reads the text: text with no
    leading digits gives [NaN].  In the row below the extracted quantity is
    [NaN], not 1, under every marketplace tag, and the batch processor then
    drops the row. *)
Theorem extractOrderInfo_unparseable_quantity :
  (forall (order : Row) (names : list string) (s : string),
     findColumnValue order names = VStr s ->
     quantityOf order names = parseInt_str s) /\
  (let order : Row :=
     [("sku", VStr "M1"); ("quantity", VStr "two"); ("status", VStr "Delivered")] in
   OrderInfo.quantity (extractOrderInfo order "amazon") = NaN /\
   OrderInfo.quantity (extractOrderInfo order "flipkart") = NaN /\
   OrderInfo.quantity (extractOrderInfo order "meesho") = NaN /\
   OrderInfo.quantity (extractOrderInfo order "generic") = NaN /\
   BatchResult.processedOrders (processOrderData masterData0 [order] "amazon") = []).
Proof.
  split; [| repeat split].
  intros order names s H. by apply parseInt_or_string.
Qed.

(** ** The combo expander *)

(** C6.  The combo table is looked up by the normalised MSKU, then by the
    raw SKU, and without a hit the SKU expands to its own MSKU once.  In the
    scenario (mapping A1 to M1, combo C1 of M1 and M2, ledger M1 = 10 and
    M2 = 5) the amazon row for 2 of C1 gives two lines of quantity 2, the map
    M1:2, M2:2, and after reconciliation the stocks 8 and 3, with no update
    flagged as missing from the ledger. *)
Theorem expandComboSku_scenario :
  (forall (st : State) (sku : JsVal) (marketplace : string),
     let mappedMsku := mapSkuToMsku st sku marketplace in
     (forall cs, JsMap.get mappedMsku (comboSkus st) = Some cs ->
        expandComboSku st sku marketplace = cs) /\
     (forall cs, JsMap.get mappedMsku (comboSkus st) = None ->
        comboSkus_get st sku = Some cs ->
        expandComboSku st sku marketplace = cs) /\
     (JsMap.get mappedMsku (comboSkus st) = None ->
        comboSkus_get st sku = None ->
        expandComboSku st sku marketplace = [Component.mk mappedMsku 1])) /\
  skuToMsku Scenario.st0 = [("A1", "M1")] /\
  comboSkus Scenario.st0 = [("C1", [Component.mk "M1" 1; Component.mk "M2" 1])] /\
  currentStockOf Scenario.st0 "M1" = Some (Num 10) /\
  currentStockOf Scenario.st0 "M2" = Some (Num 5) /\
  BatchResult.processedOrders Scenario.batch = [Scenario.line "M1"; Scenario.line "M2"] /\
  BatchResult.msquQuantityMap Scenario.batch = [("M1", 2); ("M2", 2)] /\
  BatchResult.unmappedSkus Scenario.batch = [] /\
  (let result :=
     updateInventoryWithSales (BatchResult.msquQuantityMap Scenario.batch) Scenario.st0 in
   currentStockOf (snd result) "M1" = Some (Num 8) /\
   currentStockOf (snd result) "M2" = Some (Num 3) /\
   map InventoryUpdate.msku (fst result) = ["M1"; "M2"] /\
   Forall (fun u => InventoryUpdate.notInInventory u = false) (fst result)).
Proof.
  split.
  { intros st sku marketplace mappedMsku. unfold expandComboSku. fold mappedMsku.
    repeat split.
    - by intros cs ->.
    - by intros cs -> ->.
    - by intros -> ->. }
  repeat split; vm_compute; repeat constructor.
Qed.

(** What the test of the mapping loader does achieve: a row whose two
    cells are strings without white space at either end never stores an
    identity mapping. *)
Lemma loadMasterData_row_tidy (st : State) (row : Row) (s1 s2 : string) :
  findColumnValue row ["sku"; "SKU"; "Sku"] = VStr s1 ->
  findColumnValue row ["msku"; "MSKU"; "Msku"] = VStr s2 ->
  trim s1 = s1 -> trim s2 = s2 ->
  (forall k v, JsMap.get k (skuToMsku st) = Some v -> k <> v) ->
  forall k v, JsMap.get k (skuToMsku (loadMasterData_row st row)) = Some v -> k <> v.
Proof.
  intros H1 H2 Ht1 Ht2 Hst k v. unfold loadMasterData_row. rewrite H1, H2.
  destruct (truthy (VStr s1) && truthy (VStr s2) && negb (strict_eq (VStr s1) (VStr s2)))
    eqn:Hc; [| apply Hst].
  cbn [skuToMsku ToString]. rewrite Ht1, Ht2, get_set.
  apply andb_true_iff in Hc as [_ Hne]. cbn [strict_eq] in Hne.
  apply negb_true_iff, String.eqb_neq in Hne.
  case_bool_decide as Hd; [| apply Hst]. subst. by intros [= <-].
Qed.

Lemma has_keys_eq {V W : Type} (m1 : JsMap.t V) (m2 : JsMap.t W) (k : string) :
  JsMap.keys m1 = JsMap.keys m2 -> JsMap.has k m1 = JsMap.has k m2.
Proof.
  intros Hk. apply eq_true_iff_eq. by rewrite !has_true_keys, Hk.
Qed.

(** ** The heap of inventory objects *)

Lemma lookup_alloc_old (h : Heap) (o : InventoryItem.t) (r : Ref) :
  (r < length h)%nat -> (h ++ [o]) !! r = h !! r.
Proof. intros Hr. by apply lookup_app_l. Qed.

Lemma lookup_alloc_new (h : Heap) (o : InventoryItem.t) :
  (h ++ [o]) !! length h = Some o.
Proof. by rewrite list_lookup_middle. Qed.

Lemma wf_masterData0 : wf masterData0.
Proof. split; simpl; try done. apply NoDup_nil_2. Qed.

Lemma has_of_get {V : Type} (m : JsMap.t V) (k : string) (v : V) :
  JsMap.get k m = Some v -> JsMap.has k m = true.
Proof. unfold JsMap.has. by intros ->. Qed.

(** A ledger entry is pointed to a fresh copy of an object. *)
Lemma wf_set_current_fresh (st : State) (k : string) (o : InventoryItem.t) :
  wf st ->
  JsMap.has k (originalInventory st) = true ->
  wf (mkState (skuToMsku st) (comboSkus st)
        (JsMap.set k (length (heap st)) (currentInventory st))
        (originalInventory st) (heap st ++ [o])).
Proof.
  intros [Hca Hoa Hinj Hsep Hkeys Hnd] Hk. split; simpl.
  - intros k0 r0. rewrite get_set, length_app. simpl. case_bool_decide as Hd.
    + intros [= <-]. lia.
    + intros Hg. apply Hca in Hg. lia.
  - intros k0 r0 Hg. rewrite length_app. apply Hoa in Hg. lia.
  - intros k0 k0' r0. rewrite !get_set.
    case_bool_decide as Hd; case_bool_decide as Hd'; subst.
    + done.
    + intros [= <-] Hg. apply Hca in Hg. lia.
    + intros Hg [= <-]. apply Hca in Hg. lia.
    + apply Hinj.
  - intros k0 k0' r0. rewrite get_set. case_bool_decide as Hd.
    + intros [= <-] Hg. apply Hoa in Hg. lia.
    + apply Hsep.
  - by rewrite keys_set, (has_keys_eq _ _ _ Hkeys), Hk.
  - done.
Qed.

(** ** Reset *)

(** One iteration of the reset: the ledger entry of the key now holds
    what the backup holds; nothing else is touched. *)
Lemma resetInventory_entry_spec (st : State) (k : string) (r : Ref) :
  wf st ->
  JsMap.get k (originalInventory st) = Some r ->
  let st' := resetInventory_entry st (k, r) in
  wf st' /\
  originalInventory st' = originalInventory st /\
  skuToMsku st' = skuToMsku st /\
  comboSkus st' = comboSkus st /\
  JsMap.keys (currentInventory st') = JsMap.keys (currentInventory st) /\
  (forall k', snapshot_get st' k' = snapshot_get st k') /\
  (forall k', ledger_get st' k' =
     if bool_decide (k' = k) then snapshot_get st k else ledger_get st k').
Proof.
  intros Hwf Hk. unfold resetInventory_entry.
  destruct (lookup_lt_is_Some_2 (heap st) r) as [o Ho].
  { eapply wf_orig_alloc; eauto. }
  rewrite Ho. cbn zeta. unfold alloc.
  pose proof (has_of_get _ _ _ Hk) as Hhas.
  split; [by apply wf_set_current_fresh |]. simpl.
  split_and!; try done.
  - by rewrite keys_set, (has_keys_eq _ _ _ (wf_keys _ Hwf)), Hhas.
  - intros k'. unfold snapshot_get. simpl.
    destruct (JsMap.get k' (originalInventory st)) as [r'|] eqn:Hg; [| done].
    apply lookup_alloc_old. eapply wf_orig_alloc; eauto.
  - intros k'. unfold ledger_get, snapshot_get. simpl. rewrite get_set.
    case_bool_decide as Hd.
    + rewrite Hk, Ho. apply lookup_alloc_new.
    + destruct (JsMap.get k' (currentInventory st)) as [r'|] eqn:Hg; [| done].
      apply lookup_alloc_old. eapply wf_cur_alloc; eauto.
Qed.

Lemma resetInventory_fold (l : list (string * Ref)) (st : State) :
  wf st ->
  (forall k r, (k, r) ∈ l -> JsMap.get k (originalInventory st) = Some r) ->
  let st' := fold_left resetInventory_entry l st in
  wf st' /\
  originalInventory st' = originalInventory st /\
  skuToMsku st' = skuToMsku st /\
  comboSkus st' = comboSkus st /\
  JsMap.keys (currentInventory st') = JsMap.keys (currentInventory st) /\
  (forall k', snapshot_get st' k' = snapshot_get st k') /\
  (forall k', ledger_get st' k' =
     if bool_decide (k' ∈ JsMap.keys l) then snapshot_get st k' else ledger_get st k').
Proof.
  revert st. induction l as [|[k r] l IH]; intros st Hwf Hl; cbn [fold_left]; cbv zeta.
  - split_and!; done.
  - destruct (resetInventory_entry_spec st k r Hwf) as (Hwf1 & Ho1 & Hs1 & Hc1 & Hk1 & Hsn1 & Hl1).
    { apply Hl. apply list_elem_of_here. }
    destruct (IH (resetInventory_entry st (k, r)) Hwf1) as (Hwf2 & Ho2 & Hs2 & Hc2 & Hk2 & Hsn2 & Hl2).
    { intros k' r' Hin. rewrite Ho1. apply Hl. by apply list_elem_of_further. }
    split; [done |]. split; [congruence |]. split; [congruence |].
    split; [congruence |]. split; [congruence |]. split.
    + intros k'. by rewrite Hsn2, Hsn1.
    + intros k'. rewrite Hl2, Hsn1, Hl1.
      change (JsMap.keys ((k, r) :: l)) with (k :: JsMap.keys l).
      destruct (decide (k' = k)) as [-> | Hne].
      * rewrite (bool_decide_eq_true_2 (k = k)) by done.
        rewrite (bool_decide_eq_true_2 (k ∈ k :: _)) by apply list_elem_of_here.
        by case_bool_decide.
      * rewrite (bool_decide_eq_false_2 (k' = k)) by done.
        case_bool_decide as Hd.
        -- rewrite bool_decide_eq_true_2; [done | by apply list_elem_of_further].
        -- rewrite bool_decide_eq_false_2; [done |].
           intros [? | ?]%elem_of_cons; done.
Qed.

(** The reset: the ledger holds what the backup holds, key by key, and
    the backup, the tables and the order of the ledger are as before. *)
Lemma resetInventory_spec (st : State) :
  wf st ->
  wf (resetInventory st) /\
  originalInventory (resetInventory st) = originalInventory st /\
  skuToMsku (resetInventory st) = skuToMsku st /\
  comboSkus (resetInventory st) = comboSkus st /\
  JsMap.keys (currentInventory (resetInventory st)) = JsMap.keys (currentInventory st) /\
  (forall k, snapshot_get (resetInventory st) k = snapshot_get st k) /\
  (forall k, ledger_get (resetInventory st) k = snapshot_get st k).
Proof.
  intros Hwf. unfold resetInventory.
  destruct (resetInventory_fold (originalInventory st) st Hwf)
    as (Hwf' & Ho & Hs & Hc & Hk & Hsn & Hl).
  { intros k r Hin. apply elem_get; [apply (wf_orig_nodup _ Hwf) | done]. }
  split_and!; try done.
  intros k. rewrite Hl. case_bool_decide as Hd; [done |].
  apply get_None_keys in Hd. unfold ledger_get, snapshot_get. rewrite Hd.
  assert (Hh : JsMap.has k (currentInventory st) = false).
  { rewrite (has_keys_eq _ _ _ (wf_keys _ Hwf)). unfold JsMap.has. by rewrite Hd. }
  unfold JsMap.has in Hh. by destruct (JsMap.get k (currentInventory st)).
Qed.

(** ** Reconciliation *)

Lemma snd_updateInventoryWithSales (m : JsMap.t Z) (st : State) :
  snd (updateInventoryWithSales m st) = snd (inventoryUpdatesUnsorted m st).
Proof. unfold updateInventoryWithSales. by destruct (inventoryUpdatesUnsorted m st). Qed.

Lemma fst_updateInventoryWithSales (m : JsMap.t Z) (st : State) :
  fst (updateInventoryWithSales m st) =
  array_sort bySoldDesc (fst (inventoryUpdatesUnsorted m st)).
Proof. unfold updateInventoryWithSales. by destruct (inventoryUpdatesUnsorted m st). Qed.

(** One entry of the sold map: the item of that MSKU is sold from, in
    place; no other ledger entry and no backup entry changes. *)
Lemma updateInventoryWithSales_entry_state
  (ups : list InventoryUpdate.t) (st : State) (msku : string) (sold : Z) :
  wf st ->
  let st' := snd (updateInventoryWithSales_entry (ups, st) (msku, sold)) in
  wf st' /\
  currentInventory st' = currentInventory st /\
  originalInventory st' = originalInventory st /\
  skuToMsku st' = skuToMsku st /\
  comboSkus st' = comboSkus st /\
  (forall k, snapshot_get st' k = snapshot_get st k) /\
  (forall k, ledger_get st' k =
     if bool_decide (k = msku) then sell sold <$> ledger_get st k else ledger_get st k).
Proof.
  intros Hwf. unfold updateInventoryWithSales_entry.
  destruct (JsMap.get msku (currentInventory st)) as [r|] eqn:Hg; cbv zeta.
  2:{ simpl. split_and!; try done. intros k. case_bool_decide as Hd; [| done].
      subst. unfold ledger_get. by rewrite Hg. }
  destruct (heap st !! r) as [item|] eqn:Hr.
  2:{ simpl. split_and!; try done. intros k. case_bool_decide as Hd; [| done].
      subst. unfold ledger_get. by rewrite Hg, Hr. }
  simpl. rewrite (set_get_id _ _ _ Hg).
  pose proof (wf_cur_alloc _ Hwf _ _ Hg) as Hlt.
  split_and!; try done.
  - destruct Hwf as [Hca Hoa Hinj Hsep Hkeys Hnd].
    split; simpl; try done; intros *; rewrite length_insert; eauto.
  - intros k. unfold snapshot_get. simpl.
    destruct (JsMap.get k (originalInventory st)) as [r'|] eqn:Hg'; [| done].
    apply list_lookup_insert_ne. intros ->. by eapply (wf_sep _ Hwf).
  - intros k. unfold ledger_get. simpl. case_bool_decide as Hd.
    + subst. rewrite Hg, Hr. simpl. by apply list_lookup_insert_eq.
    + destruct (JsMap.get k (currentInventory st)) as [r'|] eqn:Hg'; [| done].
      apply list_lookup_insert_ne. intros ->. apply Hd.
      by eapply (wf_cur_inj _ Hwf).
Qed.

Lemma inventoryUpdates_fold_state
  (m : JsMap.t Z) (ups : list InventoryUpdate.t) (st : State) :
  wf st ->
  let st' := snd (fold_left updateInventoryWithSales_entry m (ups, st)) in
  wf st' /\
  currentInventory st' = currentInventory st /\
  originalInventory st' = originalInventory st /\
  skuToMsku st' = skuToMsku st /\
  comboSkus st' = comboSkus st /\
  (forall k, snapshot_get st' k = snapshot_get st k) /\
  (forall k, ledger_get st' k = soldFrom k m (ledger_get st k)).
Proof.
  revert ups st. induction m as [|[msku sold] m IH]; intros ups st Hwf;
    cbn [fold_left]; cbv zeta.
  - split_and!; done.
  - destruct (updateInventoryWithSales_entry_state ups st msku sold Hwf)
      as (Hwf1 & Hc1 & Ho1 & Hs1 & Hcb1 & Hsn1 & Hl1).
    destruct (updateInventoryWithSales_entry (ups, st) (msku, sold)) as [ups1 st1].
    simpl in Hwf1, Hc1, Ho1, Hs1, Hcb1, Hsn1, Hl1.
    destruct (IH ups1 st1 Hwf1) as (Hwf2 & Hc2 & Ho2 & Hs2 & Hcb2 & Hsn2 & Hl2).
    split_and!; try congruence.
    intros k. rewrite Hl2, Hl1. reflexivity.
Qed.

(** A reconciliation pass: the backup, the tables and the shape of the
    ledger are as before, and each ledger entry has been sold from once per
    entry of the map under its key. *)
Lemma reconcile_spec (m : JsMap.t Z) (st : State) :
  wf st ->
  wf (reconcile st m) /\
  currentInventory (reconcile st m) = currentInventory st /\
  originalInventory (reconcile st m) = originalInventory st /\
  skuToMsku (reconcile st m) = skuToMsku st /\
  comboSkus (reconcile st m) = comboSkus st /\
  (forall k, snapshot_get (reconcile st m) k = snapshot_get st k) /\
  (forall k, ledger_get (reconcile st m) k = soldFrom k m (ledger_get st k)).
Proof.
  intros Hwf. unfold reconcile. rewrite snd_updateInventoryWithSales.
  by apply inventoryUpdates_fold_state.
Qed.

(** ** Loading *)

Lemma wf_ext (st st' : State) :
  currentInventory st' = currentInventory st ->
  originalInventory st' = originalInventory st ->
  heap st' = heap st ->
  wf st -> wf st'.
Proof.
  intros Hc Ho Hh [? ? ? ? ? ?]. split; rewrite ?Hc, ?Ho, ?Hh; done.
Qed.

Lemma loadMasterData_inventory (data : list Row) (st : State) :
  currentInventory (loadMasterData data st) = currentInventory st /\
  originalInventory (loadMasterData data st) = originalInventory st /\
  heap (loadMasterData data st) = heap st /\
  comboSkus (loadMasterData data st) = comboSkus st.
Proof.
  unfold loadMasterData. revert st. induction data as [|row data IH]; intros st; [done |].
  cbn [fold_left]. destruct (IH (loadMasterData_row st row)) as (-> & -> & -> & ->).
  unfold loadMasterData_row. by destruct (_ && _).
Qed.

Lemma loadComboData_inventory (data : list Row) (st : State) :
  currentInventory (loadComboData data st) = currentInventory st /\
  originalInventory (loadComboData data st) = originalInventory st /\
  heap (loadComboData data st) = heap st /\
  skuToMsku (loadComboData data st) = skuToMsku st.
Proof.
  unfold loadComboData. revert st. induction data as [|row data IH]; intros st; [done |].
  cbn [fold_left]. destruct (IH (loadComboData_row st row)) as (-> & -> & -> & ->).
  unfold loadComboData_row. destruct (_ && _); [| done]. by destruct (_ <? _)%nat.
Qed.

(** One inventory row: the discipline is kept, and the ledger and the
    backup still hold the same values. *)
Lemma loadCurrentInventory_row_spec (st : State) (row : Row) :
  wf st -> pristine st ->
  wf (loadCurrentInventory_row st row) /\ pristine (loadCurrentInventory_row st row).
Proof.
  intros Hwf Hpr. unfold loadCurrentInventory_row.
  destruct (_ && _); [| done].
  set (key := trim (ToString (findColumnValue row ["msku"; "MSKU"; "Msku"]))).
  set (d := inventoryDataOf row key). unfold alloc. cbv zeta.
  assert (Hlen : length ((heap st ++ [d]) ++ [d]) = S (S (length (heap st)))).
  { rewrite !length_app. simpl. lia. }
  assert (Hlen1 : length (heap st ++ [d]) = S (length (heap st))).
  { rewrite length_app. simpl. lia. }
  assert (Hnew1 : ((heap st ++ [d]) ++ [d]) !! length (heap st) = Some d).
  { rewrite lookup_app_l by lia. apply lookup_alloc_new. }
  assert (Hnew2 : ((heap st ++ [d]) ++ [d]) !! length (heap st ++ [d]) = Some d).
  { apply lookup_alloc_new. }
  assert (Hold : forall r, (r < length (heap st))%nat ->
                   ((heap st ++ [d]) ++ [d]) !! r = heap st !! r).
  { intros r Hr. rewrite !lookup_app_l by lia. done. }
  pose proof Hwf as [Hca Hoa Hinj Hsep Hkeys Hnd].
  split.
  - split; simpl; rewrite ?Hlen.
    + intros k0 r0. rewrite get_set. case_bool_decide as Hd.
      * intros [= <-]. lia.
      * intros Hg. apply Hca in Hg. lia.
    + intros k0 r0. rewrite get_set, Hlen1. case_bool_decide as Hd.
      * intros [= <-]. lia.
      * intros Hg. apply Hoa in Hg. lia.
    + intros k0 k0' r0. rewrite !get_set.
      case_bool_decide as Hd; case_bool_decide as Hd'; subst.
      * done.
      * intros [= <-] Hg. apply Hca in Hg. lia.
      * intros Hg [= <-]. apply Hca in Hg. lia.
      * apply Hinj.
    + intros k0 k0' r0. rewrite !get_set, Hlen1.
      case_bool_decide as Hd; case_bool_decide as Hd'; subst.
      * intros [= <-]. intros [=]. lia.
      * intros [= <-] Hg. apply Hoa in Hg. lia.
      * intros Hg [= <-]. apply Hca in Hg. lia.
      * apply Hsep.
    + rewrite !keys_set, (has_keys_eq _ _ key Hkeys), Hkeys. done.
    + by apply NoDup_keys_set.
  - intros k. unfold snapshot_get, ledger_get. simpl. rewrite !get_set.
    case_bool_decide as Hd.
    + by rewrite Hnew1, Hnew2.
    + specialize (Hpr k). unfold snapshot_get, ledger_get in Hpr.
      destruct (JsMap.get k (originalInventory st)) as [ro|] eqn:Ho;
        destruct (JsMap.get k (currentInventory st)) as [rc|] eqn:Hc;
        rewrite ?Hold by eauto; done.
Qed.

Lemma loadCurrentInventory_from_spec (index : nat) (data : list Row) (st : State) :
  wf st -> pristine st ->
  wf (fst (loadCurrentInventory_from index data st)) /\
  pristine (fst (loadCurrentInventory_from index data st)).
Proof.
  revert index st. induction data as [|row data IH]; intros index st Hwf Hpr; [done |].
  cbn [loadCurrentInventory_from].
  destruct (loadCurrentInventory_row_spec st row Hwf Hpr) as [Hwf1 Hpr1].
  destruct (debugLogThrows index row); [done |]. by apply IH.
Qed.

(** After start-up the discipline holds and the backup holds what the
    ledger holds: the values at load time. *)
Lemma loadMasterFilesOnStartup_spec (masterSkuFile comboFile inventoryFile : option (list Row)) :
  wf (loadMasterFilesOnStartup masterSkuFile comboFile inventoryFile) /\
  pristine (loadMasterFilesOnStartup masterSkuFile comboFile inventoryFile).
Proof.
  unfold loadMasterFilesOnStartup.
  set (st1 := match masterSkuFile with Some data => _ | None => _ end).
  set (st2 := match comboFile with Some data => _ | None => _ end).
  assert (H1 : wf st1 /\ pristine st1).
  { subst st1. destruct masterSkuFile as [data|]; [| split; [apply wf_masterData0 | done]].
    destruct (loadMasterData_inventory data masterData0) as (Hc & Ho & Hh & _). split.
    - by apply (wf_ext masterData0); [.. | apply wf_masterData0].
    - intros k. unfold snapshot_get, ledger_get. by rewrite Hc, Ho, Hh. }
  assert (H2 : wf st2 /\ pristine st2).
  { subst st2. destruct comboFile as [data|]; [| done].
    destruct (loadComboData_inventory data st1) as (Hc & Ho & Hh & _).
    destruct H1 as [Hwf1 Hpr1]. split.
    - by apply (wf_ext st1).
    - intros k. specialize (Hpr1 k). unfold snapshot_get, ledger_get in *.
      by rewrite Hc, Ho, Hh. }
  destruct H2 as [Hwf2 Hpr2].
  destruct inventoryFile as [data|]; [| done].
  by apply loadCurrentInventory_from_spec.
Qed.

(** ** The routes *)

Lemma masterDataGuard_inventory (files : Files.t) (st st1 : State) :
  masterDataGuard files st = Some st1 ->
  currentInventory st1 = currentInventory st /\
  originalInventory st1 = originalInventory st /\
  heap st1 = heap st.
Proof.
  unfold masterDataGuard. destruct (Files.masterFile files) as [data|].
  - intros [= <-]. destruct (loadMasterData_inventory data st) as (? & ? & ? & _). done.
  - destruct (_ =? _)%nat; [done |]. by intros [= <-].
Qed.

(** The state a request leaves: the one it found when it is answered 500
    or 400, and otherwise the reconciliation of its sold quantities against
    the reset ledger. *)
Lemma process_orders_state (req : Request) (st : State) :
  snd (process_orders req st) =
    match passesGuard req st with
    | Some (files, st1) => reconcile (resetInventory st1) (soldOf st1 files)
    | None => st
    end.
Proof.
  unfold process_orders, passesGuard, reconcile, soldOf.
  destruct (files req) as [fs|]; [| done].
  destruct (masterDataGuard fs st) as [st1|]; [| done].
  by destruct (updateInventoryWithSales _ _).
Qed.

Lemma passesGuard_inventory (req : Request) (st : State) (fs : Files.t) (st1 : State) :
  passesGuard req st = Some (fs, st1) ->
  files req = Some fs /\
  masterDataGuard fs st = Some st1 /\
  currentInventory st1 = currentInventory st /\
  originalInventory st1 = originalInventory st /\
  heap st1 = heap st.
Proof.
  unfold passesGuard. destruct (files req) as [fs'|]; [| done].
  destruct (masterDataGuard fs' st) as [st1'|] eqn:Hg; [| done].
  intros [= <- <-]. split_and!; try done; by apply (masterDataGuard_inventory fs' st st1').
Qed.

(** Every operation keeps the discipline and leaves the backup alone. *)
Lemma op_spec (st : State) (o : Op) :
  wf st ->
  wf (op st o) /\
  originalInventory (op st o) = originalInventory st /\
  (forall k, snapshot_get (op st o) k = snapshot_get st k).
Proof.
  intros Hwf. destruct o as [req | | m]; cbn [op].
  - rewrite process_orders_state.
    destruct (passesGuard req st) as [[fs st1]|] eqn:Hg; [| done].
    destruct (passesGuard_inventory _ _ _ _ Hg) as (_ & _ & Hc & Ho & Hh).
    assert (Hwf1 : wf st1) by by apply (wf_ext st).
    destruct (resetInventory_spec st1 Hwf1) as (Hwf2 & Ho2 & _ & _ & _ & Hsn2 & _).
    destruct (reconcile_spec (soldOf st1 fs) _ Hwf2) as (Hwf3 & _ & Ho3 & _ & _ & Hsn3 & _).
    split; [done |]. split; [congruence |]. intros k. rewrite Hsn3, Hsn2.
    unfold snapshot_get. by rewrite Ho, Hh.
  - destruct (resetInventory_spec st Hwf) as (Hwf2 & Ho2 & _ & _ & _ & Hsn2 & _). done.
  - destruct (reconcile_spec m st Hwf) as (Hwf3 & _ & Ho3 & _ & _ & Hsn3 & _). done.
Qed.

Lemma run_spec (ops : list Op) (st : State) :
  wf st ->
  wf (run ops st) /\
  originalInventory (run ops st) = originalInventory st /\
  (forall k, snapshot_get (run ops st) k = snapshot_get st k).
Proof.
  unfold run. revert st. induction ops as [|o ops IH]; intros st Hwf; [done |].
  cbn [fold_left]. destruct (op_spec st o Hwf) as (Hwf1 & Ho1 & Hsn1).
  destruct (IH _ Hwf1) as (Hwf2 & Ho2 & Hsn2). split; [done |].
  split; [congruence |]. intros k. by rewrite Hsn2, Hsn1.
Qed.

(** Whatever happened since start-up, the backup holds the ledger of
    load time. *)
Lemma snapshot_is_load_time
  (masterSkuFile comboFile inventoryFile : option (list Row)) (ops : list Op) :
  let st0 := loadMasterFilesOnStartup masterSkuFile comboFile inventoryFile in
  wf (run ops st0) /\
  JsMap.keys (originalInventory (run ops st0)) = JsMap.keys (currentInventory st0) /\
  (forall k, snapshot_get (run ops st0) k = ledger_get st0 k).
Proof.
  intros st0.
  destruct (loadMasterFilesOnStartup_spec masterSkuFile comboFile inventoryFile)
    as [Hwf0 Hpr0].
  destruct (run_spec ops st0 Hwf0) as (Hwf & Ho & Hsn). split; [done |].
  split; [rewrite Ho; symmetry; apply (wf_keys _ Hwf0) |].
  intros k. rewrite Hsn. apply Hpr0.
Qed.

(** The ledger as listed is the list of its keys with their entries. *)
Lemma ledger_view_keys (st : State) :
  wf st ->
  ledger_view st = map (fun k => (k, ledger_get st k)) (JsMap.keys (currentInventory st)).
Proof.
  intros Hwf. unfold ledger_view, JsMap.keys. rewrite map_map.
  assert (Hnd : NoDup (JsMap.keys (currentInventory st))).
  { rewrite (wf_keys _ Hwf). apply (wf_orig_nodup _ Hwf). }
  apply map_ext_in. intros [k r] Hin. simpl. unfold ledger_get.
  by rewrite (elem_get _ k r Hnd) by by apply list_elem_of_In.
Qed.

Lemma reconciliations_run (ms : list (JsMap.t Z)) (st : State) :
  reconciliations ms st = run (map Reconcile ms) st.
Proof.
  unfold run, reconciliations. revert st.
  induction ms as [|m ms IH]; intros st; [done |]. simpl. apply IH.
Qed.

(** A reset after any history gives back the ledger of load time, and a
    second reset changes nothing. *)
Lemma resetInventory_after_run
  (masterSkuFile comboFile inventoryFile : option (list Row)) (ops : list Op) :
  let st0 := loadMasterFilesOnStartup masterSkuFile comboFile inventoryFile in
  let st := run ops st0 in
  (forall k, ledger_get (resetInventory st) k = ledger_get st0 k) /\
  ledger_view (resetInventory st) = ledger_view st0 /\
  ledger_view (resetInventory (resetInventory st)) = ledger_view (resetInventory st).
Proof.
  intros st0 st.
  destruct (loadMasterFilesOnStartup_spec masterSkuFile comboFile inventoryFile)
    as [Hwf0 Hpr0].
  destruct (snapshot_is_load_time masterSkuFile comboFile inventoryFile ops)
    as (Hwf & Hok & Hsn).
  fold st0 in Hwf, Hok, Hsn. fold st in Hwf, Hok, Hsn.
  destruct (resetInventory_spec st Hwf) as (Hwf1 & Ho1 & _ & _ & Hk1 & Hsn1 & Hl1).
  destruct (resetInventory_spec _ Hwf1) as (Hwf2 & Ho2 & _ & _ & Hk2 & Hsn2 & Hl2).
  assert (Hget : forall k', ledger_get (resetInventory st) k' = ledger_get st0 k').
  { intros k'. by rewrite Hl1, Hsn. }
  assert (Hkeys : JsMap.keys (currentInventory (resetInventory st)) =
                  JsMap.keys (currentInventory st0)).
  { by rewrite (wf_keys _ Hwf1), Ho1. }
  split_and!.
  - apply Hget.
  - rewrite (ledger_view_keys (resetInventory st) Hwf1), (ledger_view_keys st0 Hwf0), Hkeys.
    apply map_ext. intros k'. by rewrite Hget.
  - rewrite (ledger_view_keys (resetInventory (resetInventory st)) Hwf2),
      (ledger_view_keys (resetInventory st) Hwf1), Hk2.
    apply map_ext. intros k'. by rewrite Hl2, Hsn1, Hl1.
Qed.

(** C1.  After any sequence of reconciliation passes that follows the
    load, a reset gives every ledger item the [currentStock] it had at load
    time, indeed the whole ledger of load time; the same holds after any
    history of requests, resets and passes; and a reset that follows a reset
    leaves the ledger as it is. *)
Theorem resetInventory_round_trip
  (masterSkuFile comboFile inventoryFile : option (list Row))
  (ms : list (JsMap.t Z)) (ops : list Op) (k : string) :
  let st0 := loadMasterFilesOnStartup masterSkuFile comboFile inventoryFile in
  currentStockOf (resetInventory (reconciliations ms st0)) k = currentStockOf st0 k /\
  ledger_view (resetInventory (reconciliations ms st0)) = ledger_view st0 /\
  currentStockOf (resetInventory (run ops st0)) k = currentStockOf st0 k /\
  ledger_view (resetInventory (run ops st0)) = ledger_view st0 /\
  ledger_view (resetInventory (resetInventory (run ops st0))) =
    ledger_view (resetInventory (run ops st0)).
Proof.
  intros st0.
  destruct (resetInventory_after_run masterSkuFile comboFile inventoryFile
              (map Reconcile ms)) as (Hg1 & Hv1 & _).
  destruct (resetInventory_after_run masterSkuFile comboFile inventoryFile ops)
    as (Hg2 & Hv2 & Hi2).
  fold st0 in Hg1, Hv1, Hg2, Hv2, Hi2.
  rewrite reconciliations_run. unfold currentStockOf.
  rewrite Hg1, Hg2. done.
Qed.

(** ** Non-negativity *)

Lemma soldFrom_cons (k k0 : string) (s : Z) (m : JsMap.t Z) (o : option InventoryItem.t) :
  soldFrom k ((k0, s) :: m) o =
  soldFrom k m (if bool_decide (k = k0) then sell s <$> o else o).
Proof. reflexivity. Qed.

Lemma soldFrom_not_in (k : string) (m : JsMap.t Z) (o : option InventoryItem.t) :
  k ∉ JsMap.keys m -> soldFrom k m o = o.
Proof.
  revert o. induction m as [|[k0 s] m IH]; intros o Hk; [done |].
  change (JsMap.keys ((k0, s) :: m)) with (k0 :: JsMap.keys m) in Hk.
  apply not_elem_of_cons in Hk as [Hne Hk].
  rewrite soldFrom_cons, bool_decide_eq_false_2 by done. by apply IH.
Qed.

Lemma soldFrom_get (k : string) (m : JsMap.t Z) (o : option InventoryItem.t) :
  NoDup (JsMap.keys m) ->
  soldFrom k m o =
    match JsMap.get k m with
    | Some sold => sell sold <$> o
    | None => o
    end.
Proof.
  revert o. induction m as [|[k0 s] m IH]; intros o Hnd; [done |].
  change (JsMap.keys ((k0, s) :: m)) with (k0 :: JsMap.keys m) in Hnd.
  apply NoDup_cons in Hnd as [Hk0 Hnd].
  rewrite soldFrom_cons. cbn [JsMap.get].
  destruct (String.eqb_spec k0 k) as [-> | Hne].
  - rewrite bool_decide_eq_true_2 by done. by apply soldFrom_not_in.
  - rewrite bool_decide_eq_false_2 by done. by apply IH.
Qed.

Lemma afterSale_not_below0 (sold : Z) (stock : JsNum) : ~ below0 (afterSale sold stock).
Proof. destruct stock as [|z]; simpl; lia. Qed.

Lemma soldFrom_touched (k : string) (m : JsMap.t Z) (o : option InventoryItem.t)
  (item : InventoryItem.t) :
  k ∈ JsMap.keys m -> soldFrom k m o = Some item ->
  ~ below0 (InventoryItem.currentStock item).
Proof.
  revert o. induction m as [|[k0 s] m IH]; intros o Hk.
  - by apply elem_of_nil in Hk.
  - rewrite soldFrom_cons.
    destruct (decide (k ∈ JsMap.keys m)) as [Hin | Hout]; [by apply IH |].
    change (JsMap.keys ((k0, s) :: m)) with (k0 :: JsMap.keys m) in Hk.
    apply elem_of_cons in Hk as [-> | Hk]; [| done].
    rewrite bool_decide_eq_true_2 by done. rewrite soldFrom_not_in by done.
    destruct o as [i|]; [| done]. intros [= <-]. apply afterSale_not_below0.
Qed.

Lemma soldFrom_preserves (k : string) (m : JsMap.t Z) (o : option InventoryItem.t) :
  (forall item, o = Some item -> ~ below0 (InventoryItem.currentStock item)) ->
  forall item, soldFrom k m o = Some item -> ~ below0 (InventoryItem.currentStock item).
Proof.
  revert o. induction m as [|[k0 s] m IH]; intros o Ho; [done |].
  rewrite soldFrom_cons. apply IH.
  case_bool_decide as Hd; [| done].
  destruct o as [i|]; [| done]. intros item [= <-]. apply afterSale_not_below0.
Qed.

(** C2, as the specification states it, fails: an opening stock of -5 is
    loaded as it is, and a pass that sells another MSKU leaves it at -5. *)
Lemma untouched_item_stays_negative :
  let st := loadMasterFilesOnStartup None None
              (Some [[("msku", VStr "M1"); ("Opening Stock", VNum (Num (-5)))]]) in
  currentStockOf (reconcile st [("M2", 3)]) "M1" = Some (Num (-5)) /\
  ~ non_negative_after_every_pass.
Proof.
  split; [reflexivity |]. intros H.
  specialize (H None None
                (Some [[("msku", VStr "M1"); ("Opening Stock", VNum (Num (-5)))]])
                [] [("M2", 3)] "M1"
                (InventoryItem.mk "M1" "Unknown Product" "Unknown" "Out of Stock"
                   (Num (-5)) (Num (-5)) (Num (-5)) (Num 0) (Num 0) [])
                eq_refl).
  apply H. simpl. lia.
Qed.

(** C2, amended.  After a pass, every ledger item whose MSKU is in the
    sold map is not below zero, however much was sold: its stock is
    [max(0, stock - sold)].  Every other item is as before.  So a ledger
    with no item below zero has none after the pass. *)
Theorem updateInventoryWithSales_non_negative
  (masterSkuFile comboFile inventoryFile : option (list Row))
  (ops : list Op) (m : JsMap.t Z) :
  let st := run ops (loadMasterFilesOnStartup masterSkuFile comboFile inventoryFile) in
  let st' := reconcile st m in
  (forall k item, k ∈ JsMap.keys m -> ledger_get st' k = Some item ->
     ~ below0 (InventoryItem.currentStock item)) /\
  (forall k sold, NoDup (JsMap.keys m) -> JsMap.get k m = Some sold ->
     currentStockOf st' k = afterSale sold <$> currentStockOf st k) /\
  (forall k, k ∉ JsMap.keys m -> ledger_get st' k = ledger_get st k) /\
  ((forall k item, ledger_get st k = Some item ->
      ~ below0 (InventoryItem.currentStock item)) ->
   forall k item, ledger_get st' k = Some item ->
      ~ below0 (InventoryItem.currentStock item)).
Proof.
  intros st st'.
  destruct (snapshot_is_load_time masterSkuFile comboFile inventoryFile ops)
    as (Hwf & _ & _). fold st in Hwf.
  destruct (reconcile_spec m st Hwf) as (_ & _ & _ & _ & _ & _ & Hl). fold st' in Hl.
  split_and!.
  - intros k item Hk. rewrite Hl. by apply soldFrom_touched.
  - intros k sold Hnd Hg. unfold currentStockOf. rewrite Hl, soldFrom_get, Hg by done.
    by destruct (ledger_get st k).
  - intros k Hk. rewrite Hl. by apply soldFrom_not_in.
  - intros Hst k item. rewrite Hl. apply soldFrom_preserves. apply Hst.
Qed.

(** ** The per-request reset *)

Lemma combineMsquMap_nodup (combined batch : JsMap.t Z) :
  NoDup (JsMap.keys combined) -> NoDup (JsMap.keys (combineMsquMap combined batch)).
Proof.
  unfold combineMsquMap. revert combined.
  induction batch as [|[msku qty] batch IH]; intros combined Hnd; [done |].
  cbn [fold_left]. apply IH. by apply NoDup_keys_set.
Qed.

Lemma processOrderFiles_nodup (st : State) (files : option (list (list Row))) :
  NoDup (JsMap.keys (Batches.combinedMsquMap (processOrderFiles st files))).
Proof.
  unfold processOrderFiles. destruct files as [fs|]; [| apply NoDup_nil_2].
  assert (H : forall acc, NoDup (JsMap.keys (Batches.combinedMsquMap acc)) ->
    NoDup (JsMap.keys (Batches.combinedMsquMap (fold_left (processOrderFile st) fs acc)))).
  { induction fs as [|f fs IH]; intros acc Hnd; [done |].
    cbn [fold_left]. apply IH. unfold processOrderFile. simpl.
    by apply combineMsquMap_nodup. }
  apply H. apply NoDup_nil_2.
Qed.

(** C10, as stated, fails, in two ways.  A request without master file
    that finds the mapping table empty is answered 400 before the reset; a
    request whose body is not multipart has no [req.files], so that the
    first statement of the handler throws and the request is answered 500
    before the reset, mapping table or not.  In both cases the ledger keeps
    what the request before it sold. *)
Lemma rejected_request_skips_reset :
  let inventory : list Row := [[("msku", VStr "M1"); ("Opening Stock", VNum (Num 10))]] in
  let orders : list Row :=
    [[("sku", VStr "M1"); ("quantity", VNum (Num 2)); ("status", VStr "Delivered")]] in
  let st0 := loadMasterFilesOnStartup None None (Some inventory) in
  let first := multipart (Some []) (Some [orders]) in
  let second := multipart None (Some [orders]) in
  let st := run [ProcessOrders first] st0 in
  let mapped0 :=
    loadMasterFilesOnStartup (Some [[("sku", VStr "A1"); ("msku", VStr "M1")]]) None
      (Some inventory) in
  let mapped := run [ProcessOrders second] mapped0 in
  let plain := mkRequest None in
  (currentStockOf st0 "M1" = Some (Num 10) /\
   currentStockOf st "M1" = Some (Num 8) /\
   fst (process_orders second st) =
     Status400 "No master data available. Either upload masterFile or place master-skus.csv in data/ directory" /\
   currentStockOf (snd (process_orders second st)) "M1" = Some (Num 8)) /\
  (JsMap.size (skuToMsku mapped) = 1%nat /\
   currentStockOf mapped0 "M1" = Some (Num 10) /\
   currentStockOf mapped "M1" = Some (Num 8) /\
   fst (process_orders plain mapped) = Status500 "Failed to process files" /\
   currentStockOf (snd (process_orders plain mapped)) "M1" = Some (Num 8)) /\
  ~ every_request_resets.
Proof.
  split_and!; try reflexivity. intros H.
  specialize (H None None
    (Some [[("msku", VStr "M1"); ("Opening Stock", VNum (Num 10))]])
    [ProcessOrders (multipart (Some [])
       (Some [[[("sku", VStr "M1"); ("quantity", VNum (Num 2));
                ("status", VStr "Delivered")]]]))]
    (mkRequest None)
    "M1").
  vm_compute in H. discriminate H.
Qed.

(** C10, amended.  A request that does not get as far as the reset leaves
    the state as it found it: one whose body is not multipart is answered
    500, and one that is answered 400 for want of master data.  Every other
    request resets the ledger to its load-time values before it reads an
    order file, and ends with the reconciliation of its own sold quantities
    against that ledger: the stock of an item is then its load-time stock
    less what this request sold, whatever earlier requests did. *)
Theorem process_orders_resets_first
  (masterSkuFile comboFile inventoryFile : option (list Row))
  (ops : list Op) (req : Request) (k : string) :
  let st0 := loadMasterFilesOnStartup masterSkuFile comboFile inventoryFile in
  let st := run ops st0 in
  match files req with
  | None =>
      fst (process_orders req st) = Status500 "Failed to process files" /\
      snd (process_orders req st) = st
  | Some fs =>
      match masterDataGuard fs st with
      | None =>
          (exists error, fst (process_orders req st) = Status400 error) /\
          Files.masterFile fs = None /\
          JsMap.size (skuToMsku st) = 0%nat /\
          snd (process_orders req st) = st
      | Some st1 =>
          (exists summary inventoryUpdates processedOrders unmappedSkus,
             fst (process_orders req st) =
               Status200 summary inventoryUpdates processedOrders unmappedSkus) /\
          snd (process_orders req st) = reconcile (resetInventory st1) (soldOf st1 fs) /\
          ledger_get (resetInventory st1) k = ledger_get st0 k /\
          ledger_get (snd (process_orders req st)) k =
            match JsMap.get k (soldOf st1 fs) with
            | Some sold => sell sold <$> ledger_get st0 k
            | None => ledger_get st0 k
            end /\
          currentStockOf (snd (process_orders req st)) k =
            match JsMap.get k (soldOf st1 fs) with
            | Some sold => afterSale sold <$> currentStockOf st0 k
            | None => currentStockOf st0 k
            end
      end
  end.
Proof.
  intros st0 st. rewrite process_orders_state. unfold passesGuard, process_orders.
  destruct (files req) as [fs|]; [| done].
  destruct (masterDataGuard fs st) as [st1|] eqn:Hg.
  2: { split; [by eexists |]. split_and!; try done.
       - unfold masterDataGuard in Hg. by destruct (Files.masterFile fs).
       - unfold masterDataGuard in Hg. destruct (Files.masterFile fs); [done |].
         destruct (Nat.eqb_spec (JsMap.size (skuToMsku st)) 0); done. }
  split.
  { destruct (updateInventoryWithSales _ _). by do 4 eexists. }
  destruct (snapshot_is_load_time masterSkuFile comboFile inventoryFile ops)
    as (Hwf & _ & Hsn). fold st0 in Hwf, Hsn. fold st in Hwf, Hsn.
  destruct (masterDataGuard_inventory _ _ _ Hg) as (Hc & Ho & Hh).
  assert (Hwf1 : wf st1) by by apply (wf_ext st).
  destruct (resetInventory_spec st1 Hwf1) as (Hwf2 & _ & _ & _ & _ & _ & Hl2).
  destruct (reconcile_spec (soldOf st1 fs) _ Hwf2) as (_ & _ & _ & _ & _ & _ & Hl3).
  assert (Hreset : ledger_get (resetInventory st1) k = ledger_get st0 k).
  { rewrite Hl2, <- Hsn. unfold snapshot_get. by rewrite Ho, Hh. }
  assert (Hafter : ledger_get (reconcile (resetInventory st1) (soldOf st1 fs)) k =
                   match JsMap.get k (soldOf st1 fs) with
                   | Some sold => sell sold <$> ledger_get st0 k
                   | None => ledger_get st0 k
                   end).
  { rewrite Hl3, Hreset. apply soldFrom_get. apply processOrderFiles_nodup. }
  split_and!; try done.
  unfold currentStockOf. rewrite Hafter.
  destruct (JsMap.get k (soldOf st1 fs)); [| done]. by destruct (ledger_get st0 k).
Qed.

(** ** The returned updates *)

Section SortBySold.

Implicit Types (x y : InventoryUpdate.t) (l : list InventoryUpdate.t).

Lemma sort_insert_perm x l : Permutation (sort_insert bySoldDesc x l) (x :: l).
Proof.
  induction l as [|y l IH]; simpl; [done |].
  destruct (0 <? bySoldDesc x y); [| done].
  rewrite IH. apply perm_swap.
Qed.

Lemma array_sort_perm l : Permutation (array_sort bySoldDesc l) l.
Proof.
  induction l as [|x l IH]; simpl; [done |].
  rewrite sort_insert_perm. by constructor.
Qed.

Lemma sort_insert_HdRel x y l :
  soldDescending y x -> HdRel soldDescending y l ->
  HdRel soldDescending y (sort_insert bySoldDesc x l).
Proof.
  intros Hyx Hl. destruct l as [|z l]; simpl; [by constructor |].
  destruct (0 <? bySoldDesc x z); constructor; [| done].
  by inversion Hl.
Qed.

Lemma sort_insert_sorted x l :
  Sorted soldDescending l -> Sorted soldDescending (sort_insert bySoldDesc x l).
Proof.
  induction l as [|y l IH]; intros Hs; simpl.
  - repeat constructor.
  - inversion Hs as [|? ? Hs' Hhd]; subst.
    destruct (Z.ltb_spec 0 (bySoldDesc x y)) as [Hlt | Hge].
    + constructor; [by apply IH |].
      apply sort_insert_HdRel; [| done].
      unfold soldDescending, bySoldDesc in *. lia.
    + constructor; [done |]. constructor.
      unfold soldDescending, bySoldDesc in *. lia.
Qed.

Lemma array_sort_sorted l : StronglySorted soldDescending (array_sort bySoldDesc l).
Proof.
  apply Sorted_StronglySorted.
  - intros a b c. unfold soldDescending. lia.
  - induction l as [|x l IH]; simpl; [constructor | by apply sort_insert_sorted].
Qed.

(** Stability: the updates of any one sold quantity keep their order. *)
Lemma sort_insert_stable (q : Z) x l :
  filter (fun u => InventoryUpdate.soldQuantity u = q) (sort_insert bySoldDesc x l) =
  filter (fun u => InventoryUpdate.soldQuantity u = q) (x :: l).
Proof.
  induction l as [|y l IH]; simpl; [done |].
  destruct (Z.ltb_spec 0 (bySoldDesc x y)) as [Hlt | Hge]; [| done].
  rewrite filter_cons, IH, !filter_cons. unfold bySoldDesc in Hlt.
  repeat case_decide; try done; lia.
Qed.

Lemma array_sort_stable (q : Z) l :
  filter (fun u => InventoryUpdate.soldQuantity u = q) (array_sort bySoldDesc l) =
  filter (fun u => InventoryUpdate.soldQuantity u = q) l.
Proof.
  induction l as [|x l IH]; simpl; [done |].
  rewrite sort_insert_stable, !filter_cons, IH. done.
Qed.

End SortBySold.

(** One entry of the sold map, seen from the returned array: one update
    is appended, for that MSKU and that quantity; the ledger map is not
    changed; and when the ledger has no entry for the MSKU the state is not
    touched at all and the update is the not-found one. *)
Lemma updateInventoryWithSales_entry_update
  (ups : list InventoryUpdate.t) (st : State) (msku : string) (sold : Z) :
  exists u st1,
    updateInventoryWithSales_entry (ups, st) (msku, sold) = (ups ++ [u], st1) /\
    InventoryUpdate.msku u = msku /\
    InventoryUpdate.soldQuantity u = sold /\
    currentInventory st1 = currentInventory st /\
    (JsMap.get msku (currentInventory st) = None ->
       u = notFoundUpdate msku sold /\ st1 = st).
Proof.
  unfold updateInventoryWithSales_entry.
  destruct (JsMap.get msku (currentInventory st)) as [r|] eqn:Hg.
  - destruct (heap st !! r) as [item|]; eexists _, _; simpl; split_and!; try done.
    by rewrite (set_get_id _ _ _ Hg).
  - eexists _, _; simpl; split_and!; done.
Qed.

Lemma inventoryUpdates_fold_updates
  (m : JsMap.t Z) (ups : list InventoryUpdate.t) (st : State) :
  exists us,
    fst (fold_left updateInventoryWithSales_entry m (ups, st)) = ups ++ us /\
    map InventoryUpdate.msku us = JsMap.keys m /\
    map InventoryUpdate.soldQuantity us = JsMap.values m /\
    currentInventory (snd (fold_left updateInventoryWithSales_entry m (ups, st))) =
      currentInventory st /\
    (forall msku sold, (msku, sold) ∈ m ->
       JsMap.get msku (currentInventory st) = None ->
       notFoundUpdate msku sold ∈ us).
Proof.
  revert ups st. induction m as [|[msku sold] m IH]; intros ups st; cbn [fold_left].
  - exists []. rewrite app_nil_r. split_and!; try done.
    intros ? ? Hin. by apply elem_of_nil in Hin.
  - destruct (updateInventoryWithSales_entry_update ups st msku sold)
      as (u & st1 & -> & Hm & Hs & Hc & Hnf).
    destruct (IH (ups ++ [u]) st1) as (us & Hus & Hkeys & Hvals & Hc' & Hin').
    exists (u :: us). split_and!.
    + by rewrite Hus, <- app_assoc.
    + simpl. by rewrite Hm, Hkeys.
    + simpl. by rewrite Hs, Hvals.
    + by rewrite Hc'.
    + intros msku' sold' [[= -> ->] | Hin]%elem_of_cons Hnone.
      * destruct (Hnf Hnone) as [-> _]. apply list_elem_of_here.
      * apply list_elem_of_further. apply Hin'; [done |]. by rewrite Hc.
Qed.

(** C9.  An MSKU of the sold map that the ledger does not have leaves the
    state untouched and contributes the not-found update: stock figures 0,
    the sold quantity as given, the flag set.  The function is total, one
    update per entry of the map; the returned array is the updates in map
    order rearranged so that sold quantities never increase, and updates of
    equal sold quantity stay in map order. *)
Theorem updateInventoryWithSales_not_found (m : JsMap.t Z) (st : State) :
  let unsorted := fst (inventoryUpdatesUnsorted m st) in
  let updates := fst (updateInventoryWithSales m st) in
  let st' := snd (updateInventoryWithSales m st) in
  (forall ups s msku sold,
     JsMap.get msku (currentInventory s) = None ->
     updateInventoryWithSales_entry (ups, s) (msku, sold) =
       (ups ++ [notFoundUpdate msku sold], s)) /\
  (forall msku sold,
     notFoundUpdate msku sold =
       InventoryUpdate.mk msku (Num 0) sold (Num 0) (Num 0) "Not Found" "Unknown" true true) /\
  currentInventory st' = currentInventory st /\
  (forall msku sold, (msku, sold) ∈ m ->
     JsMap.get msku (currentInventory st) = None ->
     JsMap.get msku (currentInventory st') = None /\
     ledger_get st' msku = None /\
     notFoundUpdate msku sold ∈ updates) /\
  map InventoryUpdate.msku unsorted = JsMap.keys m /\
  map InventoryUpdate.soldQuantity unsorted = JsMap.values m /\
  Permutation updates unsorted /\
  StronglySorted soldDescending updates /\
  (forall q,
     filter (fun u => InventoryUpdate.soldQuantity u = q) updates =
     filter (fun u => InventoryUpdate.soldQuantity u = q) unsorted).
Proof.
  intros unsorted updates st'.
  destruct (inventoryUpdates_fold_updates m [] st) as (us & Hus & Hkeys & Hvals & Hc & Hin).
  assert (Hu : unsorted = us) by done.
  assert (Hst : st' = snd (inventoryUpdatesUnsorted m st))
    by apply snd_updateInventoryWithSales.
  assert (Hup : updates = array_sort bySoldDesc unsorted)
    by apply fst_updateInventoryWithSales.
  assert (Hcur : currentInventory st' = currentInventory st) by by rewrite Hst.
  split_and!.
  - intros ups s msku sold Hnone. unfold updateInventoryWithSales_entry. by rewrite Hnone.
  - done.
  - done.
  - intros msku sold Hm Hnone. split_and!.
    + by rewrite Hcur.
    + unfold ledger_get. by rewrite Hcur, Hnone.
    + rewrite Hup, Hu. rewrite (array_sort_perm us). by apply Hin.
  - by rewrite Hu.
  - by rewrite Hu.
  - rewrite Hup. apply array_sort_perm.
  - rewrite Hup. apply array_sort_sorted.
  - intros q. rewrite Hup. apply array_sort_stable.
Qed.

(** ** Checks of the model on the examples of the specification *)

Example parseInt_examples :
  parseInt (VNum (Num 12)) = Num 12 /\ parseInt (VStr "  -7 pcs") = Num (-7) /\
  parseInt (VStr "abc") = NaN /\ parseInt (VStr "0x1F") = Num 31 /\
  parseInt (VBool true) = NaN /\ trim "  a b  " = "a b" /\
  toLowerCase "Out_For_Delivery" = "out_for_delivery".
Proof. repeat split. Qed.

Example detectMarketplace_examples :
  detectMarketplace [[("ASIN", VStr "B01"); ("Order Status", VStr "Shipped")]] = "amazon" /\
  detectMarketplace [[("MSKU", VStr "M1"); ("Status", VStr "Shipped")]] = "meesho" /\
  detectMarketplace [[("SKU", VStr "M1"); ("Status", VStr "Shipped")]] = "generic" /\
  detectMarketplace [] = "unknown".
Proof. repeat split. Qed.

Example unknown_sku_passes_through :
  let order : Row :=
    [("sku", VStr "UNKNOWN"); ("quantity", VNum (Num 3)); ("status", VStr "Shipped")] in
  let batch := processOrderData Scenario.st0 [order] "generic" in
  map ProcessedOrder.mappedMsku (BatchResult.processedOrders batch) = ["UNKNOWN"] /\
  fst (updateInventoryWithSales (BatchResult.msquQuantityMap batch) Scenario.st0) =
    [notFoundUpdate "UNKNOWN" 3].
Proof. repeat split. Qed.

Example cancelled_order_is_skipped :
  let order : Row :=
    [("sku", VStr "M1"); ("quantity", VNum (Num 3)); ("status", VStr "Cancelled")] in
  processOrderData Scenario.st0 [order] "generic" = BatchResult.mk [] [] [].
Proof. reflexivity. Qed.

Example zero_quantity_cell_reads_as_one :
  quantityOf [("quantity", VNum (Num 0))] ["Quantity"; "quantity"; "Qty"; "qty"] = Num 1.
Proof. reflexivity. Qed.

(* ================================================================== *)
(** * Further properties of the code *)

(** ** The column resolver *)

Lemma findColumnValue_cons (row : Row) (name : string) (names : list string) :
  findColumnValue row (name :: names) =
  if usable (row_get row name) then row_get row name else findColumnValue row names.
Proof. reflexivity. Qed.

Lemma usable_true (v : JsVal) :
  usable v = true -> v <> VUndefined /\ v <> VNull /\ v <> VStr "".
Proof. destruct v as [| | | |s|d]; try done. destruct s; done. Qed.

(** X1.  The resolver returns the cell of the first alias whose cell is
    neither [undefined], [null] nor the empty string; it returns [null]
    exactly when no alias has such a cell, and never returns [undefined] or
    the empty string. *)
Theorem findColumnValue_first_usable (row : Row) (names : list string) :
  (findColumnValue row names = VNull <->
     Forall (fun name => usable (row_get row name) = false) names) /\
  findColumnValue row names <> VUndefined /\
  findColumnValue row names <> VStr "" /\
  (forall pre name post,
     names = pre ++ name :: post ->
     Forall (fun name' => usable (row_get row name') = false) pre ->
     usable (row_get row name) = true ->
     findColumnValue row names = row_get row name).
Proof.
  induction names as [|n names (IHnull & IHu & IHe & IHfirst)].
  - split_and!; try done. intros pre name post H. by destruct pre.
  - rewrite findColumnValue_cons. destruct (usable (row_get row n)) eqn:Hn.
    + destruct (usable_true _ Hn) as (Hu & Hnull & He). split_and!; try done.
      * split; [done |]. intros H. apply Forall_cons in H as [H _]. congruence.
      * intros pre name post Heq Hpre Hname. destruct pre as [|p pre].
        -- by injection Heq as -> _.
        -- injection Heq as -> _. apply Forall_cons in Hpre as [Hp _]. congruence.
    + split_and!; try done.
      * rewrite IHnull. split; [by constructor | by intros [_ ?]%Forall_cons].
      * intros pre name post Heq Hpre Hname. destruct pre as [|p pre].
        -- injection Heq as -> _. congruence.
        -- injection Heq as -> Heq. apply Forall_cons in Hpre as [_ Hpre].
           by apply (IHfirst pre name post).
Qed.

(** ** The order extractor *)

(** X2.  A numeric quantity cell is read from the text that JavaScript
    prints for the number.  An integer cell reads as itself, except 0, which
    is falsy and therefore reads as the default 1.  A number with a fraction
    reads as its integer part, so that 2.5 counts as 2 and a row with 0.5 is
    dropped; a number printed with an exponent reads as its first digit, so
    that 1e21 and 1.5e-7 read as 1. *)
Theorem quantityOf_numeric_cell (order : Row) (names : list string) :
  (forall n, findColumnValue order names = VNum (Num n) -> Z.abs n < 10 ^ 21 ->
     quantityOf order names = Num (if n =? 0 then 1 else n)) /\
  (forall d, findColumnValue order names = VDec d -> JsDec.digits d <> Decimal.Nil ->
     quantityOf order names = Num (integerRead d)) /\
  (let read cell := quantityOf [("Qty", cell)] ["Quantity"; "quantity"; "Qty"; "qty"] in
   let counts cell :=
     rowCounts "amazon"
       [("SKU", VStr "M1"); ("Quantity", cell); ("Status", VStr "Delivered")] in
   let two_and_a_half := VDec (JsDec.mk false (Decimal.D2 (Decimal.D5 Decimal.Nil)) 1) in
   let half := VDec (JsDec.mk false (Decimal.D5 Decimal.Nil) 0) in
   let ten_to_21 := VDec (JsDec.mk false (Decimal.D1 Decimal.Nil) 22) in
   let tiny := VDec (JsDec.mk false (Decimal.D1 (Decimal.D5 Decimal.Nil)) (-6)) in
   read (VNum (Num 0)) = Num 1 /\ read (VNum (Num 3)) = Num 3 /\
   ToString two_and_a_half = "2.5" /\ read two_and_a_half = Num 2 /\
   ToString half = "0.5" /\ read half = Num 0 /\
   ToString ten_to_21 = "1e+21" /\ read ten_to_21 = Num 1 /\
   ToString tiny = "1.5e-7" /\ read tiny = Num 1 /\
   counts two_and_a_half = true /\ counts half = false).
Proof.
  split_and!.
  - intros n H _. destruct (Z.eqb_spec n 0) as [-> | Hne].
    + unfold quantityOf. by rewrite H.
    + by apply quantityOf_integer.
  - intros d H Hd. unfold quantityOf. rewrite H. unfold Js.or. cbn [truthy].
    by apply parseInt_decimal.
  - repeat split.
Qed.

(** ** The inventory loader: warehouse columns *)

Lemma warehouseTotals_fold (row : Row) (cols : list string)
  (zs : list Z) (bd : list (string * JsNum)) :
  map snd bd = map Num zs -> Forall (fun z => 0 < z) zs ->
  Forall (fun col => In col warehouseColumns) (map fst bd ++ cols) ->
  let result :=
    fold_left
      (fun '(warehouseStock, warehouseBreakdown) col =>
         let stock := parseInt (Js.or (findColumnValue row [col]) (VNum (Num 0))) in
         if Js.gt stock (Num 0)
         then (Js.add warehouseStock stock, warehouseBreakdown ++ [(col, stock)])
         else (warehouseStock, warehouseBreakdown))
      cols (Num (total zs), bd) in
  exists zs', map snd (snd result) = map Num zs' /\ Forall (fun z => 0 < z) zs' /\
              fst result = Num (total zs') /\
              Forall (fun col => In col warehouseColumns) (map fst (snd result)).
Proof.
  revert zs bd. induction cols as [|col cols IH]; intros zs bd Hbd Hpos Hcols; cbn [fold_left].
  - exists zs. rewrite app_nil_r in Hcols. done.
  - set (stock := parseInt (Js.or (findColumnValue row [col]) (VNum (Num 0)))).
    destruct stock as [|z] eqn:Hs; cbn [Js.gt].
    + apply IH; try done. apply Forall_app in Hcols as [H1 H2].
      apply Forall_app. split; [done |]. by apply Forall_cons in H2 as [_ ?].
    + destruct (Z.ltb_spec 0 z) as [Hz | Hz].
      * cbn [Js.add].
        replace (total zs + z) with (total (zs ++ [z])).
        2:{ clear. induction zs as [|a zs IH]; simpl; [lia |]. rewrite IH. lia. }
        apply IH.
        -- rewrite !map_app, Hbd. done.
        -- apply Forall_app. split; [done |]. by repeat constructor.
        -- rewrite map_app, <- app_assoc. done.
      * apply IH; try done. apply Forall_app in Hcols as [H1 H2].
        apply Forall_app. split; [done |]. by apply Forall_cons in H2 as [_ ?].
Qed.

Lemma warehouseTotals_cells (row : Row) (cols : list string)
  (t : Z) (bd : list (string * JsNum)) :
  fold_left
    (fun '(warehouseStock, warehouseBreakdown) col =>
       let stock := parseInt (Js.or (findColumnValue row [col]) (VNum (Num 0))) in
       if Js.gt stock (Num 0)
       then (Js.add warehouseStock stock, warehouseBreakdown ++ [(col, stock)])
       else (warehouseStock, warehouseBreakdown))
    cols (Num t, bd) =
  (Num (t + total (map (fun col => positivePart (warehouseCell row col)) cols)),
   bd ++ map (fun col => (col, warehouseCell row col))
           (filter (fun col => Js.gt (warehouseCell row col) (Num 0) = true) cols)).
Proof.
  revert t bd. induction cols as [|col cols IH]; intros t bd.
  - cbn [fold_left map total fold_right]. rewrite filter_nil. cbn [map].
    rewrite app_nil_r. do 2 f_equal. lia.
  - cbn [fold_left]. fold (warehouseCell row col). rewrite filter_cons.
    destruct (warehouseCell row col) as [|z] eqn:Hc; cbn [Js.gt].
    + rewrite decide_False by done. rewrite IH. cbn [map total fold_right].
      rewrite Hc. cbn [positivePart]. do 2 f_equal; unfold total; lia.
    + destruct (Z.ltb_spec 0 z) as [Hz | Hz].
      * rewrite decide_True by done. cbn [Js.add]. rewrite IH.
        cbn [map total fold_right]. rewrite Hc. cbn [positivePart].
        rewrite <- app_assoc. cbn [app]. do 2 f_equal; unfold total; lia.
      * rewrite decide_False by done. rewrite IH. cbn [map total fold_right].
        rewrite Hc. cbn [positivePart]. do 2 f_equal; unfold total; lia.
Qed.

Lemma total_positivePart (row : Row) (cols : list string) :
  0 <= total (map (fun col => positivePart (warehouseCell row col)) cols).
Proof.
  induction cols as [|col cols IH]; cbn [map total fold_right]; [lia |].
  fold (total (map (fun col => positivePart (warehouseCell row col)) cols)).
  destruct (warehouseCell row col); cbn [positivePart]; lia.
Qed.

(** X3.  The warehouse total of a row is read from its fifteen warehouse
    cells: it is the sum, over the warehouse columns, of the readings that
    are positive, so that a cell that is missing, reads [NaN] or reads 0 or
    less adds nothing; it is a number, never [NaN] and never negative.  The
    breakdown holds, in column order, exactly the columns with a positive
    reading, each with its reading.  A missing cell reads 0, an integer cell
    reads as itself, a number with a fraction as its integer part and a text
    cell as [parseInt] reads it. *)
Theorem warehouseTotals_positive_sum (row : Row) :
  let counted :=
    filter (fun col => Js.gt (warehouseCell row col) (Num 0) = true) warehouseColumns in
  let sum := total (map (fun col => positivePart (warehouseCell row col)) warehouseColumns) in
  fst (warehouseTotals row) = Num sum /\
  0 <= sum /\
  snd (warehouseTotals row) = map (fun col => (col, warehouseCell row col)) counted /\
  (forall col z, (col, Num z) ∈ snd (warehouseTotals row) <->
     col ∈ warehouseColumns /\ warehouseCell row col = Num z /\ 0 < z) /\
  (forall col, usable (row_get row col) = false -> warehouseCell row col = Num 0) /\
  (forall col z, row_get row col = VNum (Num z) -> Z.abs z < 10 ^ 21 ->
     warehouseCell row col = Num z) /\
  (forall col d, row_get row col = VDec d -> JsDec.digits d <> Decimal.Nil ->
     warehouseCell row col = Num (integerRead d)) /\
  (forall col s, row_get row col = VStr s -> s <> "" ->
     warehouseCell row col = parseInt_str s).
Proof.
  intros counted sum.
  assert (H : warehouseTotals row =
              (Num sum, map (fun col => (col, warehouseCell row col)) counted)).
  { unfold warehouseTotals. rewrite warehouseTotals_cells.
    by rewrite app_nil_l, Z.add_0_l. }
  assert (Hcell : forall col,
            warehouseCell row col =
            parseInt (Js.or (if usable (row_get row col) then row_get row col else VNull)
                            (VNum (Num 0)))).
  { intros col. unfold warehouseCell. by rewrite findColumnValue_cons. }
  split_and!.
  - by rewrite H.
  - apply total_positivePart.
  - by rewrite H.
  - intros col z. rewrite H. cbn [snd]. subst counted.
    rewrite list_elem_of_In, in_map_iff. split.
    + intros (c & [= -> Hz] & Hin). apply list_elem_of_In in Hin.
      apply list_elem_of_filter in Hin as [Hgt Hin].
      split_and!; try done. rewrite Hz in Hgt. cbn [Js.gt] in Hgt. lia.
    + intros (Hin & Hc & Hz). exists col. split; [by rewrite Hc |].
      apply list_elem_of_In, list_elem_of_filter. split; [| done].
      rewrite Hc. cbn [Js.gt]. lia.
  - intros col Hu. by rewrite Hcell, Hu.
  - intros col z Hz _. rewrite Hcell, Hz. cbn [usable strict_eq negb andb].
    apply parseInt_or_integer.
  - intros col d Hd Hnil. rewrite Hcell, Hd. cbn [usable strict_eq negb andb].
    unfold Js.or. cbn [truthy]. by apply parseInt_decimal.
  - intros col s' Hs Hne. rewrite Hcell, Hs. unfold usable. cbn [strict_eq negb andb].
    apply String.eqb_neq in Hne. rewrite Hne. cbn [negb]. unfold Js.or. cbn [truthy].
    rewrite Hne. reflexivity.
Qed.

(** ** Marketplace detection *)

Lemma columns_include (row : Row) (p : string) :
  existsb (fun col => includes col p) (map (fun '(k, _) => toLowerCase k) row) = true <->
  hasColumn row p.
Proof.
  rewrite existsb_exists. unfold hasColumn. split.
  - intros (col & Hin & Hc). apply in_map_iff in Hin as ([k v] & <- & Hin).
    exists k, v. by rewrite <- includes_spec.
  - intros (k & v & Hin & Hc). exists (toLowerCase k). split.
    + apply in_map_iff. by exists (k, v).
    + by apply includes_spec.
Qed.

Lemma columns_include2 (row : Row) (p q : string) :
  existsb (fun col => includes col p || includes col q)
    (map (fun '(k, _) => toLowerCase k) row) = true <->
  hasColumn row p \/ hasColumn row q.
Proof.
  rewrite existsb_exists. unfold hasColumn. split.
  - intros (col & Hin & Hc). apply in_map_iff in Hin as ([k v] & <- & Hin).
    apply orb_true_iff in Hc as [Hc | Hc]; apply includes_spec in Hc;
      [left | right]; by exists k, v.
  - intros [(k & v & Hin & Hc) | (k & v & Hin & Hc)];
      (exists (toLowerCase k); split; [apply in_map_iff; by exists (k, v) |]);
      apply includes_spec in Hc; rewrite Hc; [done | apply orb_true_r].
Qed.

(** X4.  The classifier looks at the column names of the first row only,
    case-insensitively, and decides in a fixed order: a column containing
    "msku" gives meesho even when amazon or flipkart columns are present;
    otherwise "asin" or "amazon" gives amazon; otherwise "flipkart" or "fsn"
    gives flipkart; otherwise "sku" gives generic; otherwise, and for an
    empty table, unknown. *)
Theorem detectMarketplace_decision (firstRow : Row) (rest : list Row) :
  let tag := detectMarketplace (firstRow :: rest) in
  detectMarketplace [] = "unknown" /\
  tag = detectMarketplace [firstRow] /\
  (tag = "meesho" <-> hasColumn firstRow "msku") /\
  (tag = "amazon" <->
     ~ hasColumn firstRow "msku" /\
     (hasColumn firstRow "asin" \/ hasColumn firstRow "amazon")) /\
  (tag = "flipkart" <->
     ~ hasColumn firstRow "msku" /\
     ~ (hasColumn firstRow "asin" \/ hasColumn firstRow "amazon") /\
     (hasColumn firstRow "flipkart" \/ hasColumn firstRow "fsn")) /\
  (tag = "generic" <->
     ~ hasColumn firstRow "msku" /\
     ~ (hasColumn firstRow "asin" \/ hasColumn firstRow "amazon") /\
     ~ (hasColumn firstRow "flipkart" \/ hasColumn firstRow "fsn") /\
     hasColumn firstRow "sku") /\
  (tag = "unknown" <->
     ~ hasColumn firstRow "msku" /\
     ~ (hasColumn firstRow "asin" \/ hasColumn firstRow "amazon") /\
     ~ (hasColumn firstRow "flipkart" \/ hasColumn firstRow "fsn") /\
     ~ hasColumn firstRow "sku").
Proof.
  intros tag. subst tag. unfold detectMarketplace.
  pose proof (columns_include firstRow "msku") as H1.
  pose proof (columns_include2 firstRow "asin" "amazon") as H2.
  pose proof (columns_include2 firstRow "flipkart" "fsn") as H3.
  pose proof (columns_include firstRow "sku") as H4.
  destruct (existsb _ _) in H1 |- *.
  { assert (hasColumn firstRow "msku") by by apply H1.
    split_and!; try done; split; try done; tauto. }
  assert (Hn1 : ~ hasColumn firstRow "msku") by (intros ?%H1; done).
  destruct (existsb _ _) in H2 |- *.
  { assert (hasColumn firstRow "asin" \/ hasColumn firstRow "amazon") by by apply H2.
    split_and!; try done; split; try done; tauto. }
  assert (Hn2 : ~ (hasColumn firstRow "asin" \/ hasColumn firstRow "amazon"))
    by (intros ?%H2; done).
  destruct (existsb _ _) in H3 |- *.
  { assert (hasColumn firstRow "flipkart" \/ hasColumn firstRow "fsn") by by apply H3.
    split_and!; try done; split; try done; tauto. }
  assert (Hn3 : ~ (hasColumn firstRow "flipkart" \/ hasColumn firstRow "fsn"))
    by (intros ?%H3; done).
  destruct (existsb _ _) in H4 |- *.
  { assert (hasColumn firstRow "sku") by by apply H4.
    split_and!; try done; split; try done; tauto. }
  assert (Hn4 : ~ hasColumn firstRow "sku") by (intros ?%H4; done).
  split_and!; try done; split; try done; tauto.
Qed.

(** ** The mapping table *)

Lemma loadMasterData_app (data1 data2 : list Row) (st : State) :
  loadMasterData (data1 ++ data2) st = loadMasterData data2 (loadMasterData data1 st).
Proof. apply fold_left_app. Qed.

Lemma loadMasterData_row_get (st : State) (row : Row) (s1 s2 : string) :
  findColumnValue row ["sku"; "SKU"; "Sku"] = VStr s1 ->
  findColumnValue row ["msku"; "MSKU"; "Msku"] = VStr s2 ->
  s1 <> s2 ->
  JsMap.get (trim s1) (skuToMsku (loadMasterData_row st row)) = Some (trim s2).
Proof.
  intros H1 H2 Hne. unfold loadMasterData_row.
  pose proof (findColumnValue_string_truthy _ _ _ H1) as Ht1.
  pose proof (findColumnValue_string_truthy _ _ _ H2) as Ht2.
  rewrite H1, H2, Ht1, Ht2. cbn [strict_eq andb].
  apply String.eqb_neq in Hne as ->. cbn [negb skuToMsku ToString].
  apply get_set_eq.
Qed.

(** X5.  Load, then look up: after a master file whose last row maps the
    text [s1] to a different text [s2], every marketplace other than meesho
    normalises the SKU [s1] to the trimmed [s2], whatever earlier rows or
    earlier loads said about it. *)
Theorem loadMasterData_then_lookup
  (st : State) (data : list Row) (row : Row) (s1 s2 marketplace : string) :
  findColumnValue row ["sku"; "SKU"; "Sku"] = VStr s1 ->
  findColumnValue row ["msku"; "MSKU"; "Msku"] = VStr s2 ->
  s1 <> s2 ->
  marketplace <> "meesho" ->
  mapSkuToMsku (loadMasterData (data ++ [row]) st) (VStr s1) marketplace = trim s2.
Proof.
  intros H1 H2 Hne Hm. rewrite loadMasterData_app. cbn [loadMasterData fold_left].
  unfold mapSkuToMsku. rewrite (findColumnValue_string_truthy _ _ _ H1).
  apply String.eqb_neq in Hm as ->. cbn [ToString].
  by rewrite (loadMasterData_row_get _ _ _ _ H1 H2 Hne).
Qed.

Lemma loadMasterData_then_lookup_witness :
  mapSkuToMsku
    (loadMasterData ([[("sku", VStr "A1"); ("msku", VStr "OLD")]] ++
                     [[("sku", VStr " A1"); ("msku", VStr "M1 ")]]) masterData0)
    (VStr " A1") "amazon" = trim "M1 ".
Proof.
  apply (loadMasterData_then_lookup masterData0
           [[("sku", VStr "A1"); ("msku", VStr "OLD")]]
           [("sku", VStr " A1"); ("msku", VStr "M1 ")] " A1" "M1 " "amazon");
    [reflexivity | reflexivity | discriminate | discriminate].
Defined.

Lemma size_set {V : Type} (m : JsMap.t V) (k : string) (v : V) :
  (JsMap.size m <= JsMap.size (JsMap.set k v m))%nat.
Proof.
  unfold JsMap.size. induction m as [|[k0 v0] m IH]; simpl; [lia |].
  destruct (String.eqb k0 k); simpl; lia.
Qed.

Lemma loadMasterData_grows (data : list Row) (st : State) :
  (JsMap.size (skuToMsku st) <= JsMap.size (skuToMsku (loadMasterData data st)))%nat /\
  (forall k, JsMap.has k (skuToMsku st) = true ->
             JsMap.has k (skuToMsku (loadMasterData data st)) = true).
Proof.
  unfold loadMasterData. revert st. induction data as [|row data IH]; intros st; [done |].
  cbn [fold_left]. destruct (IH (loadMasterData_row st row)) as [IH1 IH2].
  assert (Hrow :
    (JsMap.size (skuToMsku st) <= JsMap.size (skuToMsku (loadMasterData_row st row)))%nat /\
    (forall k, JsMap.has k (skuToMsku st) = true ->
               JsMap.has k (skuToMsku (loadMasterData_row st row)) = true)).
  { unfold loadMasterData_row. destruct (_ && _); [| done]. cbn [skuToMsku]. split.
    - apply size_set.
    - intros k Hk. rewrite has_set, Hk. apply orb_true_r. }
  destruct Hrow as [Hr1 Hr2]. split; [lia | auto].
Qed.

Lemma resetInventory_tables (st : State) :
  skuToMsku (resetInventory st) = skuToMsku st /\
  comboSkus (resetInventory st) = comboSkus st.
Proof.
  unfold resetInventory. generalize (originalInventory st) as l. intros l. revert st.
  induction l as [|[k r] l IH]; intros st; [done |].
  cbn [fold_left]. destruct (IH (resetInventory_entry st (k, r))) as [-> ->].
  unfold resetInventory_entry. by destruct (heap st !! r).
Qed.

Lemma reconcile_tables (m : JsMap.t Z) (st : State) :
  skuToMsku (reconcile st m) = skuToMsku st /\
  comboSkus (reconcile st m) = comboSkus st.
Proof.
  unfold reconcile. rewrite snd_updateInventoryWithSales. unfold inventoryUpdatesUnsorted.
  generalize (@nil InventoryUpdate.t) as ups. revert st.
  induction m as [|[k q] m IH]; intros st ups; [done |].
  cbn [fold_left].
  destruct (updateInventoryWithSales_entry (ups, st) (k, q)) as [ups1 st1] eqn:He.
  destruct (IH st1 ups1) as [-> ->].
  unfold updateInventoryWithSales_entry in He.
  destruct (JsMap.get k (currentInventory st)) as [r|]; [| by injection He as _ <-].
  destruct (heap st !! r); by injection He as _ <-.
Qed.

Lemma op_tables (st : State) (o : Op) :
  comboSkus (op st o) = comboSkus st /\
  (JsMap.size (skuToMsku st) <= JsMap.size (skuToMsku (op st o)))%nat /\
  (forall k, JsMap.has k (skuToMsku st) = true ->
             JsMap.has k (skuToMsku (op st o)) = true).
Proof.
  destruct o as [req | | m]; cbn [op].
  - rewrite process_orders_state. unfold passesGuard, masterDataGuard.
    destruct (files req) as [fs|]; [| done].
    destruct (Files.masterFile fs) as [data|].
    + destruct (reconcile_tables (soldOf (loadMasterData data st) fs)
                  (resetInventory (loadMasterData data st))) as [-> ->].
      destruct (resetInventory_tables (loadMasterData data st)) as [-> ->].
      destruct (loadMasterData_inventory data st) as (_ & _ & _ & ->).
      destruct (loadMasterData_grows data st) as [? ?]. done.
    + destruct (_ =? _)%nat; [done |].
      destruct (reconcile_tables (soldOf st fs) (resetInventory st)) as [-> ->].
      destruct (resetInventory_tables st) as [-> ->]. done.
  - unfold reset_inventory. destruct (resetInventory_tables st) as [-> ->]. done.
  - destruct (reconcile_tables m st) as [-> ->]. done.
Qed.

Lemma run_tables (ops : list Op) (st : State) :
  comboSkus (run ops st) = comboSkus st /\
  (JsMap.size (skuToMsku st) <= JsMap.size (skuToMsku (run ops st)))%nat /\
  (forall k, JsMap.has k (skuToMsku st) = true ->
             JsMap.has k (skuToMsku (run ops st)) = true).
Proof.
  unfold run. revert st. induction ops as [|o ops IH]; intros st; [done |].
  cbn [fold_left]. destruct (op_tables st o) as (Hc & Hs & Hh).
  destruct (IH (op st o)) as (-> & Hs' & Hh'). split_and!; [done | lia | auto].
Qed.

(** X6.  The mapping table only grows: no request, reset or pass removes
    a mapping or changes the combo table.  So a request is answered 400 only
    while no mapping was ever loaded: once the table is not empty, every
    later request with files passes the guard, with or without a master
    file. *)
Theorem skuToMsku_only_grows (st : State) (ops : list Op) (req : Request) :
  comboSkus (run ops st) = comboSkus st /\
  (JsMap.size (skuToMsku st) <= JsMap.size (skuToMsku (run ops st)))%nat /\
  (forall k, JsMap.has k (skuToMsku st) = true ->
             JsMap.has k (skuToMsku (run ops st)) = true) /\
  (forall fs, masterDataGuard fs (run ops st) = None ->
     JsMap.size (skuToMsku st) = 0%nat /\ Files.masterFile fs = None) /\
  (forall error, fst (process_orders req (run ops st)) = Status400 error ->
     JsMap.size (skuToMsku st) = 0%nat /\
     exists fs, files req = Some fs /\ Files.masterFile fs = None).
Proof.
  destruct (run_tables ops st) as (Hc & Hs & Hh).
  assert (Hguard : forall fs, masterDataGuard fs (run ops st) = None ->
                   JsMap.size (skuToMsku st) = 0%nat /\ Files.masterFile fs = None).
  { intros fs. unfold masterDataGuard. destruct (Files.masterFile fs); [done |].
    destruct (Nat.eqb_spec (JsMap.size (skuToMsku (run ops st))) 0); [| done].
    intros _. split; [lia | done]. }
  split_and!; try done.
  intros error. unfold process_orders.
  destruct (files req) as [fs|]; [| done].
  destruct (masterDataGuard fs (run ops st)) as [st1|] eqn:Hg.
  - by destruct (updateInventoryWithSales _ _).
  - intros _. destruct (Hguard fs Hg) as [? ?]. split; [done |]. by exists fs.
Qed.

(** ** The combo table *)

Lemma comboComponents_fold (row : Row) (slots : list Z) (acc : list Component.t) :
  Forall (fun c => Component.quantity c = 1 /\ Component.msku c <> "") acc ->
  let result :=
    fold_left
      (fun components i =>
         let component :=
           findColumnValue row ["SKU" +:+ string_of_Z i; "sku" +:+ string_of_Z i] in
         if truthy component
            && negb (String.eqb (trim (ToString component)) "")
         then components ++ [Component.mk (trim (ToString component)) 1]
         else components)
      slots acc in
  (length result <= length acc + length slots)%nat /\
  Forall (fun c => Component.quantity c = 1 /\ Component.msku c <> "") result.
Proof.
  revert acc. induction slots as [|i slots IH]; intros acc Hacc; cbn [fold_left].
  - split; [simpl; lia | done].
  - cbv zeta.
    set (component := findColumnValue row ["SKU" +:+ string_of_Z i; "sku" +:+ string_of_Z i]).
    destruct (truthy component && negb (String.eqb (trim (ToString component)) ""))
      eqn:Hc.
    + destruct (IH (acc ++ [Component.mk (trim (ToString component)) 1]))
        as [Hlen Hall].
      * apply Forall_app. split; [done |]. constructor; [| constructor].
        split; [done |]. simpl. apply andb_true_iff in Hc as [_ Hc].
        by apply negb_true_iff, String.eqb_neq in Hc.
      * split; [| exact Hall]. eapply Nat.le_trans; [exact Hlen |].
        rewrite length_app. cbn [length]. lia.
    + destruct (IH acc Hacc) as [Hlen Hall]. split; [| done].
      eapply Nat.le_trans; [exact Hlen |]. cbn [length]. lia.
Qed.

Lemma Forall_values_set {V : Type} (P : V -> Prop) (m : JsMap.t V) (k : string) (v : V) :
  P v -> Forall P (JsMap.values m) -> Forall P (JsMap.values (JsMap.set k v m)).
Proof.
  intros Hv. induction m as [|[k0 v0] m IH]; simpl; intros Hm.
  - by repeat constructor.
  - apply Forall_cons in Hm as [H0 Hm].
    destruct (String.eqb k0 k); simpl; constructor; auto.
Qed.

Lemma get_values {V : Type} (m : JsMap.t V) (k : string) (v : V) :
  JsMap.get k m = Some v -> v ∈ JsMap.values m.
Proof.
  intros H. apply get_Some_elem in H. unfold JsMap.values.
  apply list_elem_of_fmap. by exists (k, v).
Qed.

Lemma loadComboData_ok (data : list Row) (st : State) :
  Forall comboOk (JsMap.values (comboSkus st)) ->
  Forall comboOk (JsMap.values (comboSkus (loadComboData data st))).
Proof.
  unfold loadComboData. revert st. induction data as [|row data IH]; intros st Hst; [done |].
  cbn [fold_left]. apply IH. unfold loadComboData_row.
  destruct (_ && _); [| done].
  destruct (Nat.ltb_spec 0 (length (comboComponents row))) as [Hlen | Hlen]; [| done].
  cbn [comboSkus]. apply Forall_values_set; [| done].
  destruct (comboComponents_fold row comboSlots [] (Forall_nil_2 _)) as [Hle Hall].
  fold (comboComponents row) in Hle, Hall.
  split_and!; [| exact Hle | exact Hall].
  intros Hnil. rewrite Hnil in Hlen. simpl in Hlen. lia.
Qed.

Lemma loadCurrentInventory_from_tables (index : nat) (data : list Row) (st : State) :
  skuToMsku (fst (loadCurrentInventory_from index data st)) = skuToMsku st /\
  comboSkus (fst (loadCurrentInventory_from index data st)) = comboSkus st.
Proof.
  revert index st. induction data as [|row data IH]; intros index st; [done |].
  cbn [loadCurrentInventory_from].
  assert (Hrow : skuToMsku (loadCurrentInventory_row st row) = skuToMsku st /\
                 comboSkus (loadCurrentInventory_row st row) = comboSkus st).
  { unfold loadCurrentInventory_row. by destruct (_ && _). }
  destruct Hrow as [H1 H2].
  destruct (debugLogThrows index row); [done |].
  destruct (IH (S index) (loadCurrentInventory_row st row)) as [-> ->]. done.
Qed.

Lemma startup_combos_ok (masterSkuFile comboFile inventoryFile : option (list Row))
  (ops : list Op) :
  Forall comboOk
    (JsMap.values
       (comboSkus (run ops (loadMasterFilesOnStartup masterSkuFile comboFile inventoryFile)))).
Proof.
  destruct (run_tables ops (loadMasterFilesOnStartup masterSkuFile comboFile inventoryFile))
    as (-> & _ & _).
  unfold loadMasterFilesOnStartup.
  set (st1 := match masterSkuFile with Some data => _ | None => _ end).
  assert (H1 : Forall comboOk (JsMap.values (comboSkus st1))).
  { subst st1. destruct masterSkuFile as [data|]; [| constructor].
    destruct (loadMasterData_inventory data masterData0) as (_ & _ & _ & ->). constructor. }
  set (st2 := match comboFile with Some data => _ | None => _ end).
  assert (H2 : Forall comboOk (JsMap.values (comboSkus st2))).
  { subst st2. destruct comboFile as [data|]; [| done]. by apply loadComboData_ok. }
  destruct inventoryFile as [data|]; [| done].
  unfold loadCurrentInventory.
  destruct (loadCurrentInventory_from_tables 0 data st2) as [_ ->]. done.
Qed.

(** X7.  Every combo the server ever holds has between 1 and 14
    components, each with quantity 1 and a non-empty MSKU: a combo row with
    no filled slot is not stored, and nothing after start-up touches the
    table. *)
Theorem comboSkus_well_formed
  (masterSkuFile comboFile inventoryFile : option (list Row)) (ops : list Op) :
  let st := run ops (loadMasterFilesOnStartup masterSkuFile comboFile inventoryFile) in
  Forall comboOk (JsMap.values (comboSkus st)) /\
  Forall (fun '(_, components) => comboOk components)
    (CombosResponse.combos (get_combos st)) /\
  CombosResponse.totalCombos (get_combos st) = JsMap.size (comboSkus st).
Proof.
  intros st.
  pose proof (startup_combos_ok masterSkuFile comboFile inventoryFile ops) as H.
  fold st in H. split_and!; [done | | done].
  cbn [get_combos CombosResponse.combos].
  apply Forall_forall. intros [k cs] Hin. apply (proj1 (Forall_forall _ _) H).
  unfold JsMap.values. apply list_elem_of_fmap. by exists (k, cs).
Qed.

Lemma expandComboSku_shape
  (masterSkuFile comboFile inventoryFile : option (list Row)) (ops : list Op)
  (sku : JsVal) (marketplace : string) :
  let st := run ops (loadMasterFilesOnStartup masterSkuFile comboFile inventoryFile) in
  comboOk (expandComboSku st sku marketplace) \/
  expandComboSku st sku marketplace = [Component.mk (mapSkuToMsku st sku marketplace) 1].
Proof.
  intros st.
  pose proof (startup_combos_ok masterSkuFile comboFile inventoryFile ops) as H.
  fold st in H.
  assert (Hcombo : forall k cs, JsMap.get k (comboSkus st) = Some cs -> comboOk cs).
  { intros k cs Hg. apply get_values in Hg. by apply (proj1 (Forall_forall _ _) H). }
  unfold expandComboSku.
  destruct (JsMap.get (mapSkuToMsku st sku marketplace) (comboSkus st)) as [cs|] eqn:Hg.
  - left. by apply (Hcombo _ _ Hg).
  - unfold comboSkus_get. destruct sku as [| | | |s|d]; try (by right).
    destruct (JsMap.get s (comboSkus st)) as [cs|] eqn:Hg'; [| by right].
    left. by apply (Hcombo _ _ Hg').
Qed.

Lemma expandComboSku_unit_quantities
  (masterSkuFile comboFile inventoryFile : option (list Row)) (ops : list Op)
  (sku : JsVal) (marketplace : string) :
  let st := run ops (loadMasterFilesOnStartup masterSkuFile comboFile inventoryFile) in
  Forall (fun item => Component.quantity item = 1) (expandComboSku st sku marketplace).
Proof.
  intros st.
  destruct (expandComboSku_shape masterSkuFile comboFile inventoryFile ops sku marketplace)
    as [(_ & _ & Hall) | Heq]; fold st in Hall || fold st in Heq.
  - eapply Forall_impl; [exact Hall |]. by intros c [? _].
  - rewrite Heq. by repeat constructor.
Qed.

(** X8.  Expansion never yields an empty list.  When the combo table has
    an entry under the normalised MSKU the result is that entry, otherwise
    when it has one under the raw SKU the result is that entry, and a stored
    entry has 1 to 14 components with non-empty MSKUs; without an entry the
    result is the single component of the SKU's own normalised MSKU.  Every
    component has quantity 1. *)
Theorem expandComboSku_never_empty
  (masterSkuFile comboFile inventoryFile : option (list Row)) (ops : list Op)
  (sku : JsVal) (marketplace : string) :
  let st := run ops (loadMasterFilesOnStartup masterSkuFile comboFile inventoryFile) in
  let mappedMsku := mapSkuToMsku st sku marketplace in
  let expandedItems := expandComboSku st sku marketplace in
  expandedItems <> [] /\
  (length expandedItems <= 14)%nat /\
  Forall (fun item => Component.quantity item = 1) expandedItems /\
  match JsMap.get mappedMsku (comboSkus st), comboSkus_get st sku with
  | Some components, _ =>
      expandedItems = components /\ comboOk components /\
      (mappedMsku, components) ∈ CombosResponse.combos (get_combos st)
  | None, Some components =>
      expandedItems = components /\ comboOk components /\
      exists raw, sku = VStr raw /\
                  (raw, components) ∈ CombosResponse.combos (get_combos st)
  | None, None => expandedItems = [Component.mk mappedMsku 1]
  end.
Proof.
  intros st mappedMsku expandedItems. subst expandedItems.
  pose proof (startup_combos_ok masterSkuFile comboFile inventoryFile ops) as H.
  fold st in H.
  assert (Hcombo : forall k cs, JsMap.get k (comboSkus st) = Some cs -> comboOk cs).
  { intros k cs Hg. apply get_values in Hg. by apply (proj1 (Forall_forall _ _) H). }
  assert (Hshape : forall cs, comboOk cs ->
            cs <> [] /\ (length cs <= 14)%nat /\
            Forall (fun item => Component.quantity item = 1) cs).
  { intros cs (Hne & Hlen & Hall). split_and!; try done.
    eapply Forall_impl; [exact Hall |]. by intros c [? _]. }
  unfold expandComboSku. fold mappedMsku.
  destruct (JsMap.get mappedMsku (comboSkus st)) as [cs|] eqn:Hg.
  - destruct (Hshape cs (Hcombo _ _ Hg)) as (? & ? & ?).
    split_and!; try done; [by apply (Hcombo _ _ Hg) |].
    cbn [get_combos CombosResponse.combos]. by apply get_Some_elem.
  - destruct (comboSkus_get st sku) as [cs|] eqn:Hg'.
    + destruct sku as [| | | |raw|d]; try discriminate Hg'. cbn [comboSkus_get] in Hg'.
      destruct (Hshape cs (Hcombo _ _ Hg')) as (? & ? & ?).
      split_and!; try done; [by apply (Hcombo _ _ Hg') |].
      exists raw. split; [done |].
      cbn [get_combos CombosResponse.combos]. by apply get_Some_elem.
    + split_and!; try done; [simpl; lia | by repeat constructor].
Qed.

(** ** The batch processor *)

(** Induction over a batch: a property of the accumulators that holds at
    the start and is kept by every component of every counted row holds of
    the result. *)
Lemma processOrderData_ind (st : State) (marketplace : string)
  (I : BatchResult.t -> Prop) :
  I (BatchResult.mk [] JsMap.empty []) ->
  (forall acc order quantity item,
     let info := extractOrderInfo order marketplace in
     let expandedItems := expandComboSku st (OrderInfo.sku info) marketplace in
     shouldProcessOrder (OrderInfo.status info) marketplace = true ->
     truthy (OrderInfo.sku info) = true ->
     OrderInfo.quantity info = Num quantity -> 0 < quantity ->
     item ∈ expandedItems ->
     I acc ->
     I (processOrderData_item marketplace info quantity
          (1 <? length expandedItems)%nat acc item)) ->
  forall orderData, I (processOrderData st orderData marketplace).
Proof.
  intros Hinit Hstep orderData. unfold processOrderData.
  generalize dependent (BatchResult.mk [] JsMap.empty []).
  induction orderData as [|order orderData IH]; intros acc Hacc; [done |].
  cbn [fold_left]. apply IH. unfold processOrderData_order.
  destruct (shouldProcessOrder _ _) eqn:Hgate; [| done].
  destruct (truthy _) eqn:Hsku; [| done].
  destruct (OrderInfo.quantity (extractOrderInfo order marketplace)) as [|q] eqn:Hq;
    [done |].
  cbn [andb Js.gt]. destruct (Z.ltb_spec 0 q) as [Hpos | Hpos]; [| done].
  set (expandedItems :=
         expandComboSku st (OrderInfo.sku (extractOrderInfo order marketplace)) marketplace).
  assert (Hitems : forall items acc',
            (forall item, item ∈ items -> item ∈ expandedItems) -> I acc' ->
            I (fold_left
                 (processOrderData_item marketplace (extractOrderInfo order marketplace) q
                    (1 <? length expandedItems)%nat) items acc')).
  { induction items as [|item items IHi]; intros acc' Hsub Hacc'; [done |].
    cbn [fold_left]. apply IHi.
    - intros item' Hin. apply Hsub. by apply list_elem_of_further.
    - apply (Hstep acc' order q item); try done. apply Hsub. apply list_elem_of_here. }
  by apply Hitems.
Qed.

Lemma total_app (l1 l2 : list Z) : total (l1 ++ l2) = total l1 + total l2.
Proof. induction l1 as [|a l1 IH]; simpl; [lia |]. rewrite IH. lia. Qed.

Lemma fold_left_add_total (l : list Z) (a : Z) :
  fold_left (fun sum qty => sum + qty) l a = a + total l.
Proof.
  revert a. induction l as [|q l IH]; intros a; simpl; [lia |]. rewrite IH. lia.
Qed.

Lemma sumQuantities_total (m : JsMap.t Z) : sumQuantities m = total (JsMap.values m).
Proof. unfold sumQuantities. by rewrite fold_left_add_total. Qed.

Lemma quantityFor_set (m : JsMap.t Z) (k k' : string) (v : Z) :
  quantityFor k' (JsMap.set k v m) = if bool_decide (k' = k) then v else quantityFor k' m.
Proof. unfold quantityFor. rewrite get_set. by case_bool_decide. Qed.

Lemma sumQuantities_add (m : JsMap.t Z) (k : string) (q : Z) :
  sumQuantities (JsMap.set k (quantityFor k m + q) m) = sumQuantities m + q.
Proof.
  rewrite !sumQuantities_total. unfold quantityFor.
  induction m as [|[k0 v0] m IH]; simpl; [lia |].
  destruct (String.eqb k0 k); simpl; [lia |]. rewrite IH. lia.
Qed.

Lemma lineQuantitiesFor_snoc (k : string) (lines : list ProcessedOrder.t)
  (l : ProcessedOrder.t) :
  total (lineQuantitiesFor k (lines ++ [l])) =
  total (lineQuantitiesFor k lines) +
  (if bool_decide (ProcessedOrder.mappedMsku l = k) then ProcessedOrder.quantity l else 0).
Proof.
  unfold lineQuantitiesFor. rewrite filter_app, map_app, total_app.
  rewrite filter_cons, filter_nil. case_decide as Hd.
  - rewrite bool_decide_eq_true_2 by done. simpl. lia.
  - rewrite bool_decide_eq_false_2 by done. simpl. lia.
Qed.

Lemma processOrderData_sums (st : State) (orderData : list Row)
  (marketplace : string) :
  let result := processOrderData st orderData marketplace in
  (forall k, quantityFor k (BatchResult.msquQuantityMap result) =
             total (lineQuantitiesFor k (BatchResult.processedOrders result))) /\
  sumQuantities (BatchResult.msquQuantityMap result) =
    total (map ProcessedOrder.quantity (BatchResult.processedOrders result)) /\
  NoDup (JsMap.keys (BatchResult.msquQuantityMap result)) /\
  (forall k, JsMap.has k (BatchResult.msquQuantityMap result) = true <->
             exists l, l ∈ BatchResult.processedOrders result /\
                       ProcessedOrder.mappedMsku l = k).
Proof.
  apply (processOrderData_ind st marketplace
    (fun result =>
       (forall k, quantityFor k (BatchResult.msquQuantityMap result) =
                  total (lineQuantitiesFor k (BatchResult.processedOrders result))) /\
       sumQuantities (BatchResult.msquQuantityMap result) =
         total (map ProcessedOrder.quantity (BatchResult.processedOrders result)) /\
       NoDup (JsMap.keys (BatchResult.msquQuantityMap result)) /\
       (forall k, JsMap.has k (BatchResult.msquQuantityMap result) = true <->
                  exists l, l ∈ BatchResult.processedOrders result /\
                            ProcessedOrder.mappedMsku l = k))).
  - split_and!; try done; [apply NoDup_nil_2 |].
    intros k. split; [done |]. intros (l & Hl & _). by apply elem_of_nil in Hl.
  - intros acc order q item info expandedItems _ _ _ _ _ (Hk & Hsum & Hnd & Hhas).
    unfold processOrderData_item.
    destruct (String.eqb_spec (Component.msku item) "") as [Hm | Hm]; cbn [negb].
    { done. }
    cbn [BatchResult.msquQuantityMap BatchResult.processedOrders].
    fold (quantityFor (Component.msku item) (BatchResult.msquQuantityMap acc)).
    split_and!.
    + intros k. rewrite quantityFor_set, lineQuantitiesFor_snoc.
      cbn [ProcessedOrder.mappedMsku ProcessedOrder.quantity].
      rewrite <- !Hk. case_bool_decide as Hd.
      * subst. rewrite bool_decide_eq_true_2 by done. done.
      * rewrite bool_decide_eq_false_2 by (intros Heq; by apply Hd). lia.
    + rewrite sumQuantities_add, map_app, total_app, Hsum. simpl. lia.
    + by apply NoDup_keys_set.
    + intros k. rewrite has_set, orb_true_iff, Hhas. split.
      * intros [Hd | (l & Hl & Hlk)].
        -- apply bool_decide_eq_true_1 in Hd. subst. eexists. split.
           ++ apply elem_of_app. right. apply list_elem_of_here.
           ++ done.
        -- exists l. split; [| done]. apply elem_of_app. by left.
      * intros (l & Hl & Hlk). apply elem_of_app in Hl as [Hl | Hl].
        -- right. by exists l.
        -- apply list_elem_of_singleton in Hl. subst. left. by apply bool_decide_eq_true_2.
Qed.

(** X9.  A batch conserves quantities: for every MSKU the map holds the
    sum of the quantities of the order lines that went to it (0 and no entry
    when there is none), and the total of the map is the total of all
    lines.  The map has one entry per MSKU. *)
Theorem processOrderData_conserves (st : State) (orderData : list Row)
  (marketplace : string) :
  let result := processOrderData st orderData marketplace in
  (forall k, quantityFor k (BatchResult.msquQuantityMap result) =
             total (lineQuantitiesFor k (BatchResult.processedOrders result))) /\
  sumQuantities (BatchResult.msquQuantityMap result) =
    total (map ProcessedOrder.quantity (BatchResult.processedOrders result)) /\
  NoDup (JsMap.keys (BatchResult.msquQuantityMap result)) /\
  (forall k, JsMap.has k (BatchResult.msquQuantityMap result) = true <->
             exists l, l ∈ BatchResult.processedOrders result /\
                       ProcessedOrder.mappedMsku l = k).
Proof. apply processOrderData_sums. Qed.

Lemma Forall_entries_set {V : Type} (P : string * V -> Prop) (m : JsMap.t V)
  (k : string) (v : V) :
  P (k, v) -> Forall P m -> Forall P (JsMap.set k v m).
Proof.
  intros Hv. induction m as [|[k0 v0] m IH]; simpl; intros Hm.
  - by repeat constructor.
  - apply Forall_cons in Hm as [H0 Hm].
    destruct (String.eqb_spec k0 k) as [-> | Hne]; constructor; auto.
Qed.

(** X10.  What a batch emits: every order line carries the tag of the
    batch, a status the gate accepts, a truthy original SKU, a non-empty
    MSKU and a positive quantity; every quantity in the map is positive and
    stands under a non-empty MSKU. *)
Theorem processOrderData_lines
  (masterSkuFile comboFile inventoryFile : option (list Row)) (ops : list Op)
  (orderData : list Row) (marketplace : string) :
  let st := run ops (loadMasterFilesOnStartup masterSkuFile comboFile inventoryFile) in
  let result := processOrderData st orderData marketplace in
  Forall (fun l =>
            ProcessedOrder.marketplace l = marketplace /\
            shouldProcessOrder (ProcessedOrder.status l) marketplace = true /\
            truthy (ProcessedOrder.originalSku l) = true /\
            ProcessedOrder.mappedMsku l <> "" /\
            0 < ProcessedOrder.quantity l)
    (BatchResult.processedOrders result) /\
  Forall (fun '(msku, qty) => msku <> "" /\ 0 < qty)
    (BatchResult.msquQuantityMap result).
Proof.
  intros st.
  apply (processOrderData_ind st marketplace
    (fun result =>
       Forall (fun l =>
                 ProcessedOrder.marketplace l = marketplace /\
                 shouldProcessOrder (ProcessedOrder.status l) marketplace = true /\
                 truthy (ProcessedOrder.originalSku l) = true /\
                 ProcessedOrder.mappedMsku l <> "" /\
                 0 < ProcessedOrder.quantity l)
         (BatchResult.processedOrders result) /\
       Forall (fun '(msku, qty) => msku <> "" /\ 0 < qty)
         (BatchResult.msquQuantityMap result))).
  - split; constructor.
  - intros acc order q item info expandedItems Hgate Hsku Hq Hpos Hitem [Hlines Hmap].
    pose proof (expandComboSku_unit_quantities masterSkuFile comboFile inventoryFile ops
                  (OrderInfo.sku info) marketplace) as Hone.
    cbv zeta in Hone. fold st in Hone. fold info expandedItems in Hone.
    pose proof (proj1 (Forall_forall _ _) Hone item Hitem) as Hqty.
    unfold processOrderData_item.
    destruct (String.eqb_spec (Component.msku item) "") as [Hm | Hm]; cbn [negb].
    { done. }
    cbn [BatchResult.msquQuantityMap BatchResult.processedOrders]. split.
    + apply Forall_app. split; [done |]. constructor; [| constructor].
      cbn. rewrite Hqty. split_and!; try done. lia.
    + apply Forall_entries_set; [| done]. split; [done |]. rewrite Hqty.
      destruct (JsMap.get (Component.msku item) (BatchResult.msquQuantityMap acc))
        as [cur|] eqn:Hg; [| lia].
      apply get_Some_elem in Hg.
      pose proof (proj1 (Forall_forall _ _) Hmap _ Hg) as [_ Hcur]. lia.
Qed.

Lemma jsSet_add_Forall (P : JsVal -> Prop) (v : JsVal) (l : list JsVal) :
  P v -> Forall P l -> Forall P (jsSet_add v l).
Proof.
  intros Hv Hl. unfold jsSet_add. case_bool_decide; [done |].
  apply Forall_app. split; [done |]. by repeat constructor.
Qed.

(** X11.  What [unmappedSkus] holds: only SKUs whose normalised MSKU is
    the empty string (a SKU of white space, or one mapped to blank text).  A
    SKU that is merely absent from the mapping table is not reported there:
    it passes through as its own MSKU. *)
Theorem processOrderData_unmapped
  (masterSkuFile comboFile inventoryFile : option (list Row)) (ops : list Op)
  (orderData : list Row) (marketplace : string) :
  let st := run ops (loadMasterFilesOnStartup masterSkuFile comboFile inventoryFile) in
  let result := processOrderData st orderData marketplace in
  Forall (fun sku => truthy sku = true /\ mapSkuToMsku st sku marketplace = "")
    (BatchResult.unmappedSkus result) /\
  NoDup (BatchResult.unmappedSkus result).
Proof.
  intros st.
  apply (processOrderData_ind st marketplace
    (fun result =>
       Forall (fun sku => truthy sku = true /\ mapSkuToMsku st sku marketplace = "")
         (BatchResult.unmappedSkus result) /\
       NoDup (BatchResult.unmappedSkus result))).
  - split; constructor.
  - intros acc order q item info expandedItems Hgate Hsku Hq Hpos Hitem [Hun Hnd].
    pose proof (expandComboSku_shape masterSkuFile comboFile inventoryFile ops
                  (OrderInfo.sku info) marketplace) as Hcases.
    cbv zeta in Hcases. fold st in Hcases. fold info expandedItems in Hcases.
    unfold processOrderData_item.
    destruct (String.eqb_spec (Component.msku item) "") as [Hm | Hm]; cbn [negb].
    2:{ done. }
    cbn [BatchResult.unmappedSkus]. split.
    + apply jsSet_add_Forall; [| done]. split; [done |].
      destruct Hcases as [(_ & _ & Hall) | Heq].
      * pose proof (proj1 (Forall_forall _ _) Hall item Hitem) as [_ Hne]. done.
      * rewrite Heq in Hitem. apply list_elem_of_singleton in Hitem.
        rewrite Hitem in Hm. exact Hm.
    + unfold jsSet_add. case_bool_decide as Hd; [done |].
      apply NoDup_app. split_and!; [done | | apply NoDup_singleton].
      intros x Hx ->%list_elem_of_singleton. done.
Qed.

Lemma processOrderData_order_skip (st : State) (marketplace : string)
  (acc : BatchResult.t) (order : Row) :
  rowCounts marketplace order = false ->
  processOrderData_order st marketplace acc order = acc.
Proof.
  unfold rowCounts, processOrderData_order. intros H.
  destruct (shouldProcessOrder _ _); [| done].
  destruct (truthy _); [| done].
  cbn [andb] in H |- *. rewrite H. done.
Qed.

(** X12.  Rows that do not count change nothing: a row whose status the
    gate rejects, whose SKU is missing, or whose quantity is not a positive
    number is skipped without a trace, so a batch gives the same result as
    the batch of its counted rows alone; a batch without counted rows gives
    the empty result. *)
Theorem processOrderData_skips (st : State) (orderData : list Row) (marketplace : string) :
  processOrderData st orderData marketplace =
    processOrderData st
      (filter (fun order => rowCounts marketplace order = true) orderData) marketplace /\
  (Forall (fun order => rowCounts marketplace order = false) orderData ->
   processOrderData st orderData marketplace = BatchResult.mk [] JsMap.empty []).
Proof.
  unfold processOrderData. generalize (BatchResult.mk [] JsMap.empty []) as acc.
  induction orderData as [|order orderData IH]; intros acc; [done |].
  cbn [fold_left]. rewrite filter_cons.
  destruct (rowCounts marketplace order) eqn:Hc.
  - destruct (decide (true = true)) as [_ | ?]; [| done]. cbn [fold_left].
    split; [apply IH |]. intros H. apply Forall_cons in H as [H _]. congruence.
  - destruct (decide (false = true)) as [? | _]; [done |].
    rewrite processOrderData_order_skip by done.
    split; [apply IH |]. intros H. apply Forall_cons in H as [_ H]. by apply IH.
Qed.

(** ** The summary of a request *)

Lemma combineMsquMap_sum (combined batch : JsMap.t Z) :
  sumQuantities (combineMsquMap combined batch) =
  sumQuantities combined + sumQuantities batch.
Proof.
  unfold combineMsquMap. revert combined.
  induction batch as [|[msku qty] batch IH]; intros combined.
  - rewrite (sumQuantities_total []). simpl. lia.
  - cbn [fold_left]. rewrite IH.
    fold (quantityFor msku combined). rewrite sumQuantities_add.
    rewrite (sumQuantities_total ((msku, qty) :: batch)), (sumQuantities_total batch).
    simpl. lia.
Qed.

Lemma processOrderFiles_sum (st : State) (files : option (list (list Row))) :
  sumQuantities (Batches.combinedMsquMap (processOrderFiles st files)) =
  total (map ProcessedOrder.quantity (Batches.allProcessedOrders (processOrderFiles st files))).
Proof.
  unfold processOrderFiles. destruct files as [fs|]; [| done].
  assert (H : forall acc,
    sumQuantities (Batches.combinedMsquMap acc) =
      total (map ProcessedOrder.quantity (Batches.allProcessedOrders acc)) ->
    sumQuantities (Batches.combinedMsquMap (fold_left (processOrderFile st) fs acc)) =
      total (map ProcessedOrder.quantity
               (Batches.allProcessedOrders (fold_left (processOrderFile st) fs acc)))).
  { induction fs as [|f fs IH]; intros acc Hacc; [done |].
    cbn [fold_left]. apply IH. unfold processOrderFile.
    cbn [Batches.combinedMsquMap Batches.allProcessedOrders].
    rewrite combineMsquMap_sum, map_app, total_app, Hacc.
    destruct (processOrderData_sums st f (detectMarketplace f)) as (_ & -> & _). done. }
  by apply H.
Qed.

Lemma total_perm (l1 l2 : list Z) : Permutation l1 l2 -> total l1 = total l2.
Proof. induction 1; simpl; lia. Qed.

Lemma updateInventoryWithSales_sold (m : JsMap.t Z) (st : State) :
  total (map InventoryUpdate.soldQuantity (fst (updateInventoryWithSales m st))) =
    sumQuantities m /\
  length (fst (updateInventoryWithSales m st)) = JsMap.size m.
Proof.
  rewrite fst_updateInventoryWithSales.
  destruct (inventoryUpdates_fold_updates m [] st) as (us & Hus & Hkeys & Hvals & _).
  change (fst (inventoryUpdatesUnsorted m st) = us) in Hus. rewrite Hus.
  pose proof (array_sort_perm us) as Hp. split.
  - rewrite (total_perm _ _ (Permutation_map _ Hp)), Hvals. by rewrite sumQuantities_total.
  - rewrite (Permutation_length Hp). unfold JsMap.size.
    transitivity (length (map InventoryUpdate.soldQuantity us)); [by rewrite length_map |].
    rewrite Hvals. unfold JsMap.values. by rewrite length_map.
Qed.

(** X13.  The summary of a response is consistent with its parts: the
    order count and the sold total are taken over all order lines of the
    request, of which the response lists the first hundred; the sold total is
    also the sum of the sold quantities of the returned updates; there is
    one update per affected MSKU; and the out-of-stock count is at most
    that. *)
Theorem process_orders_summary (req : Request) (st : State) :
  match fst (process_orders req st) with
  | Status500 _ => files req = None
  | Status400 _ => exists fs, files req = Some fs /\ masterDataGuard fs st = None
  | Status200 summary inventoryUpdates processedOrders unmappedSkus =>
      Summary.totalOrdersProcessed summary = length (requestLines st req) /\
      processedOrders = take 100 (requestLines st req) /\
      (length processedOrders <= 100)%nat /\
      Summary.totalQuantitySold summary =
        total (map ProcessedOrder.quantity (requestLines st req)) /\
      Summary.totalQuantitySold summary =
        total (map InventoryUpdate.soldQuantity inventoryUpdates) /\
      Summary.uniqueMskusAffected summary = length inventoryUpdates /\
      (Summary.outOfStockItems summary <= length inventoryUpdates)%nat /\
      Summary.unmappedSkusCount summary = length unmappedSkus
  end.
Proof.
  unfold process_orders, requestLines, passesGuard.
  destruct (files req) as [fs|]; [| done].
  destruct (masterDataGuard fs st) as [st1|] eqn:Hg; [| by exists fs].
  set (batches := processOrderFiles (resetInventory st1) (Files.orderFiles fs)).
  destruct (updateInventoryWithSales_sold (Batches.combinedMsquMap batches)
              (resetInventory st1)) as [Hsold Hlen].
  destruct (updateInventoryWithSales (Batches.combinedMsquMap batches) (resetInventory st1))
    as [ups st3].
  cbn [fst] in *. cbn [Summary.totalOrdersProcessed Summary.totalQuantitySold
                       Summary.uniqueMskusAffected Summary.outOfStockItems
                       Summary.unmappedSkusCount].
  split_and!; try done.
  - rewrite length_take. lia.
  - apply processOrderFiles_sum.
  - apply length_filter.
Qed.

(** ** The updates a request reports *)

Lemma agrees_other (st st' : State) (u : InventoryUpdate.t) :
  currentInventory st' = currentInventory st ->
  ledger_get st' (InventoryUpdate.msku u) = ledger_get st (InventoryUpdate.msku u) ->
  agrees st u -> agrees st' u.
Proof.
  unfold agrees, currentStockOf. intros Hc Hl.
  destruct (InventoryUpdate.notInInventory u); by rewrite ?Hc, ?Hl.
Qed.

Lemma updateInventoryWithSales_entry_agrees
  (ups : list InventoryUpdate.t) (st : State) (msku : string) (sold : Z) :
  wf st ->
  exists u,
    fst (updateInventoryWithSales_entry (ups, st) (msku, sold)) = ups ++ [u] /\
    InventoryUpdate.msku u = msku /\
    agrees (snd (updateInventoryWithSales_entry (ups, st) (msku, sold))) u /\
    (InventoryUpdate.notInInventory u = false ->
     InventoryUpdate.isOutOfStock u = Js.num_eq (InventoryUpdate.newStock u) (Num 0)).
Proof.
  intros Hwf.
  destruct (updateInventoryWithSales_entry_state ups st msku sold Hwf)
    as (_ & Hcur & _ & _ & _ & _ & Hl).
  specialize (Hl msku). rewrite bool_decide_eq_true_2 in Hl by done.
  revert Hcur Hl. unfold updateInventoryWithSales_entry, agrees, currentStockOf.
  destruct (JsMap.get msku (currentInventory st)) as [r|] eqn:Hg.
  - destruct (lookup_lt_is_Some_2 (heap st) r) as [item Hr].
    { eapply wf_cur_alloc; eauto. }
    rewrite Hr. cbn [fst snd]. intros Hcur Hl. eexists. split; [done |].
    cbn [InventoryUpdate.msku InventoryUpdate.notInInventory InventoryUpdate.newStock
         InventoryUpdate.isOutOfStock].
    split_and!; try done. rewrite Hl. unfold ledger_get. by rewrite Hg, Hr.
  - cbn [fst snd]. intros _ _. eexists. split; [done |]. cbn. by rewrite Hg.
Qed.

Lemma inventoryUpdates_fold_agrees
  (m : JsMap.t Z) (ups : list InventoryUpdate.t) (st : State) :
  wf st -> NoDup (JsMap.keys m) ->
  Forall (fun u => agrees st u /\ InventoryUpdate.msku u ∉ JsMap.keys m) ups ->
  Forall (agrees (snd (fold_left updateInventoryWithSales_entry m (ups, st))))
    (fst (fold_left updateInventoryWithSales_entry m (ups, st))).
Proof.
  revert ups st. induction m as [|[k q] m IH]; intros ups st Hwf Hnd Hups; cbn [fold_left].
  - eapply Forall_impl; [exact Hups |]. by intros u [? _].
  - change (JsMap.keys ((k, q) :: m)) with (k :: JsMap.keys m) in Hnd, Hups.
    apply NoDup_cons in Hnd as [Hk Hnd].
    destruct (updateInventoryWithSales_entry_state ups st k q Hwf)
      as (Hwf1 & Hcur & _ & _ & _ & _ & Hl).
    destruct (updateInventoryWithSales_entry_agrees ups st k q Hwf)
      as (u & Hfst & Hmsku & Hagree & _).
    destruct (updateInventoryWithSales_entry (ups, st) (k, q)) as [ups1 st1].
    cbn [fst snd] in *. subst ups1. apply IH; try done.
    apply Forall_app. split.
    + eapply Forall_impl; [exact Hups |]. intros u' [Hu' Hn].
      apply not_elem_of_cons in Hn as [Hne Hn]. split; [| done].
      apply (agrees_other st); [done | | done].
      rewrite Hl. by rewrite bool_decide_eq_false_2.
    + constructor; [| constructor]. split; [done |]. by rewrite Hmsku.
Qed.

Lemma updateInventoryWithSales_agrees (m : JsMap.t Z) (st : State) :
  wf st -> NoDup (JsMap.keys m) ->
  Forall (agrees (snd (updateInventoryWithSales m st))) (fst (updateInventoryWithSales m st)).
Proof.
  intros Hwf Hnd. rewrite snd_updateInventoryWithSales, fst_updateInventoryWithSales.
  pose proof (inventoryUpdates_fold_agrees m [] st Hwf Hnd (Forall_nil_2 _)) as H.
  apply Forall_forall. intros u Hu.
  apply (proj1 (Forall_forall _ _) H).
  by rewrite (array_sort_perm _) in Hu.
Qed.

(** X14.  The report matches the ledger: after a request, for every
    update in the response the working ledger holds exactly the reported new
    stock under that MSKU, and has no entry for an MSKU reported as not
    found.  This holds after any history, because each MSKU occurs once in
    the combined map and no two ledger entries share an object. *)
Theorem process_orders_report_matches_ledger
  (masterSkuFile comboFile inventoryFile : option (list Row))
  (ops : list Op) (req : Request) :
  let st := run ops (loadMasterFilesOnStartup masterSkuFile comboFile inventoryFile) in
  Forall (agrees (snd (process_orders req st)))
    (responseUpdates (fst (process_orders req st))).
Proof.
  intros st.
  destruct (snapshot_is_load_time masterSkuFile comboFile inventoryFile ops)
    as (Hwf & _ & _). fold st in Hwf.
  unfold process_orders.
  destruct (files req) as [fs|]; [| constructor].
  destruct (masterDataGuard fs st) as [st1|] eqn:Hg; [| constructor].
  destruct (masterDataGuard_inventory _ _ _ Hg) as (Hc & Ho & Hh).
  assert (Hwf1 : wf st1) by by apply (wf_ext st).
  destruct (resetInventory_spec st1 Hwf1) as (Hwf2 & _).
  pose proof (updateInventoryWithSales_agrees
                (Batches.combinedMsquMap
                   (processOrderFiles (resetInventory st1) (Files.orderFiles fs)))
                (resetInventory st1) Hwf2 (processOrderFiles_nodup _ _)) as H.
  destruct (updateInventoryWithSales _ _) as [ups st3]. exact H.
Qed.

(** ** Ledger items over time *)

Lemma loadCurrentInventory_row_get (st : State) (row : Row) (k : string) :
  wf st ->
  let msku := findColumnValue row ["msku"; "MSKU"; "Msku"] in
  ledger_get (loadCurrentInventory_row st row) k =
    if truthy msku && negb (String.eqb (trim (ToString msku)) "")
       && bool_decide (k = trim (ToString msku))
    then Some (inventoryDataOf row (trim (ToString msku)))
    else ledger_get st k.
Proof.
  intros Hwf msku. unfold loadCurrentInventory_row. fold msku.
  destruct (truthy msku && negb (String.eqb (trim (ToString msku)) "")); [| done].
  cbn [andb]. unfold alloc, ledger_get. cbn [currentInventory heap].
  rewrite get_set. case_bool_decide as Hd.
  - rewrite lookup_app_l by (rewrite length_app; simpl; lia). apply lookup_alloc_new.
  - destruct (JsMap.get k (currentInventory st)) as [r|] eqn:Hg; [| done].
    pose proof (wf_cur_alloc _ Hwf _ _ Hg) as Hr.
    rewrite !lookup_app_l by (rewrite ?length_app; simpl; lia). done.
Qed.

Lemma warehouseTotals_number (row : Row) :
  exists w, fst (warehouseTotals row) = Num w /\ 0 <= w.
Proof.
  destruct (warehouseTotals_fold row warehouseColumns [] []) as (zs & _ & Hpos & Hfst & _).
  - done.
  - constructor.
  - change (Forall (fun col => In col warehouseColumns) warehouseColumns).
    apply Forall_forall. intros x Hx. by apply list_elem_of_In.
  - exists (total zs). split; [done |].
    clear -Hpos. induction Hpos as [|z zs Hz _ IH]; simpl; lia.
Qed.

Lemma inventoryDataOf_loaded (row : Row) (k : string) : loadedItem k (inventoryDataOf row k).
Proof.
  pose proof (warehouseTotals_number row) as Hw.
  assert (Hts : totalStockOf row =
                if Js.num_eq (openingStockOf row) (Num 0)
                   && Js.gt (fst (warehouseTotals row)) (Num 0)
                then fst (warehouseTotals row) else openingStockOf row) by reflexivity.
  unfold loadedItem, inventoryDataOf.
  destruct (warehouseTotals row) as [ws wb].
  cbn [InventoryItem.msku InventoryItem.originalStock InventoryItem.currentStock
       InventoryItem.status InventoryItem.openingStock InventoryItem.warehouseStock fst] in *.
  destruct (Js.gt (totalStockOf row) (Num 0)); split_and!; try done; auto.
Qed.

Lemma loadCurrentInventory_from_loaded (index : nat) (data : list Row) (st : State) :
  wf st -> pristine st ->
  (forall k item, ledger_get st k = Some item -> loadedItem k item) ->
  forall k item,
    ledger_get (fst (loadCurrentInventory_from index data st)) k = Some item ->
    loadedItem k item.
Proof.
  revert index st. induction data as [|row data IH]; intros index st Hwf Hpr Hst; [done |].
  cbn [loadCurrentInventory_from].
  destruct (loadCurrentInventory_row_spec st row Hwf Hpr) as [Hwf1 Hpr1].
  assert (Hst1 : forall k item,
            ledger_get (loadCurrentInventory_row st row) k = Some item -> loadedItem k item).
  { intros k item. rewrite (loadCurrentInventory_row_get st row k Hwf). cbv zeta.
    destruct (_ && _ && _) eqn:Hc; [| apply Hst].
    apply andb_true_iff in Hc as [_ Hc]. apply bool_decide_eq_true_1 in Hc as ->.
    intros [= <-]. apply inventoryDataOf_loaded. }
  destruct (debugLogThrows index row); [exact Hst1 |]. by apply IH.
Qed.

Lemma startup_loaded (masterSkuFile comboFile inventoryFile : option (list Row))
  (k : string) (item : InventoryItem.t) :
  ledger_get (loadMasterFilesOnStartup masterSkuFile comboFile inventoryFile) k = Some item ->
  loadedItem k item.
Proof.
  unfold loadMasterFilesOnStartup.
  set (st1 := match masterSkuFile with Some data => _ | None => _ end).
  set (st2 := match comboFile with Some data => _ | None => _ end).
  assert (H1 : currentInventory st1 = [] /\ originalInventory st1 = [] /\ heap st1 = []).
  { subst st1. destruct masterSkuFile as [data|]; [| done].
    destruct (loadMasterData_inventory data masterData0) as (-> & -> & -> & _). done. }
  assert (H2 : currentInventory st2 = [] /\ originalInventory st2 = [] /\ heap st2 = []).
  { subst st2. destruct comboFile as [data|]; [| done].
    destruct (loadComboData_inventory data st1) as (-> & -> & -> & _). done. }
  destruct H2 as (Hc & Ho & Hh).
  assert (Hempty : forall k' item', ledger_get st2 k' = Some item' -> loadedItem k' item').
  { intros k' item'. unfold ledger_get. by rewrite Hc. }
  destruct inventoryFile as [data|]; [| apply Hempty].
  apply loadCurrentInventory_from_loaded; [| | done].
  - apply (wf_ext masterData0); [done .. | apply wf_masterData0].
  - intros k'. unfold snapshot_get, ledger_get. by rewrite Hc, Ho.
Qed.

Lemma set_currentStock_same (item : InventoryItem.t) :
  InventoryItem.set_currentStock (InventoryItem.currentStock item) item = item.
Proof. by destruct item. Qed.

Lemma soldFrom_shape (k : string) (m : JsMap.t Z) (o : option InventoryItem.t) :
  match o with
  | None => soldFrom k m o = None
  | Some item =>
      exists c, soldFrom k m o = Some (InventoryItem.set_currentStock c item)
  end.
Proof.
  revert o. induction m as [|[k0 s] m IH]; intros o.
  - destruct o as [item|]; [| done]. exists (InventoryItem.currentStock item).
    by rewrite set_currentStock_same.
  - rewrite soldFrom_cons. case_bool_decide as Hd; [| apply IH].
    destruct o as [item|]; [| apply (IH None)].
    destruct (IH (Some (sell s item))) as [c Hc]. exists c. cbn [fmap option_fmap option_map].
    rewrite Hc. by destruct item.
Qed.

Lemma onlyStockDiffers_reset (st : State) :
  wf st -> onlyStockDiffers (resetInventory st).
Proof.
  intros Hwf. destruct (resetInventory_spec st Hwf) as (_ & _ & _ & _ & _ & Hsn & Hl).
  intros k item. rewrite Hl, Hsn. intros H. exists item. split; [done |].
  by rewrite set_currentStock_same.
Qed.

Lemma onlyStockDiffers_reconcile (m : JsMap.t Z) (st : State) :
  wf st -> onlyStockDiffers st -> onlyStockDiffers (reconcile st m).
Proof.
  intros Hwf Hst. destruct (reconcile_spec m st Hwf) as (_ & _ & _ & _ & _ & Hsn & Hl).
  intros k item. rewrite Hl, Hsn.
  pose proof (soldFrom_shape k m (ledger_get st k)) as Hs.
  destruct (ledger_get st k) as [item0|] eqn:H0; [| by rewrite Hs].
  destruct Hs as [c Hc]. rewrite Hc. intros [= <-].
  destruct (Hst k item0 H0) as (original & Ho & Heq). exists original. split; [done |].
  rewrite Heq. by destruct original.
Qed.

Lemma onlyStockDiffers_op (st : State) (o : Op) :
  wf st -> onlyStockDiffers st -> onlyStockDiffers (op st o).
Proof.
  intros Hwf Hst. destruct o as [req | | m]; cbn [op].
  - rewrite process_orders_state.
    destruct (passesGuard req st) as [[fs st1]|] eqn:Hg; [| done].
    destruct (passesGuard_inventory _ _ _ _ Hg) as (_ & _ & Hc & Ho & Hh).
    assert (Hwf1 : wf st1) by by apply (wf_ext st).
    destruct (resetInventory_spec st1 Hwf1) as (Hwf2 & _).
    apply onlyStockDiffers_reconcile; [done |]. by apply onlyStockDiffers_reset.
  - by apply onlyStockDiffers_reset.
  - by apply onlyStockDiffers_reconcile.
Qed.

Lemma onlyStockDiffers_run (ops : list Op) (st : State) :
  wf st -> onlyStockDiffers st -> onlyStockDiffers (run ops st).
Proof.
  unfold run. revert st. induction ops as [|o ops IH]; intros st Hwf Hst; [done |].
  cbn [fold_left]. destruct (op_spec st o Hwf) as (Hwf1 & _).
  apply IH; [done |]. by apply onlyStockDiffers_op.
Qed.

Lemma ledger_keys_constant
  (masterSkuFile comboFile inventoryFile : option (list Row)) (ops : list Op) :
  let st0 := loadMasterFilesOnStartup masterSkuFile comboFile inventoryFile in
  JsMap.keys (currentInventory (run ops st0)) = JsMap.keys (currentInventory st0).
Proof.
  intros st0.
  destruct (snapshot_is_load_time masterSkuFile comboFile inventoryFile ops)
    as (Hwf & Hok & _). fold st0 in Hwf, Hok.
  by rewrite (wf_keys _ Hwf).
Qed.

Lemma ledger_item_history
  (masterSkuFile comboFile inventoryFile : option (list Row)) (ops : list Op) (k : string) :
  let st0 := loadMasterFilesOnStartup masterSkuFile comboFile inventoryFile in
  let st := run ops st0 in
  match ledger_get st k with
  | None => ledger_get st0 k = None
  | Some item =>
      exists loaded,
        ledger_get st0 k = Some loaded /\
        item = InventoryItem.set_currentStock (InventoryItem.currentStock item) loaded /\
        loadedItem k loaded
  end.
Proof.
  intros st0 st.
  destruct (loadMasterFilesOnStartup_spec masterSkuFile comboFile inventoryFile)
    as [Hwf0 Hpr0]. fold st0 in Hwf0, Hpr0.
  destruct (snapshot_is_load_time masterSkuFile comboFile inventoryFile ops)
    as (Hwf & Hok & Hsn). fold st0 in Hwf, Hok, Hsn. fold st in Hwf, Hok, Hsn.
  assert (H0 : onlyStockDiffers st0).
  { intros k' item H. exists item. split; [by rewrite Hpr0 |].
    by rewrite set_currentStock_same. }
  pose proof (onlyStockDiffers_run ops st0 Hwf0 H0) as Hst. fold st in Hst.
  destruct (ledger_get st k) as [item|] eqn:Hl.
  - destruct (Hst k item Hl) as (original & Ho & Heq). rewrite Hsn in Ho.
    exists original. split_and!; try done.
    by apply (startup_loaded masterSkuFile comboFile inventoryFile).
  - unfold ledger_get in Hl |- *.
    destruct (JsMap.get k (currentInventory st)) as [r|] eqn:Hg.
    + pose proof (wf_cur_alloc _ Hwf _ _ Hg) as Hr.
      apply lookup_lt_is_Some_2 in Hr as [x Hx]. congruence.
    + apply get_None_keys in Hg.
      pose proof (ledger_keys_constant masterSkuFile comboFile inventoryFile ops) as Hk.
      cbv zeta in Hk. fold st0 in Hk. fold st in Hk. rewrite Hk in Hg.
      apply get_None_keys in Hg. by rewrite Hg.
Qed.

(** X15.  Over any history a ledger item differs from the item loaded at
    start-up in [currentStock] only.  It stays under the key equal to its
    [msku] field, its [originalStock] is the stock at load time, and its
    [status] still tells whether the stock at load time was positive: a
    reconciliation that sells an item out leaves it "In Stock". *)
Theorem ledger_item_only_stock_changes
  (masterSkuFile comboFile inventoryFile : option (list Row)) (ops : list Op) (k : string) :
  let st0 := loadMasterFilesOnStartup masterSkuFile comboFile inventoryFile in
  let st := run ops st0 in
  match ledger_get st k with
  | None => ledger_get st0 k = None
  | Some item =>
      exists loaded,
        ledger_get st0 k = Some loaded /\
        item = InventoryItem.set_currentStock (InventoryItem.currentStock item) loaded /\
        InventoryItem.msku item = k /\
        InventoryItem.originalStock item = InventoryItem.currentStock loaded /\
        (InventoryItem.status item = "In Stock" <->
         Js.gt (InventoryItem.currentStock loaded) (Num 0) = true)
  end.
Proof.
  intros st0 st.
  pose proof (ledger_item_history masterSkuFile comboFile inventoryFile ops k) as H.
  cbv zeta in H. fold st0 in H. fold st in H.
  destruct (ledger_get st k) as [item|]; [| done].
  destruct H as (loaded & Hl & Heq & Hk & Ho & _ & Hs & _).
  exists loaded. rewrite Heq. destruct loaded. cbn in *. split_and!; done.
Qed.

(** X16.  No request, reset or pass adds or removes a ledger item: the
    keys of the ledger, in order, are those of start-up, so [/health] and
    [/inventory] report the same item count for the lifetime of the server
    (and [/inventory] lists at most a hundred of them), the combo count is
    constant and the mapping count never decreases. *)
Theorem ledger_keys_never_change
  (masterSkuFile comboFile inventoryFile : option (list Row)) (ops : list Op) :
  let st0 := loadMasterFilesOnStartup masterSkuFile comboFile inventoryFile in
  let st := run ops st0 in
  JsMap.keys (currentInventory st) = JsMap.keys (currentInventory st0) /\
  NoDup (JsMap.keys (currentInventory st)) /\
  Health.inventoryItems (get_health st) = Health.inventoryItems (get_health st0) /\
  Health.combosLoaded (get_health st) = Health.combosLoaded (get_health st0) /\
  (Health.mappingsLoaded (get_health st0) <= Health.mappingsLoaded (get_health st))%nat /\
  InventoryResponse.totalItems (get_inventory st) = Health.inventoryItems (get_health st0) /\
  (length (InventoryResponse.inventory (get_inventory st)) <= 100)%nat /\
  map fst (InventoryResponse.inventory (get_inventory st)) =
    take 100 (JsMap.keys (currentInventory st0)).
Proof.
  intros st0 st.
  pose proof (ledger_keys_constant masterSkuFile comboFile inventoryFile ops) as Hk.
  cbv zeta in Hk. fold st0 in Hk. fold st in Hk.
  destruct (snapshot_is_load_time masterSkuFile comboFile inventoryFile ops)
    as (Hwf & _ & _). fold st0 in Hwf. fold st in Hwf.
  destruct (run_tables ops st0) as (Hc & Hs & _). fold st in Hc, Hs.
  assert (Hlen : JsMap.size (currentInventory st) = JsMap.size (currentInventory st0)).
  { unfold JsMap.size. rewrite <- (length_map fst (currentInventory st)).
    rewrite <- (length_map fst (currentInventory st0)). unfold JsMap.keys in Hk.
    by rewrite Hk. }
  assert (Hview : map fst (ledger_view st) = JsMap.keys (currentInventory st)).
  { unfold ledger_view, JsMap.keys. rewrite map_map. apply map_ext. by intros [k r]. }
  split_and!.
  - done.
  - rewrite (wf_keys _ Hwf). apply (wf_orig_nodup _ Hwf).
  - done.
  - cbn. by rewrite Hc.
  - done.
  - cbn [get_inventory InventoryResponse.totalItems get_health Health.inventoryItems].
    rewrite <- Hlen. unfold ledger_view, JsMap.size. by rewrite length_map.
  - cbn [get_inventory InventoryResponse.inventory]. rewrite length_take. lia.
  - cbn [get_inventory InventoryResponse.inventory].
    rewrite <- Hk, <- Hview. apply fmap_take.
Qed.

(** X17.  The stock rule holds of the stored fields of every ledger item,
    at any time: [originalStock] is [openingStock], unless that is 0 and
    [warehouseStock] is positive, in which case it is [warehouseStock]; and
    [warehouseStock] is a non-negative number even when the opening stock is
    [NaN]. *)
Theorem ledger_item_stock_rule
  (masterSkuFile comboFile inventoryFile : option (list Row)) (ops : list Op) (k : string) :
  let st := run ops (loadMasterFilesOnStartup masterSkuFile comboFile inventoryFile) in
  match ledger_get st k with
  | None => True
  | Some item =>
      InventoryItem.originalStock item =
        (if Js.num_eq (InventoryItem.openingStock item) (Num 0)
            && Js.gt (InventoryItem.warehouseStock item) (Num 0)
         then InventoryItem.warehouseStock item
         else InventoryItem.openingStock item) /\
      (exists w, InventoryItem.warehouseStock item = Num w /\ 0 <= w) /\
      (InventoryItem.status item = "In Stock" <->
       Js.gt (InventoryItem.originalStock item) (Num 0) = true)
  end.
Proof.
  intros st.
  pose proof (ledger_item_history masterSkuFile comboFile inventoryFile ops k) as H.
  cbv zeta in H. fold st in H.
  destruct (ledger_get st k) as [item|]; [| done].
  destruct H as (loaded & Hl & Heq & Hk & Ho & _ & Hs & Hrule & Hw).
  rewrite Heq. destruct loaded. cbn in *. rewrite Ho. split_and!; done.
Qed.

(** ** The [/inventory-changes] route *)

Lemma inventoryChanges_fold (st : State) (l : list (string * Ref)) (acc : list Change.t) :
  (forall k r, (k, r) ∈ l -> JsMap.get k (currentInventory st) = Some r) ->
  fold_left (inventoryChanges_entry st) l acc = acc ++ omap (changeOf st) (JsMap.keys l).
Proof.
  revert acc. induction l as [|[k r] l IH]; intros acc Hl.
  - simpl. by rewrite app_nil_r.
  - cbn [fold_left]. rewrite IH by (intros k' r' Hin; apply Hl; by apply list_elem_of_further).
    change (JsMap.keys ((k, r) :: l)) with (k :: JsMap.keys l). cbn [omap list_omap].
    fold (omap (changeOf st) (JsMap.keys l)).
    unfold inventoryChanges_entry, changeOf at 2, ledger_get.
    rewrite (Hl k r) by apply list_elem_of_here.
    destruct (heap st !! r) as [cur|]; [| done].
    destruct (snapshot_get st k) as [orig|]; [| done].
    destruct (negb _); [| done]. by rewrite <- app_assoc.
Qed.

Lemma inventoryChanges_per_key (st : State) :
  wf st ->
  inventoryChanges st = omap (changeOf st) (JsMap.keys (currentInventory st)).
Proof.
  intros Hwf. unfold inventoryChanges. rewrite inventoryChanges_fold; [done |].
  intros k r Hin. apply elem_get; [| done].
  rewrite (wf_keys _ Hwf). apply (wf_orig_nodup _ Hwf).
Qed.

Lemma num_eq_same_false (n : JsNum) : Js.num_eq n n = false -> n = NaN.
Proof. destruct n as [|z]; [done |]. simpl. by rewrite Z.eqb_refl. Qed.

(** X18.  [/inventory-changes] reports, in ledger order, each item whose
    stock is not [===] its stock at load time, with that load-time stock as
    [originalStock].  Right after a reset it reports nothing but the items
    whose stock is [NaN] (which is never [===] itself): when no load-time
    stock is [NaN] the list is empty. *)
Theorem inventoryChanges_after_reset
  (masterSkuFile comboFile inventoryFile : option (list Row)) (ops : list Op) :
  let st0 := loadMasterFilesOnStartup masterSkuFile comboFile inventoryFile in
  let st := run ops st0 in
  inventoryChanges st = omap (changeOf st) (JsMap.keys (currentInventory st0)) /\
  Forall (fun c =>
            exists item loaded,
              ledger_get st (Change.msku c) = Some item /\
              ledger_get st0 (Change.msku c) = Some loaded /\
              Change.currentStock c = InventoryItem.currentStock item /\
              Change.originalStock c = InventoryItem.currentStock loaded /\
              Js.num_eq (Change.currentStock c) (Change.originalStock c) = false)
    (inventoryChanges st) /\
  Forall (fun c => Change.currentStock c = NaN /\ Change.originalStock c = NaN)
    (inventoryChanges (resetInventory st)) /\
  ((forall k item, ledger_get st0 k = Some item -> InventoryItem.currentStock item <> NaN) ->
   inventoryChanges (resetInventory st) = []).
Proof.
  intros st0 st.
  destruct (snapshot_is_load_time masterSkuFile comboFile inventoryFile ops)
    as (Hwf & Hok & Hsn). fold st0 in Hwf, Hok, Hsn. fold st in Hwf, Hok, Hsn.
  destruct (resetInventory_spec st Hwf) as (Hwf1 & _ & _ & _ & Hk1 & Hsn1 & Hl1).
  assert (Hreset : Forall (fun c => Change.currentStock c = NaN /\ Change.originalStock c = NaN
                                    /\ exists item, ledger_get st0 (Change.msku c) = Some item
                                         /\ InventoryItem.currentStock item = NaN)
                     (inventoryChanges (resetInventory st))).
  { rewrite (inventoryChanges_per_key _ Hwf1). apply Forall_forall. intros c Hc.
    apply list_elem_of_omap in Hc as (k & _ & Hc). unfold changeOf in Hc.
    rewrite Hl1, Hsn1 in Hc. rewrite Hsn in Hc.
    destruct (ledger_get st0 k) as [item|] eqn:H0; [| done].
    destruct (Js.num_eq _ _) eqn:Heq; [done |]. injection Hc as <-. cbn.
    apply num_eq_same_false in Heq. split_and!; try done. by exists item. }
  split_and!.
  - rewrite (inventoryChanges_per_key _ Hwf). by rewrite (wf_keys _ Hwf), Hok.
  - rewrite (inventoryChanges_per_key _ Hwf). apply Forall_forall. intros c Hc.
    apply list_elem_of_omap in Hc as (k & _ & Hc). unfold changeOf in Hc.
    rewrite Hsn in Hc.
    destruct (ledger_get st k) as [item|] eqn:Hi; [| done].
    destruct (ledger_get st0 k) as [loaded|] eqn:H0; [| done].
    destruct (Js.num_eq _ _) eqn:Heq; [done |]. injection Hc as <-. cbn.
    exists item, loaded. split_and!; done.
  - eapply Forall_impl; [exact Hreset |]. by intros c (? & ? & _).
  - intros Hnan. destruct (inventoryChanges (resetInventory st)) as [|c l]; [done |].
    apply Forall_cons in Hreset as [(_ & _ & item & Hi & Hn) _].
    by destruct (Hnan _ _ Hi).
Qed.

(** ** The inventory loader: the aborted load *)

Lemma loadCurrentInventory_from_app (index : nat) (pre rest : list Row) (st : State) :
  loadCurrentInventory_from index (pre ++ rest) st =
    if snd (loadCurrentInventory_from index pre st)
    then loadCurrentInventory_from index pre st
    else loadCurrentInventory_from (index + length pre) rest
           (fst (loadCurrentInventory_from index pre st)).
Proof.
  revert index st. induction pre as [|row pre IH]; intros index st.
  - simpl. by rewrite Nat.add_0_r.
  - cbn [app loadCurrentInventory_from length].
    destruct (debugLogThrows index row); [done |].
    rewrite IH. by replace (S index + length pre)%nat with (index + S (length pre))%nat by lia.
Qed.

(** X19.  A truthy product name that is not text (a number, say) in one
    of the first three rows aborts the inventory load at that row: the row
    itself is stored, every row after it is ignored.  Only the first three
    rows can abort the load. *)
Theorem loadCurrentInventory_aborts (pre post : list Row) (row : Row) (st : State) :
  snd (loadCurrentInventory pre st) = false ->
  debugLogThrows (length pre) row = true ->
  loadCurrentInventory (pre ++ row :: post) st =
    (loadCurrentInventory_row (fst (loadCurrentInventory pre st)) row, true) /\
  (length pre < 3)%nat.
Proof.
  unfold loadCurrentInventory. intros Hpre Hrow. split.
  - rewrite loadCurrentInventory_from_app, Hpre. cbn [Nat.add loadCurrentInventory_from].
    by rewrite Hrow.
  - unfold debugLogThrows in Hrow. apply andb_true_iff in Hrow as [Hrow _].
    apply andb_true_iff in Hrow as [Hrow _]. by apply Nat.ltb_lt in Hrow.
Qed.

Lemma loadCurrentInventory_aborts_witness :
  loadCurrentInventory
    ([[("msku", VStr "M1"); ("Opening Stock", VNum (Num 10))]] ++
     [("msku", VStr "M2"); ("Product Name", VNum (Num 2024))] ::
     [[("msku", VStr "M3"); ("Opening Stock", VNum (Num 7))]]) masterData0 =
    (loadCurrentInventory_row
       (fst (loadCurrentInventory
               [[("msku", VStr "M1"); ("Opening Stock", VNum (Num 10))]] masterData0))
       [("msku", VStr "M2"); ("Product Name", VNum (Num 2024))], true) /\
  (length [[("msku", VStr "M1"); ("Opening Stock", VNum (Num 10))]] < 3)%nat.
Proof.
  apply (loadCurrentInventory_aborts
           [[("msku", VStr "M1"); ("Opening Stock", VNum (Num 10))]]
           [[("msku", VStr "M3"); ("Opening Stock", VNum (Num 7))]]
           [("msku", VStr "M2"); ("Product Name", VNum (Num 2024))] masterData0);
    reflexivity.
Defined.

(** ** The accounting of one update *)

(** X20.  For an MSKU the ledger has, with a numeric stock [c] and a sold
    quantity that is not negative, the update reports the stock left
    [max(0, c - sold)] and the reduction [c] minus that: with [c] not
    negative the reduction is [min(c, sold)], never more than what was in
    stock, and the item is out of stock exactly when [c <= sold]; a negative
    stock is raised to 0, with the negative reduction [c]. *)
Theorem updateInventoryWithSales_entry_accounting
  (ups : list InventoryUpdate.t) (st : State) (msku : string) (sold : Z)
  (r : Ref) (item : InventoryItem.t) (c : Z) :
  JsMap.get msku (currentInventory st) = Some r ->
  heap st !! r = Some item ->
  InventoryItem.currentStock item = Num c ->
  0 <= sold ->
  exists u st',
    updateInventoryWithSales_entry (ups, st) (msku, sold) = (ups ++ [u], st') /\
    heap st' !! r = Some (sell sold item) /\
    InventoryUpdate.notInInventory u = false /\
    InventoryUpdate.soldQuantity u = sold /\
    InventoryUpdate.originalStock u = InventoryItem.originalStock item /\
    InventoryUpdate.newStock u = Num (Z.max 0 (c - sold)) /\
    InventoryUpdate.stockReduced u = Num (c - Z.max 0 (c - sold)) /\
    (InventoryUpdate.isOutOfStock u = true <-> c <= sold) /\
    (0 <= c ->
       InventoryUpdate.newStock u = Num (c - Z.min c sold) /\
       InventoryUpdate.stockReduced u = Num (Z.min c sold)) /\
    (c < 0 ->
       InventoryUpdate.newStock u = Num 0 /\ InventoryUpdate.stockReduced u = Num c).
Proof.
  intros Hg Hr Hc Hsold. unfold updateInventoryWithSales_entry. rewrite Hg, Hr, Hc.
  eexists _, _. split; [reflexivity |]. cbn [heap InventoryUpdate.notInInventory
    InventoryUpdate.soldQuantity InventoryUpdate.originalStock InventoryUpdate.newStock
    InventoryUpdate.stockReduced InventoryUpdate.isOutOfStock Js.sub Js.max Js.num_eq].
  split_and!; try done.
  - rewrite list_lookup_insert_eq by (by eapply lookup_lt_Some).
    unfold sell, afterSale. by rewrite Hc.
  - rewrite Z.eqb_eq. lia.
  - intros Hpos. split; f_equal; lia.
  - intros Hneg. split; f_equal; lia.
Qed.

Lemma updateInventoryWithSales_entry_accounting_witness :
  exists u st',
    updateInventoryWithSales_entry ([], Scenario.st0) ("M1", 12) = ([] ++ [u], st') /\
    heap st' !! 0%nat =
      Some (sell 12 (InventoryItem.mk "M1" "Unknown Product" "Unknown" "In Stock"
                       (Num 10) (Num 10) (Num 10) (Num 0) (Num 0) [])) /\
    InventoryUpdate.notInInventory u = false /\
    InventoryUpdate.soldQuantity u = 12 /\
    InventoryUpdate.originalStock u = Num 10 /\
    InventoryUpdate.newStock u = Num (Z.max 0 (10 - 12)) /\
    InventoryUpdate.stockReduced u = Num (10 - Z.max 0 (10 - 12)) /\
    (InventoryUpdate.isOutOfStock u = true <-> 10 <= 12) /\
    (0 <= 10 ->
       InventoryUpdate.newStock u = Num (10 - Z.min 10 12) /\
       InventoryUpdate.stockReduced u = Num (Z.min 10 12)) /\
    (10 < 0 ->
       InventoryUpdate.newStock u = Num 0 /\ InventoryUpdate.stockReduced u = Num 10).
Proof.
  apply (updateInventoryWithSales_entry_accounting [] Scenario.st0 "M1" 12 0%nat
           (InventoryItem.mk "M1" "Unknown Product" "Unknown" "In Stock"
              (Num 10) (Num 10) (Num 10) (Num 0) (Num 0) []) 10);
    [reflexivity | reflexivity | reflexivity | lia].
Defined.

(** ** Mapping rows without stray blanks *)

Lemma loadMasterData_row_distinct (st : State) (row : Row) :
  tidyRow row ->
  Forall (fun '(k, v) => String.eqb k v = false) (skuToMsku st) ->
  Forall (fun '(k, v) => String.eqb k v = false) (skuToMsku (loadMasterData_row st row)).
Proof.
  intros Htidy Hst. unfold loadMasterData_row.
  destruct Htidy as [H | [H | (s1 & s2 & H1 & H2 & Ht1 & Ht2)]].
  - by rewrite H.
  - rewrite H. by rewrite andb_false_r.
  - rewrite H1, H2.
    destruct (truthy (VStr s1) && truthy (VStr s2) && negb (strict_eq (VStr s1) (VStr s2)))
      eqn:Hc; [| done].
    cbn [skuToMsku ToString]. rewrite Ht1, Ht2.
    apply Forall_entries_set; [| done].
    apply andb_true_iff in Hc as [_ Hne]. cbn [strict_eq] in Hne.
    by apply negb_true_iff in Hne.
Qed.

(** X21.  What the test of the mapping loader achieves: when the sku and
    msku cells of every row are text without white space at either end (or
    one of them is missing), a table without identity mappings stays without
    them, so no stored raw SKU equals its MSKU. *)
Theorem loadMasterData_tidy_rows (data : list Row) (st : State) :
  Forall tidyRow data ->
  Forall (fun '(k, v) => String.eqb k v = false) (skuToMsku st) ->
  Forall (fun '(k, v) => String.eqb k v = false) (skuToMsku (loadMasterData data st)).
Proof.
  unfold loadMasterData. revert st. induction data as [|row data IH]; intros st Hd Hst;
    [done |].
  apply Forall_cons in Hd as [Hrow Hd]. cbn [fold_left]. apply IH; [done |].
  by apply loadMasterData_row_distinct.
Qed.

Lemma loadMasterData_tidy_rows_witness :
  Forall (fun '(k, v) => String.eqb k v = false)
    (skuToMsku
       (loadMasterData
          [ [("sku", VStr "A1"); ("msku", VStr "M1")];
            [("sku", VStr "M1"); ("msku", VStr "M1")];
            [("sku", VStr "A2")] ] masterData0)).
Proof.
  apply (loadMasterData_tidy_rows
           [ [("sku", VStr "A1"); ("msku", VStr "M1")];
             [("sku", VStr "M1"); ("msku", VStr "M1")];
             [("sku", VStr "A2")] ] masterData0).
  - constructor; [right; right; exists "A1", "M1"; repeat split |].
    constructor; [right; right; exists "M1", "M1"; repeat split |].
    constructor; [right; left; reflexivity | constructor].
  - constructor.
Defined.

(** ** Quantities across the files of a request *)

Lemma quantityFor_not_in (k : string) (m : JsMap.t Z) :
  k ∉ JsMap.keys m -> quantityFor k m = 0.
Proof. intros H. apply get_None_keys in H. unfold quantityFor. by rewrite H. Qed.

Lemma combineMsquMap_per_key (combined batch : JsMap.t Z) (k : string) :
  NoDup (JsMap.keys batch) ->
  quantityFor k (combineMsquMap combined batch) =
  quantityFor k combined + quantityFor k batch.
Proof.
  unfold combineMsquMap. revert combined.
  induction batch as [|[k0 q] batch IH]; intros combined Hnd.
  - cbn [fold_left]. change (quantityFor k []) with 0. lia.
  - change (JsMap.keys ((k0, q) :: batch)) with (k0 :: JsMap.keys batch) in Hnd.
    apply NoDup_cons in Hnd as [Hk0 Hnd]. cbn [fold_left].
    rewrite IH by done. fold (quantityFor k0 combined). rewrite quantityFor_set.
    change (quantityFor k ((k0, q) :: batch))
      with (match (if String.eqb k0 k then Some q else JsMap.get k batch) with
            | Some v => v | None => 0 end).
    case_bool_decide as Hd.
    + subst k0. rewrite String.eqb_refl, (quantityFor_not_in k batch) by done. lia.
    + destruct (String.eqb_spec k0 k) as [-> | Hne]; [done | reflexivity].
Qed.

Lemma lineQuantitiesFor_app (k : string) (l1 l2 : list ProcessedOrder.t) :
  total (lineQuantitiesFor k (l1 ++ l2)) =
  total (lineQuantitiesFor k l1) + total (lineQuantitiesFor k l2).
Proof. unfold lineQuantitiesFor. by rewrite filter_app, map_app, total_app. Qed.

(** X22.  A request conserves quantities per MSKU across its files: the
    combined map holds, under each MSKU, the sum of the quantities of all
    order lines of all files that went to that MSKU, whichever marketplace
    each file came from. *)
Theorem processOrderFiles_conserves (st : State) (files : option (list (list Row)))
  (k : string) :
  let batches := processOrderFiles st files in
  quantityFor k (Batches.combinedMsquMap batches) =
    total (lineQuantitiesFor k (Batches.allProcessedOrders batches)) /\
  sumQuantities (Batches.combinedMsquMap batches) =
    total (map ProcessedOrder.quantity (Batches.allProcessedOrders batches)).
Proof.
  intros batches. split; [| apply processOrderFiles_sum].
  subst batches. unfold processOrderFiles. destruct files as [fs|]; [| done].
  assert (H : forall acc,
    quantityFor k (Batches.combinedMsquMap acc) =
      total (lineQuantitiesFor k (Batches.allProcessedOrders acc)) ->
    quantityFor k (Batches.combinedMsquMap (fold_left (processOrderFile st) fs acc)) =
      total (lineQuantitiesFor k
               (Batches.allProcessedOrders (fold_left (processOrderFile st) fs acc)))).
  { induction fs as [|f fs IH]; intros acc Hacc; [done |].
    cbn [fold_left]. apply IH. unfold processOrderFile.
    cbn [Batches.combinedMsquMap Batches.allProcessedOrders].
    destruct (processOrderData_sums st f (detectMarketplace f)) as (Hk & _ & Hnd & _).
    rewrite combineMsquMap_per_key, lineQuantitiesFor_app, Hacc, Hk by done. done. }
  by apply H.
Qed.

(** ** The mapping table and the normaliser *)

Lemma trimStart_startsWithWs (s : string) : startsWithWs (trimStart s) = false.
Proof.
  induction s as [|a s IH]; [done |]. simpl. destruct (is_ws a) eqn:Ha; [done |].
  simpl. exact Ha.
Qed.

Lemma trimEnd_startsWithWs (s : string) :
  startsWithWs s = false -> startsWithWs (trimEnd s) = false.
Proof.
  destruct s as [|a s]; [done |]. simpl. intros Ha.
  destruct (trimEnd s); simpl; by rewrite ?Ha.
Qed.

Lemma trim_idempotent (s : string) : trim (trim s) = trim s.
Proof.
  apply trim_id_iff. unfold trim. split.
  - apply trimEnd_startsWithWs, trimStart_startsWithWs.
  - apply trimEnd_endsWithWs.
Qed.

Lemma loadMasterData_trimmed (data : list Row) (st : State) :
  NoDup (JsMap.keys (skuToMsku st)) ->
  Forall (fun '(k, v) => trim k = k /\ trim v = v) (skuToMsku st) ->
  NoDup (JsMap.keys (skuToMsku (loadMasterData data st))) /\
  Forall (fun '(k, v) => trim k = k /\ trim v = v) (skuToMsku (loadMasterData data st)).
Proof.
  unfold loadMasterData. revert st. induction data as [|row data IH]; intros st Hnd Hst;
    [done |].
  cbn [fold_left]. apply IH; unfold loadMasterData_row; destruct (_ && _); try done;
    cbn [skuToMsku].
  - by apply NoDup_keys_set.
  - apply Forall_entries_set; [| done]. split; apply trim_idempotent.
Qed.

Lemma run_mappings_trimmed (ops : list Op) (st : State) :
  NoDup (JsMap.keys (skuToMsku st)) ->
  Forall (fun '(k, v) => trim k = k /\ trim v = v) (skuToMsku st) ->
  NoDup (JsMap.keys (skuToMsku (run ops st))) /\
  Forall (fun '(k, v) => trim k = k /\ trim v = v) (skuToMsku (run ops st)).
Proof.
  unfold run. revert st. induction ops as [|o ops IH]; intros st Hnd Hst; [done |].
  cbn [fold_left].
  assert (Hop : NoDup (JsMap.keys (skuToMsku (op st o))) /\
                Forall (fun '(k, v) => trim k = k /\ trim v = v) (skuToMsku (op st o))).
  { destruct o as [req | | m]; cbn [op].
    - rewrite process_orders_state. unfold passesGuard, masterDataGuard.
      destruct (files req) as [fs|]; [| done].
      destruct (Files.masterFile fs) as [data|].
      + destruct (reconcile_tables (soldOf (loadMasterData data st) fs)
                    (resetInventory (loadMasterData data st))) as [-> _].
        destruct (resetInventory_tables (loadMasterData data st)) as [-> _].
        by apply loadMasterData_trimmed.
      + destruct (_ =? _)%nat; [done |].
        destruct (reconcile_tables (soldOf st fs) (resetInventory st)) as [-> _].
        destruct (resetInventory_tables st) as [-> _]. done.
    - unfold reset_inventory. destruct (resetInventory_tables st) as [-> _]. done.
    - destruct (reconcile_tables m st) as [-> _]. done. }
  destruct Hop as [Hnd1 Hst1]. by apply IH.
Qed.

(** X23.  What [/mappings] lists is what the normaliser answers: at any
    time each raw SKU occurs once in the mapping table, keys and values are
    trimmed text, and for every listed pair the normaliser maps the raw SKU
    to the listed MSKU under every marketplace other than meesho; so does
    every pair in the answer of the route. *)
Theorem mappings_are_what_lookup_returns
  (masterSkuFile comboFile inventoryFile : option (list Row)) (ops : list Op)
  (marketplace : string) :
  let st := run ops (loadMasterFilesOnStartup masterSkuFile comboFile inventoryFile) in
  NoDup (JsMap.keys (skuToMsku st)) /\
  Forall (fun '(sku, msku) =>
            trim sku = sku /\ trim msku = msku /\
            (String.eqb marketplace "meesho" = false ->
             mapSkuToMsku st (VStr sku) marketplace = msku))
    (skuToMsku st) /\
  Forall (fun '(sku, msku) =>
            String.eqb marketplace "meesho" = false ->
            mapSkuToMsku st (VStr sku) marketplace = msku)
    (MappingsResponse.mappings (get_mappings st)).
Proof.
  intros st.
  assert (H0 : NoDup (JsMap.keys (skuToMsku
                 (loadMasterFilesOnStartup masterSkuFile comboFile inventoryFile))) /\
               Forall (fun '(k, v) => trim k = k /\ trim v = v)
                 (skuToMsku (loadMasterFilesOnStartup masterSkuFile comboFile inventoryFile))).
  { unfold loadMasterFilesOnStartup.
    set (st1 := match masterSkuFile with Some data => _ | None => _ end).
    assert (H1 : NoDup (JsMap.keys (skuToMsku st1)) /\
                 Forall (fun '(k, v) => trim k = k /\ trim v = v) (skuToMsku st1)).
    { subst st1. destruct masterSkuFile as [data|].
      - apply loadMasterData_trimmed; [apply NoDup_nil_2 | constructor].
      - split; [apply NoDup_nil_2 | constructor]. }
    set (st2 := match comboFile with Some data => _ | None => _ end).
    assert (H2 : skuToMsku st2 = skuToMsku st1).
    { subst st2. destruct comboFile as [data|]; [| done].
      by destruct (loadComboData_inventory data st1) as (_ & _ & _ & ->). }
    destruct inventoryFile as [data|]; [| by rewrite H2].
    unfold loadCurrentInventory.
    destruct (loadCurrentInventory_from_tables 0 data st2) as [-> _]. by rewrite H2. }
  destruct H0 as [Hnd0 Htr0].
  destruct (run_mappings_trimmed ops _ Hnd0 Htr0) as [Hnd Htr]. fold st in Hnd, Htr.
  assert (Hall : Forall (fun '(sku, msku) =>
            trim sku = sku /\ trim msku = msku /\
            (String.eqb marketplace "meesho" = false ->
             mapSkuToMsku st (VStr sku) marketplace = msku)) (skuToMsku st)).
  { apply Forall_forall. intros [sku msku] Hin.
    pose proof (proj1 (Forall_forall _ _) Htr _ Hin) as [Hk Hv]. split_and!; try done.
    intros Hm. unfold mapSkuToMsku. rewrite Hm. cbn [truthy ToString].
    destruct (String.eqb_spec sku "") as [-> | Hne]; cbn [negb].
    - by rewrite (elem_get _ "" msku Hnd Hin).
    - rewrite Hk. by rewrite (elem_get _ sku msku Hnd Hin). }
  split_and!; try done.
  cbn [get_mappings MappingsResponse.mappings]. apply Forall_take.
  eapply Forall_impl; [exact Hall |]. intros [sku msku] (_ & _ & H). exact H.
Qed.
